(** * Social automator: the task execution engine

    A shallow embedding of the browser-automation handlers of the
    repository (the Playwright session helpers of
    [src/lib/playwright-config.ts] and the route handlers that drive them)
    together with the properties that the design document states about
    them.

    The handlers are asynchronous TypeScript functions that talk to two
    outside parties: a browser (through Playwright) and a relational store
    (through the Supabase client).  Both are modelled explicitly:

    - the store is part of the [World]: three tables, as lists of rows;
    - the browser is an [Env]ironment: for every call and every point in
      time it says whether the call rejects and what it answers.  The
      handlers are functions of that environment, so every statement that
      quantifies over [Env] holds for every behaviour of the web page.

    Exceptions keep the effects made before they were thrown, so the monad
    is [Env -> World -> Result A * World] rather than a state monad over
    an error monad. *)

From Stdlib Require Import String Ascii List Bool Arith ZArith Lia DecimalString.
Import ListNotations.

Local Open Scope string_scope.
Local Open Scope list_scope.

Infix "^^" := String.append (at level 60, right associativity).

(* ===================================================================== *)
(** * JavaScript values and string helpers *)
(* ===================================================================== *)

Module Js.

(** [Boolean(s)] for a string: the empty string is falsy. *)
Definition truthy (s : string) : bool := negb (s =? "").

(** Truthiness of a nullable string ([null] and [undefined] are falsy). *)
Definition truthy_opt (s : option string) : bool :=
  match s with Some s => truthy s | None => false end.

(** Truthiness of a nullable number: [null], [0] (and [NaN], which the
    callers represent as [None]) are falsy. *)
Definition truthy_num (n : option Z) : bool :=
  match n with Some n => negb (n =? 0)%Z | None => false end.

(** [a || b] on strings. *)
Definition or_else (s : option string) (d : string) : string :=
  match s with Some s => if truthy s then s else d | None => d end.

(** [s.split(sep)] for a one-character separator. *)
Fixpoint split (sep : ascii) (s : string) : list string :=
  match s with
  | EmptyString => [""]
  | String c rest =>
      if (c =? sep)%char then "" :: split sep rest
      else match split sep rest with
           | hd :: tl => String c hd :: tl
           | [] => [String c ""]
           end
  end.

(** ASCII white space (the part of [String.prototype.trim]'s white space
    that fits in one byte). *)
Definition is_space (c : ascii) : bool :=
  let n := nat_of_ascii c in
  ((n =? 32) || ((9 <=? n) && (n <=? 13)))%nat.

Fixpoint trim_start (s : string) : string :=
  match s with
  | EmptyString => ""
  | String c rest => if is_space c then trim_start rest else s
  end.

Fixpoint trim_end (s : string) : string :=
  match s with
  | EmptyString => ""
  | String c rest =>
      let r := trim_end rest in
      if is_space c && (r =? "") then "" else String c r
  end.

Definition trim (s : string) : string := trim_end (trim_start s).

(** [hay.includes(needle)]. *)
Definition includes (needle hay : string) : bool :=
  match String.index 0 needle hay with Some _ => true | None => false end.

(** [l.join(sep)]. *)
Definition join (sep : string) (l : list string) : string := String.concat sep l.

(** [n.toString()] and template-literal printing of an integer. *)
Definition number_to_string (n : Z) : string := NilZero.string_of_int (Z.to_int n).

(** A JSON value as far as request bodies go. *)
Inductive value : Type :=
| Undefined
| Null
| Bool (b : bool)
| Number (n : Z)
| Str (s : string).

(** A JSON object literal: the last binding of a key wins, as in
    [JSON.parse]. *)
Definition object := list (string * value).

Fixpoint get (o : object) (key : string) : value :=
  match o with
  | [] => Undefined
  | (k, v) :: rest =>
      match get rest key with
      | Undefined => if k =? key then v else Undefined
      | later => later
      end
  end.

End Js.

(* ===================================================================== *)
(** * The data model: rows of the three tables *)
(* ===================================================================== *)

(** [task_status] is an enum type of the schema
    ([CREATE TYPE task_status AS ENUM ...]). *)
Inductive task_status : Type := active | paused | completed | failed | pending.

(** A row of [social_accounts] (the columns the handlers read or write).
    Nullable columns are options; [status] is a TEXT column. *)
Record Account : Type := {
  account_id : string;
  account_user_id : string;
  platform : string;
  account_type : string;
  email : string;
  password : string;
  username : string;
  cookies : option string;
  account_status : string;
  proxy_ip : option string;
  proxy_port : option Z;
  proxy_username : option string;
  proxy_password : option string;
  mail_password : option string;
  mfa_code : option string;
  proxy_last_used : option nat
}.

(** A row of [tasks].  Identifiers are generated by the store. *)
Record Task : Type := {
  task_id : nat;
  task_user_id : string;
  social_account_id : string;
  task_type : string;
  action_data : list (string * string);
  schedule_type : string;
  status : task_status;
  next_run_at : string
}.

(** A row of [task_logs]. *)
Record TaskLog : Type := {
  log_task_id : nat;
  execution_time : nat;
  result : string;
  message : string
}.

(** A browser cookie, as [context.addCookies] takes it.  [value] is
    [None] where the JavaScript value is [undefined]. *)
Record Cookie : Type := {
  cookie_name : string;
  cookie_value : option string;
  domain : string;
  path : string;
  secure : bool;
  httpOnly : bool;
  sameSite : string
}.

(** What [JSON.parse] gives for a session blob: an array of cookie
    objects, or some other JSON value. *)
Inductive Json : Type :=
| JsonCookies (l : list Cookie)
| JsonOther.

(* ===================================================================== *)
(** * The runtime: environment, world, events and the handler monad *)
(* ===================================================================== *)

(** Selectors are written with single quotes where the source has double
    quotes inside a string literal; the two are the same CSS. *)

(** The calls a handler can make to the outside. *)
Inductive Op : Type :=
(* browser, context and page life cycle *)
| ChromiumLaunch
| BrowserNewContext
| ContextAddCookies
| ContextAddInitScript
| ContextNewPage
| PageAddInitScript
| ContextCookies
| PageClose
| ContextClose
| BrowserClose
(* navigation and waiting *)
| PageGoto (url : string)
| PageReload
| PageWaitForTimeout (ms : N)
| PageWaitForSelector (selector : string)
| PageWaitForAny (selectors : list string)
| PageWaitForLoadState
(* queries *)
| IsVisible (selector : string)
| IsDisabled (selector : string)
| LocatorCount (selector : string)
| TextContent (selector : string)
| GetAttribute (selector attribute : string)
| PageEvaluate (script : string)
| QuerySelector (selector : string)
(* input *)
| Click (selector : string)
| Fill (selector : string)
| TypeChar (selector : string) (c : ascii)
| TypeText (selector : string) (content : string)
| KeyboardType (c : ascii)
| SetInputFiles (selector : string)
(* store and file system *)
| DbSelect (table : string)
| DbInsert (table : string)
| DbUpdate (table : string)
| WriteFile.

(** What is thrown: an [Error] object with its message, or a value that is
    not an instance of [Error]. *)
Inductive Thrown : Type :=
| ErrorObj (msg : string)
| NonError.

(** [error instanceof Error ? error.message : fallback]. *)
Definition message_or (e : Thrown) (fallback : string) : string :=
  match e with ErrorObj m => m | NonError => fallback end.

(** The environment: how the browser, the store's error channel and the
    pure library functions behave.  The time argument is the [clock] of
    the world at the moment of the call. *)
Record Env : Type := {
  fails : Op -> nat -> option string;   (* [Some msg]: the call rejects *)
  truth : Op -> nat -> bool;            (* boolean answers *)
  number : Op -> nat -> nat;            (* [count()] *)
  text : Op -> nat -> option string;    (* [textContent()], [getAttribute()] *)
  url : nat -> string;                  (* [page.url()] *)
  jar : nat -> list Cookie;             (* [context.cookies()] *)
  random : nat -> nat;                  (* the entropy behind [Math.random] *)
  JSON_parse : string -> option Json;   (* [None]: a [SyntaxError] *)
  JSON_stringify : list Cookie -> string;
  is_email : string -> bool;            (* zod's [.email()] *)
  is_uuid : string -> bool;             (* zod's [.uuid()] *)
  is_url : string -> bool;              (* zod's [.url()] *)
  generateTOTP : string -> nat -> string; (* otplib's [authenticator.generate] *)
  zod_message : list string -> string   (* [ZodError.message]: the JSON text zod
                                           prints for a list of issues *)
}.

(** Resource events and calls, in the order they happen. *)
Inductive Event : Type :=
| Called (op : Op)
| Launched (browser : nat) (headless : bool)
| ContextOpened (browser context : nat) (proxy_server : option string)
| CookiesAdded (context : nat) (payload : Json)
| PageOpened (context page : nat)
| PageClosed (page : nat)
| ContextClosed (context : nat)
| BrowserClosed (browser : nat).

(** The local variables [context] and [page] of the running handler
    ([let context: BrowserContext | null = null]). *)
Record Locals : Type := {
  context : option nat;
  page : option nat
}.

Record World : Type := {
  clock : nat;                   (* number of calls made so far *)
  fresh : nat;                   (* next handle or row identifier *)
  globalBrowser : option nat;    (* [let globalBrowser: Browser | null] *)
  locals : Locals;
  accounts : list Account;
  tasks : list Task;
  task_logs : list TaskLog;
  trace : list Event
}.

(** The outcome of running a handler: a value, an exception, or [Hang]
    when a loop of the source did not end within the fuel given. *)
Inductive Result (A : Type) : Type :=
| Ok (a : A)
| Throw (e : Thrown)
| Hang.
Arguments Ok {A} a.
Arguments Throw {A} e.
Arguments Hang {A}.

Definition M (A : Type) : Type := Env -> World -> Result A * World.

Definition ret {A} (a : A) : M A := fun _ w => (Ok a, w).

Definition throw {A} (e : Thrown) : M A := fun _ w => (Throw e, w).

(** [throw new Error(msg)]. *)
Definition throw_error {A} (msg : string) : M A := throw (ErrorObj msg).

Definition hang {A} : M A := fun _ w => (Hang, w).

Definition bind {A B} (m : M A) (f : A -> M B) : M B :=
  fun env w =>
    match m env w with
    | (Ok a, w1) => f a env w1
    | (Throw e, w1) => (Throw e, w1)
    | (Hang, w1) => (Hang, w1)
    end.

Declare Scope handler_scope.
Delimit Scope handler_scope with handler.
Notation "x <- m ;; k" := (bind m (fun x => k))
  (at level 61, m at next level, right associativity) : handler_scope.
Notation "' p <- m ;; k" := (bind m (fun x => match x with p => k end))
  (at level 61, p pattern, m at next level, right associativity) : handler_scope.
Notation "m ;; k" := (bind m (fun _ => k))
  (at level 61, right associativity) : handler_scope.
Local Open Scope handler_scope.

(** [try { body } catch (e) { handler e }]. *)
Definition try_catch {A} (body : M A) (handler : Thrown -> M A) : M A :=
  fun env w =>
    match body env w with
    | (Throw e, w1) => handler e env w1
    | other => other
    end.

(** [try { body } finally { fin }]: [fin] runs on return and on throw, and
    an exception of [fin] replaces the outcome of [body]. *)
Definition try_finally {A} (body : M A) (fin : M unit) : M A :=
  fun env w =>
    match body env w with
    | (Hang, w1) => (Hang, w1)
    | (r, w1) =>
        match fin env w1 with
        | (Ok _, w2) => (r, w2)
        | (Throw e, w2) => (Throw e, w2)
        | (Hang, w2) => (Hang, w2)
        end
    end.

(** [promise.catch(() => d)]. *)
Definition catch_default {A} (m : M A) (d : A) : M A :=
  try_catch m (fun _ => ret d).

(** Reading the environment and the world. *)
Definition asks {A} (f : Env -> A) : M A := fun env w => (Ok (f env), w).
Definition gets {A} (f : World -> A) : M A := fun _ w => (Ok (f w), w).
Definition modify (f : World -> World) : M unit := fun _ w => (Ok tt, f w).

(** World updates, one per field that changes. *)
Definition with_clock (n : nat) (w : World) : World :=
  {| clock := n; fresh := fresh w; globalBrowser := globalBrowser w;
     locals := locals w; accounts := accounts w; tasks := tasks w;
     task_logs := task_logs w; trace := trace w |}.
Definition with_fresh (n : nat) (w : World) : World :=
  {| clock := clock w; fresh := n; globalBrowser := globalBrowser w;
     locals := locals w; accounts := accounts w; tasks := tasks w;
     task_logs := task_logs w; trace := trace w |}.
Definition with_globalBrowser (b : option nat) (w : World) : World :=
  {| clock := clock w; fresh := fresh w; globalBrowser := b;
     locals := locals w; accounts := accounts w; tasks := tasks w;
     task_logs := task_logs w; trace := trace w |}.
Definition with_locals (l : Locals) (w : World) : World :=
  {| clock := clock w; fresh := fresh w; globalBrowser := globalBrowser w;
     locals := l; accounts := accounts w; tasks := tasks w;
     task_logs := task_logs w; trace := trace w |}.
Definition with_accounts (l : list Account) (w : World) : World :=
  {| clock := clock w; fresh := fresh w; globalBrowser := globalBrowser w;
     locals := locals w; accounts := l; tasks := tasks w;
     task_logs := task_logs w; trace := trace w |}.
Definition with_tasks (l : list Task) (w : World) : World :=
  {| clock := clock w; fresh := fresh w; globalBrowser := globalBrowser w;
     locals := locals w; accounts := accounts w; tasks := l;
     task_logs := task_logs w; trace := trace w |}.
Definition with_task_logs (l : list TaskLog) (w : World) : World :=
  {| clock := clock w; fresh := fresh w; globalBrowser := globalBrowser w;
     locals := locals w; accounts := accounts w; tasks := tasks w;
     task_logs := l; trace := trace w |}.
Definition with_trace (l : list Event) (w : World) : World :=
  {| clock := clock w; fresh := fresh w; globalBrowser := globalBrowser w;
     locals := locals w; accounts := accounts w; tasks := tasks w;
     task_logs := task_logs w; trace := l |}.

Definition emit (e : Event) : M unit :=
  modify (fun w => with_trace (trace w ++ [e]) w).

(** A new handle. *)
Definition new_handle : M nat :=
  fun _ w => (Ok (fresh w), with_fresh (S (fresh w)) w).

(** One call to the outside: it is recorded, takes one tick of the clock,
    and rejects when the environment says so.  The result is the time of
    the call, with which the answer is looked up. *)
Definition call (op : Op) : M nat :=
  fun env w =>
    let t := clock w in
    let w' := with_clock (S t) (with_trace (trace w ++ [Called op]) w) in
    match fails env op t with
    | Some msg => (Throw (ErrorObj msg), w')
    | None => (Ok t, w')
    end.

Definition call_ (op : Op) : M unit := call op ;; ret tt.
Definition call_bool (op : Op) : M bool :=
  t <- call op ;; asks (fun env => truth env op t).
Definition call_number (op : Op) : M nat :=
  t <- call op ;; asks (fun env => number env op t).
Definition call_text (op : Op) : M (option string) :=
  t <- call op ;; asks (fun env => text env op t).

(** [for (const x of l) body x]. *)
Fixpoint for_each {A} (l : list A) (body : A -> M unit) : M unit :=
  match l with
  | [] => ret tt
  | x :: rest => body x ;; for_each rest body
  end.

(** [while (cond s) { body }], where the body says whether it ended in
    [break].  The source loop need not end; the model stops with [Hang]
    when the fuel is used up while the condition still holds. *)
Fixpoint while_loop {S} (fuel : nat) (cond : S -> bool)
    (body : S -> M (S * bool)) (s : S) : M S :=
  if cond s then
    match fuel with
    | O => hang
    | Datatypes.S fuel' =>
        r <- body s ;;
        if snd r then ret (fst r) else while_loop fuel' cond body (fst r)
    end
  else ret s.

Definition chars (s : string) : list ascii := list_ascii_of_string s.

(** [Math.floor(Math.random() * (max - min + 1)) + min]: the floating
    point draw is abstracted to a natural number reduced to the range. *)
Definition randomDelay (min max : N) : M N :=
  fun env w =>
    (Ok (N.of_nat (random env (clock w)) mod (max - min + 1) + min)%N,
     with_clock (S (clock w)) w).

(** The local variables of the handler. *)
Definition set_context (c : option nat) : M unit :=
  modify (fun w => with_locals {| context := c; page := page (locals w) |} w).
Definition set_page (p : option nat) : M unit :=
  modify (fun w => with_locals {| context := context (locals w); page := p |} w).
Definition get_context : M (option nat) := gets (fun w => context (locals w)).
Definition get_page : M (option nat) := gets (fun w => page (locals w)).

(** [await context.close()], [await page.close()], [await browser.close()]:
    a call like the others; the resource counts as closed when the call
    resolves. *)
Definition context_close (c : nat) : M unit :=
  call_ ContextClose ;; emit (ContextClosed c).
Definition page_close (p : nat) : M unit :=
  call_ PageClose ;; emit (PageClosed p).
Definition browser_close (b : nat) : M unit :=
  call_ BrowserClose ;; emit (BrowserClosed b).

(* ===================================================================== *)
(** * src/lib/playwright-config.ts *)
(* ===================================================================== *)

(** [interface ProxyConfig].  The interface declares [port] a string; the
    callers pass what the account row holds, a number, or its
    [toString()]. *)
Module Proxy.

Inductive Port : Type :=
| PortNumber (n : Z)
| PortString (s : string).

Definition port_to_string (p : Port) : string :=
  match p with
  | PortNumber n => Js.number_to_string n
  | PortString s => s
  end.

Record Config : Type := {
  type : option string;
  server : string;
  port : Port;
  username : option string;
  password : option string
}.


Definition nullable (s : option string) : Js.value :=
  match s with Some s => Js.Str s | None => Js.Undefined end.

(** [proxyConfig[key]]: the value under a property name; a name the
    descriptor does not have gives [undefined].  (A credential that is
    [null] in the store reads as [undefined] here: the record keeps one
    [None] for both.) *)
Definition get (c : Config) (key : string) : Js.value :=
  if key =? "type" then nullable (type c)
  else if key =? "server" then Js.Str (server c)
  else if key =? "port" then
    match port c with PortNumber n => Js.Number n | PortString s => Js.Str s end
  else if key =? "username" then nullable (username c)
  else if key =? "password" then nullable (password c)
  else Js.Undefined.


End Proxy.

Module PlaywrightConfig.

(** [BROWSER_CONFIG.headless]. *)
Definition BROWSER_CONFIG_headless : bool := true.

(** The [server] entry of the context's proxy option. *)
Definition proxy_server (proxyConfig : Proxy.Config) : string :=
  let host_port :=
    Proxy.server proxyConfig ^^ ":" ^^ Proxy.port_to_string (Proxy.port proxyConfig) in
  if Js.truthy_opt (Proxy.type proxyConfig)
  then Js.or_else (Proxy.type proxyConfig) "" ^^ "://" ^^ host_port
  else "http://" ^^ host_port.

(** [chromium.launch({...BROWSER_CONFIG, headless})]. *)
Definition chromium_launch (headless : bool) : M nat :=
  call ChromiumLaunch ;;
  b <- new_handle ;;
  emit (Launched b headless) ;;
  ret b.

(** [browser.newContext(contextConfig)]. *)
Definition browser_newContext (browser : nat) (proxyConfig : option Proxy.Config)
  : M nat :=
  call BrowserNewContext ;;
  c <- new_handle ;;
  emit (ContextOpened browser c (option_map proxy_server proxyConfig)) ;;
  ret c.

(** [context.addCookies(parsedCookies)]. *)
Definition context_addCookies (context : nat) (parsedCookies : Json) : M unit :=
  call ContextAddCookies ;;
  emit (CookiesAdded context parsedCookies).

(** [context.newPage()]. *)
Definition context_newPage (context : nat) : M nat :=
  call ContextNewPage ;;
  p <- new_handle ;;
  emit (PageOpened context p) ;;
  ret p.

(** [initGlobalBrowser]: launch on first use, then reuse. *)
Definition initGlobalBrowser : M nat :=
  g <- gets globalBrowser ;;
  match g with
  | Some browser => ret browser
  | None =>
      browser <- chromium_launch BROWSER_CONFIG_headless ;;
      modify (with_globalBrowser (Some browser)) ;;
      ret browser
  end.

(** [initGlobalBrowser] is an [async] function with one [await]: a call
    runs up to it (the test of [globalBrowser] and the call of
    [chromium.launch]) and is resumed later, when the launch has
    resolved, with the assignment and the [return].  Other callers can
    run in between. *)
Inductive Pending : Type :=
| Found (browser : nat)       (* [globalBrowser] was set: nothing awaited *)
| Launching (browser : nat).  (* the launch whose result is awaited *)

Definition initGlobalBrowser_enter : M Pending :=
  g <- gets globalBrowser ;;
  match g with
  | Some browser => ret (Found browser)
  | None =>
      browser <- chromium_launch BROWSER_CONFIG_headless ;;
      ret (Launching browser)
  end.

Definition initGlobalBrowser_resume (p : Pending) : M nat :=
  match p with
  | Found browser => ret browser
  | Launching browser =>
      modify (with_globalBrowser (Some browser)) ;;
      ret browser
  end.

(** Two callers whose calls overlap: the second one enters while the
    first one is waiting for its launch. *)
Definition initGlobalBrowser_overlapped : M (nat * nat) :=
  first <- initGlobalBrowser_enter ;;
  second <- initGlobalBrowser_enter ;;
  a <- initGlobalBrowser_resume first ;;
  b <- initGlobalBrowser_resume second ;;
  ret (a, b).

(** The record built for one [cookie] of the [split(';')] fallback. *)
Definition cookie_of_pair (cookie : string) : Cookie :=
  let parts := Js.split "=" (Js.trim cookie) in
  {| cookie_name := nth 0 parts "";
     cookie_value := nth_error parts 1;
     domain := ".facebook.com";
     path := "/";
     secure := true;
     httpOnly := true;
     sameSite := "Lax" |}.

(** [JSON.parse(cookies)], which throws a [SyntaxError] on other text. *)
Definition json_parse (s : string) : M Json :=
  r <- asks (fun env => JSON_parse env s) ;;
  match r with
  | Some j => ret j
  | None => throw_error "Unexpected token in JSON"
  end.

(** [parseCookies]: JSON first, else a cookie string. *)
Definition parseCookies (cookies : string) : M Json :=
  try_catch (json_parse cookies)
    (fun _ => ret (JsonCookies (map cookie_of_pair (Js.split ";" cookies)))).

(** The block [if (cookies) { try { ... } catch { console.error } }]. *)
Definition restore_cookies (context : nat) (cookies : option string) : M unit :=
  match cookies with
  | Some s =>
      if Js.truthy s then
        try_catch
          (parsedCookies <- parseCookies s ;;
           context_addCookies context parsedCookies)
          (fun _ => ret tt)
      else ret tt
  | None => ret tt
  end.

(** [createStealthContext]: a context of the global browser. *)
Definition createStealthContext (cookies : option string)
    (proxyConfig : option Proxy.Config) : M nat :=
  browser <- initGlobalBrowser ;;
  context <- browser_newContext browser proxyConfig ;;
  restore_cookies context cookies ;;
  call_ ContextAddInitScript ;;
  ret context.

(** [createStealthPage]. *)
Definition createStealthPage (context : nat) : M nat :=
  page <- context_newPage context ;;
  call_ PageAddInitScript ;;
  ret page.

(** [cleanup]: close the global browser, if there is one. *)
Definition cleanup : M unit :=
  g <- gets globalBrowser ;;
  match g with
  | Some browser =>
      browser_close browser ;;
      modify (with_globalBrowser None)
  | None => ret tt
  end.

(** [createStealthSetup]: a browser of its own, a context and a page. *)
Definition createStealthSetup (cookies : option string)
    (proxyConfig : option Proxy.Config) (headless : bool) : M (nat * nat) :=
  browser <- chromium_launch headless ;;
  context <- browser_newContext browser proxyConfig ;;
  restore_cookies context cookies ;;
  call_ ContextAddInitScript ;;
  page <- context_newPage context ;;
  call_ PageAddInitScript ;;
  ret (context, page).

End PlaywrightConfig.

(* ===================================================================== *)
(** * The HTTP layer, request validation and the store *)
(* ===================================================================== *)

Module Http.

(** A request: the user of the session cookie (if any) and the JSON body
    ([None] when the body does not parse). *)
Record Request : Type := {
  session : option string;
  body : option Js.object
}.

(** What a handler puts under the key [details]: a text of its own, or
    [error.stack] of the error it caught.  The stack is the engine's
    text (the class of the error, its message and the frames); it is
    kept as the error it belongs to. *)
Inductive Details : Type :=
| Text (s : string)
| Stack (e : Thrown).

(** [NextResponse.json(payload, { status })], with the keys the handlers
    use; an absent key is [None]. *)
Record Response : Type := {
  status : nat;
  success : option bool;
  requiresMfa : option bool;
  message : option string;
  taskId : option nat;
  error : option string;
  details : option Details;
  account : option Account
}.

Definition json_error (code : nat) (err : string) (det : option Details) : Response :=
  {| status := code; success := None; requiresMfa := None; message := None;
     taskId := None; error := Some err; details := det; account := None |}.

Definition json_success (ok : bool) (msg : string) (task : option nat) : Response :=
  {| status := 200; success := Some ok; requiresMfa := None; message := Some msg;
     taskId := task; error := None; details := None; account := None |}.

(** [error instanceof Error ? error.stack : undefined]. *)
Definition stack (e : Thrown) : option Details :=
  match e with ErrorObj _ => Some (Stack e) | NonError => None end.

(** The response of the outermost [catch] of a handler. *)
Definition internal_error (e : Thrown) (fallback : string) : Response :=
  json_error 500 (message_or e fallback) (stack e).

(** [await request.json()]. *)
Definition request_json (request : Request) : M Js.object :=
  match body request with
  | Some o => ret o
  | None => throw_error "Unexpected end of JSON input"
  end.

End Http.

(** The part of zod that the schemas use.  A field validator gives the
    value or the message of its issue. *)
Module Zod.

Definition Parsed (A : Type) : Type := (string + A)%type.

Definition str (v : Js.value) : Parsed string :=
  match v with
  | Js.Str s => inr s
  | Js.Undefined => inl "Required"
  | _ => inl "Expected string"
  end.

Definition optional_str (v : Js.value) : Parsed (option string) :=
  match v with
  | Js.Str s => inr (Some s)
  | Js.Undefined => inr None
  | _ => inl "Expected string"
  end.

(** [.min(n, msg)], [.email(msg)], [.refine(ok, msg)] and the like. *)
Definition refine {A} (ok : A -> bool) (msg : string) (p : Parsed A) : Parsed A :=
  match p with
  | inr a => if ok a then inr a else inl msg
  | inl m => inl m
  end.

Definition min (n : nat) (msg : string) (p : Parsed string) : Parsed string :=
  refine (fun s => (n <=? String.length s)%nat) msg p.

Definition issues {A} (p : Parsed A) : list string :=
  match p with inl m => [m] | inr _ => [] end.

(** [schema.parse(body)]: the value, or a [ZodError] (an [Error]) whose
    message is the text that zod prints for the issues. *)
Definition parse {A} (schema : Env -> Js.object -> list string + A)
    (body : Js.object) : M A :=
  r <- asks (fun env => schema env body) ;;
  match r with
  | inr a => ret a
  | inl errs =>
      text <- asks (fun env => zod_message env errs) ;;
      throw_error text
  end.

End Zod.

(** The Supabase client.  A query whose [error] the handler inspects asks
    the environment whether it failed; a write whose result the handler
    ignores is taken to succeed. *)
Module Supabase.

(** A round trip to the store; [true] when it reports an error. *)
Definition round_trip (op : Op) : M bool :=
  fun env w =>
    let t := clock w in
    (Ok (match fails env op t with Some _ => true | None => false end),
     with_clock (S t) (with_trace (trace w ++ [Called op]) w)).

(** [.single()]: exactly one row. *)
Definition single {A} (rows : list A) : option A :=
  match rows with [a] => Some a | _ => None end.

(** [from('social_accounts').select('*')...single()] with the filter
    [p]; the result is [(data, error)]. *)
Definition select_account (p : Account -> bool) : M (option Account * bool) :=
  err <- round_trip (DbSelect "social_accounts") ;;
  rows <- gets (fun w => filter p (accounts w)) ;;
  ret (if err then (None, true)
       else match single rows with
            | Some a => (Some a, false)
            | None => (None, true)
            end).

Definition with_task_id (id : nat) (t : Task) : Task :=
  {| task_id := id; task_user_id := task_user_id t;
     social_account_id := social_account_id t; task_type := task_type t;
     action_data := action_data t; schedule_type := schedule_type t;
     status := status t; next_run_at := next_run_at t |}.

Definition with_status (s : task_status) (t : Task) : Task :=
  {| task_id := task_id t; task_user_id := task_user_id t;
     social_account_id := social_account_id t; task_type := task_type t;
     action_data := action_data t; schedule_type := schedule_type t;
     status := s; next_run_at := next_run_at t |}.

Definition with_action_data (d : list (string * string)) (t : Task) : Task :=
  {| task_id := task_id t; task_user_id := task_user_id t;
     social_account_id := social_account_id t; task_type := task_type t;
     action_data := d; schedule_type := schedule_type t;
     status := status t; next_run_at := next_run_at t |}.

(** [from('tasks').insert([taskData]).select().single()]: the new row
    with the identifier the store gave it, or an error. *)
Definition insert_task (taskData : Task) : M (option Task * bool) :=
  err <- round_trip (DbInsert "tasks") ;;
  if err then ret (None, true)
  else
    id <- new_handle ;;
    let row := with_task_id id taskData in
    modify (fun w => with_tasks (tasks w ++ [row]) w) ;;
    ret (Some row, false).

(** [from('task_logs').insert([{ task_id, execution_time, result, message }])]. *)
Definition insert_log (id : nat) (res msg : string) : M unit :=
  modify (fun w =>
    with_clock (S (clock w))
      (with_trace (trace w ++ [Called (DbInsert "task_logs")])
         (with_task_logs
            (task_logs w ++
             [{| log_task_id := id; execution_time := clock w;
                 result := res; message := msg |}]) w))).

(** [from('tasks').update(...).eq('id', id)]. *)
Definition update_task (id : nat) (f : Task -> Task) : M unit :=
  modify (fun w =>
    with_clock (S (clock w))
      (with_trace (trace w ++ [Called (DbUpdate "tasks")])
         (with_tasks
            (map (fun t => if (task_id t =? id)%nat then f t else t) (tasks w)) w))).

(** [from('tasks').update({ status }).eq('id', id)]. *)
Definition update_task_status (id : nat) (s : task_status) : M unit :=
  update_task id (with_status s).

(** [from('social_accounts').update(...).eq('id', id)], result ignored. *)
Definition update_account (id : string) (f : Account -> Account) : M unit :=
  modify (fun w =>
    with_clock (S (clock w))
      (with_trace (trace w ++ [Called (DbUpdate "social_accounts")])
         (with_accounts
            (map (fun a => if account_id a =? id then f a else a) (accounts w)) w))).

End Supabase.

(** The timestamp strings of the source ([new Date().toISOString()]) are
    not looked at by any handler; one constant stands for them. *)
Definition now_iso : string := "now".

(** Page calls shared by the handlers.  The page handle is the one page of
    the context, so the calls are keyed by what they do. *)
Definition page_goto (url : string) : M unit := call_ (PageGoto url).
Definition page_waitForTimeout (ms : N) : M unit := call_ (PageWaitForTimeout ms).
Definition page_waitForSelector (selector : string) : M unit :=
  call_ (PageWaitForSelector selector).
Definition page_reload : M unit := call_ PageReload.
Definition locator_isVisible (selector : string) : M bool := call_bool (IsVisible selector).
Definition locator_count (selector : string) : M nat := call_number (LocatorCount selector).
Definition locator_textContent (selector : string) : M (option string) :=
  call_text (TextContent selector).
Definition locator_click (selector : string) : M unit := call_ (Click selector).
Definition locator_fill (selector : string) : M unit := call_ (Fill selector).

(** [await page.waitForTimeout(randomDelay(min, max))]. *)
Definition human_pause (min max : N) : M unit :=
  ms <- randomDelay min max ;;
  page_waitForTimeout ms.

(** [if (context) await context.close()]. *)
Definition close_context_if_open : M unit :=
  c <- get_context ;;
  match c with
  | Some context => context_close context
  | None => ret tt
  end.

(* ===================================================================== *)
(** * The twitter follow handler (first [POST] of
      src/app/api/twitter/follow/route.ts) *)
(* ===================================================================== *)

Module TwitterFollow.

Inductive Action : Type := follow | unfollow.

Definition action_name (a : Action) : string :=
  match a with follow => "follow" | unfollow => "unfollow" end.

Definition action_eqb (a b : Action) : bool :=
  match a, b with
  | follow, follow | unfollow, unfollow => true
  | _, _ => false
  end.

(** The validated body. *)
Module Body.
Record t : Type := {
  username : string;
  accountId : string;
  action : Action
}.
End Body.

(** [z.enum(['follow', 'unfollow']).default('follow')]. *)
Definition action_enum (v : Js.value) : Zod.Parsed Action :=
  match v with
  | Js.Undefined => inr follow
  | Js.Str s =>
      if s =? "follow" then inr follow
      else if s =? "unfollow" then inr unfollow
      else inl "Invalid enum value"
  | _ => inl "Invalid enum value"
  end.

Definition followUserSchema (env : Env) (body : Js.object) : list string + Body.t :=
  let username := Zod.min 1 "Username is required" (Zod.str (Js.get body "username")) in
  let accountId :=
    Zod.refine (is_uuid env) "Invalid account ID" (Zod.str (Js.get body "accountId")) in
  let action := action_enum (Js.get body "action") in
  match username, accountId, action with
  | inr u, inr a, inr act =>
      inr {| Body.username := u; Body.accountId := a; Body.action := act |}
  | _, _, _ => inl (Zod.issues username ++ Zod.issues accountId ++ Zod.issues action)
  end.

(** The proxy resolver: the expression bound to [proxyConfig]. *)
Definition proxyConfig (account : Account) : option Proxy.Config :=
  if Js.truthy_opt (proxy_ip account) && Js.truthy_num (proxy_port account) then
    match proxy_ip account, proxy_port account with
    | Some ip, Some port =>
        Some {| Proxy.type := Some "http";
                Proxy.server := ip;
                Proxy.port := Proxy.PortNumber port;
                Proxy.username := Some (Js.or_else (proxy_username account) "");
                Proxy.password := Some (Js.or_else (proxy_password account) "") |}
    | _, _ => None
    end
  else None.

Definition taskData (user_id : string) (f : Body.t) : Task :=
  {| task_id := 0;
     task_user_id := user_id;
     social_account_id := Body.accountId f;
     task_type := action_name (Body.action f);
     action_data := [("username", Body.username f);
                     ("action_type", action_name (Body.action f))];
     schedule_type := "once";
     status := active;
     next_run_at := now_iso |}.

Definition unfollow_testid : string := "[data-testid$='-unfollow']".
Definition follow_testid : string := "[data-testid$='-follow']".

Definition buttonSelectors (a : Action) : list string :=
  match a with
  | follow =>
      [follow_testid;
       "button[aria-label='Follow @rihanna']";
       "button[aria-label*='Follow']";
       "[data-testid='placementTracking'] button[aria-label*='Follow']"]
  | unfollow =>
      [unfollow_testid;
       "button[aria-label='Following @rihanna']";
       "button[aria-label*='Following']";
       "[data-testid='placementTracking'] button[aria-label*='Following']"]
  end.

Definition maxRetries : nat := 3.

(** [page.evaluate(() => ({ isFollowing, isNotFollowing }))]. *)
Definition follow_state : M (bool * bool) :=
  t <- call (PageEvaluate "follow state") ;;
  asks (fun env => (truth env (QuerySelector unfollow_testid) t,
                    truth env (QuerySelector follow_testid) t)).

(** [for (const selector of buttonSelectors)]: the first selector whose
    first match is visible. *)
Fixpoint first_visible (selectors : list string) : M (option string) :=
  match selectors with
  | [] => ret None
  | selector :: rest =>
      visible <- locator_isVisible selector ;;
      if visible then ret (Some selector) else first_visible rest
  end.

(** One round of the [while] loop; the state is
    [(actionButton, retryCount)]. *)
Definition search_round (selectors : list string) (s : option string * nat)
  : M ((option string * nat) * bool) :=
  let retryCount := snd s in
  try_catch
    (p <- get_page ;;
     match p with
     | None => throw_error "Page is null - browser context may have been closed"
     | Some _ =>
         call_ (PageWaitForAny selectors) ;;
         actionButton <- first_visible selectors ;;
         match actionButton with
         | Some b => ret ((Some b, retryCount), true)
         | None => ret ((None, retryCount), false)
         end
     end)
    (fun _ =>
       let retryCount := S retryCount in
       p <- get_page ;;
       if (retryCount <? maxRetries)%nat && (match p with Some _ => true | None => false end)
       then
         try_catch
           (human_pause 2000 4000 ;;
            page_reload ;;
            human_pause 2000 4000 ;;
            ret ((None, retryCount), false))
           (fun _ => ret ((None, retryCount), true))
       else ret ((None, retryCount), false)).

Definition search_button (fuel : nat) (selectors : list string) : M (option string) :=
  s <- while_loop fuel
         (fun s => (snd s <? maxRetries)%nat &&
                   (match fst s with None => true | Some _ => false end))
         (search_round selectors) (None, 0) ;;
  ret (fst s).

(** The inner [try] block, after the page exists. *)
Definition drive (fuel : nat) (f : Body.t) (task : Task) : M Http.Response :=
  let action := Body.action f in
  page_goto ("https://x.com/" ^^ Body.username f) ;;
  human_pause 2000 4000 ;;
  state <- follow_state ;;
  let (isFollowing, isNotFollowing) := state in
  if action_eqb action follow && isFollowing then
    Supabase.insert_log (task_id task) "success" "User is already being followed" ;;
    ret (Http.json_success true "User is already being followed" (Some (task_id task)))
  else if action_eqb action unfollow && isNotFollowing then
    Supabase.insert_log (task_id task) "success" "User is not being followed" ;;
    ret (Http.json_success true "User is not being followed" (Some (task_id task)))
  else
    actionButton <- search_button fuel (buttonSelectors action) ;;
    match actionButton with
    | None =>
        match action with
        | unfollow =>
            Supabase.insert_log (task_id task) "success" "User is not being followed" ;;
            Supabase.update_task_status (task_id task) completed ;;
            ret (Http.json_success true "User is not being followed" (Some (task_id task)))
        | follow =>
            throw_error ("Could not find " ^^ action_name action ^^
                         " button after multiple attempts")
        end
    | Some button =>
        _ <- randomDelay 50 150 ;;
        locator_click button ;;
        match action with
        | unfollow =>
            page_waitForSelector "[data-testid='confirmationSheetConfirm']" ;;
            locator_click "[data-testid='confirmationSheetConfirm']" ;;
            human_pause 1000 2000
        | follow => ret tt
        end ;;
        human_pause 2000 4000 ;;
        Supabase.insert_log (task_id task) "success"
          ("User " ^^ action_name action ^^ "ed successfully") ;;
        Supabase.update_task_status (task_id task) completed ;;
        ret (Http.json_success true ("User " ^^ action_name action ^^ "ed successfully")
               (Some (task_id task)))
    end.

(** The [catch] of the inner [try]: log, mark failed, rethrow. *)
Definition on_failure (f : Body.t) (task : Task) (error : Thrown) : M Http.Response :=
  Supabase.insert_log (task_id task) "failed"
    (message_or error ("Failed to " ^^ action_name (Body.action f) ^^ " user")) ;;
  Supabase.update_task_status (task_id task) failed ;;
  throw error.

(** The outer [try] block. *)
Definition handle (fuel : nat) (request : Http.Request) : M Http.Response :=
  match Http.session request with
  | None => ret (Http.json_error 401 "Unauthorized" None)
  | Some user_id =>
      body <- Http.request_json request ;;
      f <- Zod.parse followUserSchema body ;;
      found <- Supabase.select_account
                 (fun a => (account_id a =? Body.accountId f) &&
                           (account_user_id a =? user_id)) ;;
      match found with
      | (Some account, false) =>
          inserted <- Supabase.insert_task (taskData user_id f) ;;
          match inserted with
          | (Some task, false) =>
              setup <- PlaywrightConfig.createStealthSetup
                         (cookies account) (proxyConfig account) true ;;
              set_context (Some (fst setup)) ;;
              set_page (Some (snd setup)) ;;
              p <- get_page ;;
              match p with
              | None =>
                  Supabase.insert_log (task_id task) "failed" "Failed to create new page" ;;
                  Supabase.update_task_status (task_id task) failed ;;
                  throw_error "Failed to create new page"
              | Some _ =>
                  try_finally
                    (try_catch (drive fuel f task) (on_failure f task))
                    close_context_if_open
              end
          | _ =>
              ret (Http.json_error 500 "Failed to create task"
                     (Some (Http.Text "Could not create the automation task")))
          end
      | _ => ret (Http.json_error 404 "Account not found" None)
      end
  end.

Definition POST (fuel : nat) (request : Http.Request) : M Http.Response :=
  set_context None ;;
  set_page None ;;
  try_catch (handle fuel request)
    (fun error => ret (Http.internal_error error "Failed to process request")).

End TwitterFollow.

(* ===================================================================== *)
(** * The twitter like handler (second [POST] of
      src/app/api/twitter/follow/route.ts) *)
(* ===================================================================== *)

Module TwitterLike.

Module Body.
Record t : Type := {
  tweetUrl : string;
  accountId : string
}.
End Body.

Definition likeTweetSchema (env : Env) (body : Js.object) : list string + Body.t :=
  let tweetUrl :=
    Zod.refine (is_url env) "Invalid tweet URL" (Zod.str (Js.get body "tweetUrl")) in
  let accountId :=
    Zod.refine (is_uuid env) "Invalid account ID" (Zod.str (Js.get body "accountId")) in
  match tweetUrl, accountId with
  | inr u, inr a => inr {| Body.tweetUrl := u; Body.accountId := a |}
  | _, _ => inl (Zod.issues tweetUrl ++ Zod.issues accountId)
  end.

Definition proxyConfig (account : Account) : option Proxy.Config :=
  TwitterFollow.proxyConfig account.

Definition taskData (user_id : string) (f : Body.t) : Task :=
  {| task_id := 0;
     task_user_id := user_id;
     social_account_id := Body.accountId f;
     task_type := "like";
     action_data := [("tweet_url", Body.tweetUrl f); ("action_type", "like")];
     schedule_type := "once";
     status := active;
     next_run_at := now_iso |}.

Definition unlike_testid : string := "[data-testid='unlike']".
Definition like_testid : string := "[data-testid='like']".
Definition like_count : string :=
  "[data-testid='like'] span[data-testid='app-text-transition-container']".
Definition unlike_button : string := "button[aria-label*='Unlike']".
Definition unlike_role_button : string := "div[role='button'][aria-label*='Unlike']".

Definition maxRetries : nat := 3.

Definition opt_string_eqb (a b : option string) : bool :=
  match a, b with
  | Some x, Some y => x =? y
  | None, None => true
  | _, _ => false
  end.

(** The four signals of one verification round ([Promise.all]) and
    [verifications.some(result => result === true)]. *)
Definition verifications (initialLikeCount : option string) : M bool :=
  v1 <- locator_isVisible unlike_testid ;;
  v2 <- locator_isVisible unlike_button ;;
  v3 <- locator_isVisible unlike_role_button ;;
  v4 <- (if Js.truthy_opt initialLikeCount then
           catch_default
             (newCount <- locator_textContent like_count ;;
              ret (negb (opt_string_eqb newCount initialLikeCount)))
             false
         else ret false) ;;
  ret (v1 || v2 || v3 || v4).

(** One round of the verification loop; the state is
    [(likeVerified, retryCount)]. *)
Definition verify_round (initialLikeCount : option string) (s : bool * nat)
  : M ((bool * nat) * bool) :=
  let retryCount := snd s in
  likeVerified <- verifications initialLikeCount ;;
  if negb likeVerified && (retryCount <? maxRetries - 1)%nat then
    human_pause 1000 2000 ;;
    ret ((likeVerified, S retryCount), false)
  else ret ((likeVerified, retryCount), true).

Definition verify_like (initialLikeCount : option string) : M bool :=
  s <- while_loop maxRetries
         (fun s => (snd s <? maxRetries)%nat && negb (fst s))
         (verify_round initialLikeCount) (false, 0) ;;
  ret (fst s).

(** The inner [try] block. *)
Definition drive (f : Body.t) (task : Task) : M Http.Response :=
  page_goto (Body.tweetUrl f) ;;
  human_pause 2000 4000 ;;
  isAlreadyLiked <- catch_default (locator_isVisible unlike_testid) false ;;
  if isAlreadyLiked then
    Supabase.insert_log (task_id task) "success" "Post was already liked" ;;
    Supabase.update_task_status (task_id task) completed ;;
    ret (Http.json_success true "Post was already liked" (Some (task_id task)))
  else
    page_waitForSelector like_testid ;;
    initialLikeCount <- catch_default (locator_textContent like_count) None ;;
    locator_click like_testid ;;
    human_pause 2000 3000 ;;
    likeVerified <- verify_like initialLikeCount ;;
    if negb likeVerified then
      throw_error "Failed to verify like action after multiple attempts"
    else
      human_pause 1000 2000 ;;
      Supabase.insert_log (task_id task) "success" "Tweet liked successfully" ;;
      Supabase.update_task_status (task_id task) completed ;;
      ret (Http.json_success true "Tweet liked successfully" (Some (task_id task))).

Definition on_failure (task : Task) (error : Thrown) : M Http.Response :=
  Supabase.insert_log (task_id task) "failed" (message_or error "Failed to like tweet") ;;
  Supabase.update_task_status (task_id task) failed ;;
  throw error.

(** The outer [try] block. *)
Definition handle (request : Http.Request) : M Http.Response :=
  match Http.session request with
  | None => ret (Http.json_error 401 "Unauthorized" None)
  | Some user_id =>
      body <- Http.request_json request ;;
      f <- Zod.parse likeTweetSchema body ;;
      found <- Supabase.select_account
                 (fun a => (account_id a =? Body.accountId f) &&
                           (account_user_id a =? user_id)) ;;
      match found with
      | (Some account, false) =>
          inserted <- Supabase.insert_task (taskData user_id f) ;;
          match inserted with
          | (Some task, false) =>
              setup <- PlaywrightConfig.createStealthSetup
                         (cookies account) (proxyConfig account) true ;;
              set_context (Some (fst setup)) ;;
              set_page (Some (snd setup)) ;;
              p <- get_page ;;
              match p with
              | None =>
                  Supabase.insert_log (task_id task) "failed"
                    "Failed to create new page" ;;
                  Supabase.update_task_status (task_id task) failed ;;
                  throw_error "Failed to create new page"
              | Some _ => try_catch (drive f task) (on_failure task)
              end
          | _ =>
              ret (Http.json_error 500 "Failed to create task"
                     (Some (Http.Text "Could not create the automation task")))
          end
      | _ => ret (Http.json_error 404 "Account not found" None)
      end
  end.

Definition POST (request : Http.Request) : M Http.Response :=
  set_context None ;;
  set_page None ;;
  try_finally
    (try_catch (handle request)
       (fun error => ret (Http.internal_error error "Failed to like tweet")))
    close_context_if_open.

End TwitterLike.

(* ===================================================================== *)
(** * The twitter add-account handler
      (src/app/api/twitter/add-account/route.ts) *)
(* ===================================================================== *)

Module TwitterAddAccount.

(** The validated body.  [proxy_port] is the outcome of the transform:
    [None] for [undefined] and for [NaN]. *)
Module Body.
Record t : Type := {
  username : string;
  email : string;
  password : string;
  proxy_ip : option string;
  proxy_port : option Z;
  proxy_username : option string;
  proxy_password : option string;
  mail_password : option string;
  mfa_code : string
}.
End Body.

(** [parseInt] without a radix: leading white space, an optional sign,
    then the longest run of digits, hexadecimal ones after a [0x] or
    [0X] prefix and decimal ones otherwise; [None] is [NaN]. *)
Fixpoint digits (s : string) (acc : option Z) : option Z :=
  match s with
  | EmptyString => acc
  | String c rest =>
      let n := nat_of_ascii c in
      if ((48 <=? n) && (n <=? 57))%nat then
        digits rest
          (Some (10 * match acc with Some a => a | None => 0 end + Z.of_nat (n - 48))%Z)
      else acc
  end.

Definition hex_digit (c : ascii) : option Z :=
  let n := nat_of_ascii c in
  if ((48 <=? n) && (n <=? 57))%nat then Some (Z.of_nat (n - 48))
  else if ((97 <=? n) && (n <=? 102))%nat then Some (Z.of_nat (n - 87))
  else if ((65 <=? n) && (n <=? 70))%nat then Some (Z.of_nat (n - 55))
  else None.

Fixpoint hex_digits (s : string) (acc : option Z) : option Z :=
  match s with
  | EmptyString => acc
  | String c rest =>
      match hex_digit c with
      | Some d =>
          hex_digits rest (Some (16 * match acc with Some a => a | None => 0 end + d)%Z)
      | None => acc
      end
  end.

Definition unsigned (s : string) : option Z :=
  match s with
  | String "0" (String "x" rest) | String "0" (String "X" rest) => hex_digits rest None
  | other => digits other None
  end.

Definition parseInt (s : string) : option Z :=
  match Js.trim_start s with
  | String "-" rest => option_map Z.opp (unsigned rest)
  | String "+" rest => unsigned rest
  | other => unsigned other
  end.

(** [.transform((val) => (val ? parseInt(val) : undefined))]. *)
Definition port_transform (val : option string) : option Z :=
  match val with
  | Some v => if Js.truthy v then parseInt v else None
  | None => None
  end.

Definition addAccountSchema (env : Env) (body : Js.object) : list string + Body.t :=
  let username := Zod.min 1 "Username is required" (Zod.str (Js.get body "username")) in
  let email := Zod.refine (is_email env) "Invalid email" (Zod.str (Js.get body "email")) in
  let password := Zod.min 1 "Password is required" (Zod.str (Js.get body "password")) in
  let proxy_ip := Zod.optional_str (Js.get body "proxy_ip") in
  let proxy_port := Zod.optional_str (Js.get body "proxy_port") in
  let proxy_username := Zod.optional_str (Js.get body "proxy_username") in
  let proxy_password := Zod.optional_str (Js.get body "proxy_password") in
  let mail_password := Zod.optional_str (Js.get body "mail_password") in
  let mfa_code :=
    Zod.refine (fun val => negb (val =? "")) "MFA code is required"
      (Zod.str (Js.get body "mfa_code")) in
  match username, email, password, proxy_ip, proxy_port,
        proxy_username, proxy_password, mail_password, mfa_code with
  | inr u, inr e, inr p, inr ip, inr port, inr pu, inr pp, inr mp, inr mfa =>
      inr {| Body.username := u; Body.email := e; Body.password := p;
             Body.proxy_ip := ip; Body.proxy_port := port_transform port;
             Body.proxy_username := pu; Body.proxy_password := pp;
             Body.mail_password := mp; Body.mfa_code := mfa |}
  | _, _, _, _, _, _, _, _, _ =>
      inl (Zod.issues username ++ Zod.issues email ++ Zod.issues password ++
           Zod.issues proxy_ip ++ Zod.issues proxy_port ++
           Zod.issues proxy_username ++ Zod.issues proxy_password ++
           Zod.issues mail_password ++ Zod.issues mfa_code)
  end.

Definition proxyConfig (f : Body.t) : option Proxy.Config :=
  if Js.truthy_opt (Body.proxy_ip f) && Js.truthy_num (Body.proxy_port f) then
    match Body.proxy_ip f, Body.proxy_port f with
    | Some ip, Some port =>
        Some {| Proxy.type := Some "http";
                Proxy.server := ip;
                Proxy.port := Proxy.PortString (Js.number_to_string port);
                Proxy.username := Some (Js.or_else (Body.proxy_username f) "");
                Proxy.password := Some (Js.or_else (Body.proxy_password f) "") |}
    | _, _ => None
    end
  else None.

Definition username_input : string := "input[autocomplete='username']".
Definition ocf_input : string := "input[data-testid='ocfEnterTextTextInput']".
Definition password_input : string := "input[name='password']".
Definition next_button : string := "[role='button'] >> hasText=Next".
Definition verify_button : string := "[role='button'] >> hasText=Verify".
Definition login_button : string := "[role='button'] >> hasText=Log in".
Definition phone_email_title : string := "text=Enter your phone number or email address".
Definition verification_title : string := "text=Enter your verification code".

(** [input.fill(''); for (const char of s) input.type(char, { delay })]. *)
Definition type_humanlike (selector : string) (s : string) (min max : N) : M unit :=
  locator_fill selector ;;
  for_each (chars s)
    (fun char => _ <- randomDelay min max ;; call_ (TypeChar selector char)).

(** [for (const input of inputs)]: is one of the [n] matches visible? *)
Fixpoint any_visible (selector : string) (n : nat) : M bool :=
  match n with
  | O => ret false
  | S n' =>
      visible <- catch_default (locator_isVisible selector) false ;;
      if visible then ret true else any_visible selector n'
  end.

(** [for (const selector of [...])]: the first selector with a visible
    match. *)
Fixpoint find_email_input (selectors : list string) : M (option string) :=
  match selectors with
  | [] => ret None
  | selector :: rest =>
      n <- call_number (LocatorCount selector) ;;
      found <- any_visible selector n ;;
      if found then ret (Some selector) else find_email_input rest
  end.

(** [throw new Error(prefix + (error instanceof Error ? error.message :
    String(error)))]. *)
Definition rethrow_with {A} (prefix : string) (e : Thrown) : M A :=
  throw_error (prefix ^^ message_or e "[object]").

(** Step 2: the user name, and the e-mail address when asked for. *)
Definition step_username (f : Body.t) : M unit :=
  try_catch
    (page_waitForSelector username_input ;;
     type_humanlike username_input (Body.username f) 50 150 ;;
     human_pause 500 1000 ;;
     locator_click next_button ;;
     human_pause 1000 3000 ;;
     emailInputText <- locator_count ocf_input ;;
     phoneEmailTitle <- locator_count phone_email_title ;;
     if (0 <? emailInputText)%nat || (0 <? phoneEmailTitle)%nat then
       emailInput <- find_email_input
                       [ocf_input; "input[placeholder='Phone or email']";
                        "input[type='text']:visible"] ;;
       match emailInput with
       | Some input =>
           locator_click input ;;
           type_humanlike input (Body.email f) 50 150 ;;
           human_pause 500 1000 ;;
           locator_click next_button ;;
           human_pause 1000 3000
       | None => ret tt
       end
     else ret tt)
    (rethrow_with "Failed in username/email step: ").

(** Step 3: the password. *)
Definition step_password (f : Body.t) : M unit :=
  try_catch
    (page_waitForSelector password_input ;;
     type_humanlike password_input (Body.password f) 50 150 ;;
     human_pause 500 1000 ;;
     locator_click login_button ;;
     human_pause 2000 4000)
    (rethrow_with "Failed to enter password: ").

(** The button to press on the verification page: Next, else Verify. *)
Definition next_or_verify : M string :=
  nextVisible <- catch_default (locator_isVisible next_button) false ;;
  ret (if nextVisible then next_button else verify_button).

Definition mfa_required_response : Http.Response :=
  {| Http.status := 200; Http.success := Some false; Http.requiresMfa := Some true;
     Http.message :=
       Some "MFA verification required. Please provide your TOTP secret key.";
     Http.taskId := None; Http.error := None; Http.details := None;
     Http.account := None |}.

(** [await context.close()] on the local variable. *)
Definition close_context : M unit :=
  c <- get_context ;;
  match c with
  | Some context => context_close context
  | None => throw_error "Cannot read properties of null (reading 'close')"
  end.

(** Step 4: the one-time code.  [inl response] is the early [return]. *)
Definition step_mfa (f : Body.t) : M (Http.Response + unit) :=
  human_pause 2000 4000 ;;
  mfaInput <- locator_count ocf_input ;;
  mfaTitle <- locator_count verification_title ;;
  if (0 <? mfaInput)%nat || (0 <? mfaTitle)%nat then
    if negb (Js.truthy (Body.mfa_code f)) || (Body.mfa_code f =? "") then
      close_context ;;
      ret (inl mfa_required_response)
    else
      t <- gets clock ;;
      totpCode <- asks (fun env => generateTOTP env (Body.mfa_code f) t) ;;
      _ <- randomDelay 100 200 ;;
      locator_click ocf_input ;;
      type_humanlike ocf_input totpCode 100 200 ;;
      human_pause 800 1200 ;;
      verifyButton <- next_or_verify ;;
      visible <- catch_default (locator_isVisible verifyButton) false ;;
      if negb visible then throw_error "Could not find MFA verify button"
      else
        locator_click verifyButton ;;
        human_pause 5000 8000 ;;
        stillOnVerificationPage <- catch_default (locator_isVisible ocf_input) false ;;
        verificationText <- catch_default (locator_isVisible verification_title) false ;;
        (if stillOnVerificationPage || verificationText then
           nextButton <- next_or_verify ;;
           again <- catch_default (locator_isVisible nextButton) false ;;
           if again then locator_click nextButton ;; human_pause 5000 8000
           else ret tt
         else ret tt) ;;
        ret (inr tt)
  else ret (inr tt).

(** [s.replace(c, '')]: the first occurrence goes. *)
Fixpoint remove_first (c : ascii) (s : string) : string :=
  match s with
  | EmptyString => ""
  | String d rest => if (d =? c)%char then rest else String d (remove_first c rest)
  end.

(** The user name of the logged-in account, from the page. *)
Definition extract_username (f : Body.t) : M string :=
  try_catch
    (href <- catch_default
               (call_text (GetAttribute "[data-testid='AppTabBar_Profile_Link']" "href"))
               None ;;
     if Js.truthy_opt href then ret (remove_first "/" (Js.or_else href ""))
     else
       catch_default (locator_click "[data-testid='SideNav_AccountSwitcher_Button']") tt ;;
       human_pause 1000 2000 ;;
       accountUsername <-
         catch_default
           (locator_textContent "[data-testid='UserCell-contents'] [dir='ltr']") None ;;
       if Js.truthy_opt accountUsername
       then ret (remove_first "@" (Js.or_else accountUsername ""))
       else ret (Body.username f))
    (fun _ => ret (Body.username f)).

Definition maxRetries : nat := 3.

(** The state of the login check: [(loggedIn, retryCount, extractedUsername)]. *)
Record Login : Type := {
  loggedIn : bool;
  retryCount : nat;
  extractedUsername : string
}.

(** One round of the [while] loop of step 5. *)
Definition login_round (f : Body.t) (s : Login) : M (Login * bool) :=
  t <- gets clock ;;
  currentUrl <- asks (fun env => url env t) ;;
  homeTimeline <- catch_default (locator_isVisible "[data-testid='primaryColumn']") false ;;
  profileLink <-
    catch_default (locator_isVisible "[data-testid='AppTabBar_Profile_Link']") false ;;
  tweetButton <- catch_default (locator_isVisible "[data-testid='tweetButtonInline']") false ;;
  sideNavHome <-
    catch_default (locator_isVisible "[data-testid='AppTabBar_Home_Link']") false ;;
  if homeTimeline || profileLink || tweetButton || sideNavHome ||
     Js.includes "/home" currentUrl
  then
    name <- extract_username f ;;
    ret ({| loggedIn := true; retryCount := retryCount s; extractedUsername := name |},
         true)
  else
    loginForm <- catch_default (locator_isVisible username_input) false ;;
    confirmationPage <-
      catch_default (locator_isVisible "text=We sent you a confirmation code") false ;;
    securityPage <- catch_default (locator_isVisible "text=Confirm your identity") false ;;
    if loginForm then
      page_goto "https://x.com/home" ;;
      human_pause 5000 8000 ;;
      human_pause 3000 5000 ;;
      ret ({| loggedIn := false; retryCount := S (retryCount s);
              extractedUsername := extractedUsername s |}, false)
    else if confirmationPage || securityPage then
      ret ({| loggedIn := true; retryCount := retryCount s;
              extractedUsername := Body.username f |}, true)
    else
      human_pause 3000 5000 ;;
      ret ({| loggedIn := false; retryCount := S (retryCount s);
              extractedUsername := extractedUsername s |}, false).

Definition check_login (f : Body.t) : M Login :=
  while_loop maxRetries
    (fun s => negb (loggedIn s) && (retryCount s <? maxRetries)%nat)
    (login_round f)
    {| loggedIn := false; retryCount := 0; extractedUsername := "" |}.

(** The row written for the account. *)
Definition new_account (user_id : string) (f : Body.t) (s : Login)
    (cookiesString : string) : Account :=
  {| account_id := "";
     account_user_id := user_id;
     platform := "twitter";
     account_type := "manual";
     email := Body.email f;
     password := Body.password f;
     username := Js.or_else (Some (extractedUsername s)) (Body.username f);
     cookies := Some cookiesString;
     account_status := if loggedIn s then "active" else "pending";
     proxy_ip := Body.proxy_ip f;
     proxy_port := Body.proxy_port f;
     proxy_username := Body.proxy_username f;
     proxy_password := Body.proxy_password f;
     mail_password := Body.mail_password f;
     mfa_code := Some (Body.mfa_code f);
     proxy_last_used := None |}.

(** The update of a pending row: the listed columns change. *)
Definition updated_account (f : Body.t) (s : Login) (cookiesString : string)
    (old : Account) : Account :=
  {| account_id := account_id old;
     account_user_id := account_user_id old;
     platform := platform old;
     account_type := account_type old;
     email := email old;
     password := password old;
     username := Js.or_else (Some (extractedUsername s)) (Body.username f);
     cookies := Some cookiesString;
     account_status := if loggedIn s then "active" else "pending";
     proxy_ip := Body.proxy_ip f;
     proxy_port := Body.proxy_port f;
     proxy_username := Body.proxy_username f;
     proxy_password := Body.proxy_password f;
     mail_password := Body.mail_password f;
     mfa_code := Some (Body.mfa_code f);
     proxy_last_used := proxy_last_used old |}.

Definition with_account_id (id : string) (a : Account) : Account :=
  {| account_id := id; account_user_id := account_user_id a; platform := platform a;
     account_type := account_type a; email := email a; password := password a;
     username := username a; cookies := cookies a; account_status := account_status a;
     proxy_ip := proxy_ip a; proxy_port := proxy_port a;
     proxy_username := proxy_username a; proxy_password := proxy_password a;
     mail_password := mail_password a; mfa_code := mfa_code a;
     proxy_last_used := proxy_last_used a |}.

(** [update(...).eq('id', id).select().single()]: [(data, error)]. *)
Definition update_pending (id : string) (change : Account -> Account)
  : M (option Account * bool) :=
  err <- Supabase.round_trip (DbUpdate "social_accounts") ;;
  if err then ret (None, true)
  else
    rows <- gets (fun w => filter (fun a => account_id a =? id) (accounts w)) ;;
    modify (fun w =>
      with_accounts
        (map (fun a => if account_id a =? id then change a else a) (accounts w)) w) ;;
    ret (match Supabase.single (map change rows) with
         | Some a => (Some a, false)
         | None => (None, true)
         end).

(** [insert([...]).select().single()]: [(data, error)]; the store gives
    the row its identifier. *)
Definition insert_account (row : Account) : M (option Account * bool) :=
  err <- Supabase.round_trip (DbInsert "social_accounts") ;;
  if err then ret (None, true)
  else
    id <- new_handle ;;
    let stored := with_account_id (Js.number_to_string (Z.of_nat id)) row in
    modify (fun w => with_accounts (accounts w ++ [stored]) w) ;;
    ret (Some stored, false).

Definition account_added_response (s : Login) (account : option Account) : Http.Response :=
  {| Http.status := 200; Http.success := Some true; Http.requiresMfa := None;
     Http.message :=
       Some (if loggedIn s then "Account added successfully"
             else "Account added with pending status - may require manual verification");
     Http.taskId := None; Http.error := None; Http.details := None;
     Http.account := account |}.

(** The last [try] block: store the account and answer. *)
Definition store_account (user_id : string) (f : Body.t)
    (existingAccount : option Account) (s : Login) (cookiesString : string)
  : M Http.Response :=
  try_catch
    (stored <-
       match existingAccount with
       | Some old =>
           if account_status old =? "pending"
           then update_pending (account_id old) (updated_account f s cookiesString)
           else insert_account (new_account user_id f s cookiesString)
       | None => insert_account (new_account user_id f s cookiesString)
       end ;;
     if snd stored then throw_error "Failed to store account in database"
     else ret (account_added_response s (fst stored)))
    (rethrow_with "Failed to store account in database: ").

(** The inner [try] block of [POST], after the page exists. *)
Definition drive (user_id : string) (f : Body.t) (existingAccount : option Account)
  : M Http.Response :=
  page_goto "https://x.com/i/flow/login" ;;
  human_pause 1000 3000 ;;
  step_username f ;;
  step_password f ;;
  mfa <- step_mfa f ;;
  match mfa with
  | inl response => ret response
  | inr _ =>
      s <- check_login f ;;
      c <- get_context ;;
      match c with
      | None => throw_error "Cannot read properties of null (reading 'cookies')"
      | Some _ =>
          t <- call ContextCookies ;;
          cookiesString <- asks (fun env => JSON_stringify env (jar env t)) ;;
          store_account user_id f existingAccount s cookiesString
      end
  end.

(** The handler after validation: everything that follows
    [addAccountSchema.parse(body)] inside the outer [try]. *)
Definition add_account (user_id : string) (f : Body.t) : M Http.Response :=
  setup <- PlaywrightConfig.createStealthSetup None (proxyConfig f) false ;;
  set_context (Some (fst setup)) ;;
  set_page (Some (snd setup)) ;;
  found <- Supabase.select_account
             (fun a => (email a =? Body.email f) && (platform a =? "twitter")) ;;
  let existingAccount := fst found in
  if match existingAccount with
     | Some a => account_status a =? "active"
     | None => false
     end
  then ret (Http.json_success false "Twitter account already exists and is active" None)
  else
    p <- get_page ;;
    match p with
    | None => throw_error "Failed to create new page"
    | Some _ => try_catch (drive user_id f existingAccount) (fun error => throw error)
    end.

(** The outer [try] block. *)
Definition handle (request : Http.Request) : M Http.Response :=
  match Http.session request with
  | None => ret (Http.json_error 401 "Unauthorized" None)
  | Some user_id =>
      body <- Http.request_json request ;;
      f <- Zod.parse addAccountSchema body ;;
      add_account user_id f
  end.

Definition POST (request : Http.Request) : M Http.Response :=
  set_context None ;;
  set_page None ;;
  try_finally
    (try_catch (handle request)
       (fun error => ret (Http.internal_error error "Failed to add account")))
    close_context_if_open.

End TwitterAddAccount.

(* ===================================================================== *)
(** * The facebook create-post handler ([POST] and [executePost]) *)
(* ===================================================================== *)

Module FacebookCreatePost.

(** A multipart request: the user of the session, the text fields of the
    form ([None] when the body is not form data) and the name of the
    uploaded file, if any. *)
Record Request : Type := {
  session : option string;
  formData : option (list (string * string));
  media : option string
}.

(** [formData.get(key)]: [null] when the field is absent. *)
Fixpoint form_get (form : list (string * string)) (key : string) : option string :=
  match form with
  | [] => None
  | (k, v) :: rest => if k =? key then Some v else form_get rest key
  end.

Definition task_content (task : Task) : string :=
  Js.or_else (form_get (action_data task) "content") "".

Definition is_now (scheduleType : option string) : bool :=
  match scheduleType with Some s => s =? "now" | None => false end.

Definition taskData (user_id accountId content : string) (mediaPath mediaType : option string)
    (scheduleType scheduleTime : option string) : Task :=
  {| task_id := 0;
     task_user_id := user_id;
     social_account_id := accountId;
     task_type := "post";
     action_data := [("content", content);
                     ("media_path", Js.or_else mediaPath "");
                     ("media_type", Js.or_else mediaType "")];
     schedule_type := if is_now scheduleType then "once" else "scheduled";
     status := active;
     next_run_at := if is_now scheduleType then now_iso else Js.or_else scheduleTime "" |}.

(** The proxy resolver of [executePost]: as in the twitter handlers, with
    the port printed. *)
Definition proxyConfig (account : Account) : option Proxy.Config :=
  if Js.truthy_opt (proxy_ip account) && Js.truthy_num (proxy_port account) then
    match proxy_ip account, proxy_port account with
    | Some ip, Some port =>
        Some {| Proxy.type := Some "http";
                Proxy.server := ip;
                Proxy.port := Proxy.PortString (Js.number_to_string port);
                Proxy.username := Some (Js.or_else (proxy_username account) "");
                Proxy.password := Some (Js.or_else (proxy_password account) "") |}
    | _, _ => None
    end
  else None.

Definition with_proxy_last_used (t : nat) (a : Account) : Account :=
  {| account_id := account_id a; account_user_id := account_user_id a;
     platform := platform a; account_type := account_type a; email := email a;
     password := password a; username := username a; cookies := cookies a;
     account_status := account_status a; proxy_ip := proxy_ip a;
     proxy_port := proxy_port a; proxy_username := proxy_username a;
     proxy_password := proxy_password a; mail_password := mail_password a;
     mfa_code := mfa_code a; proxy_last_used := Some t |}.

Definition post_button : string :=
  "div[role='button']:has-text('What's on your mind?')".
Definition text_area : string :=
  "div.xzsf02u.x1a2a7pz.x1n2onr6.x14wi4xw.x9f619.x1lliihq.x5yr21d.xh8yej3.notranslate[contenteditable='true'][role='textbox'][data-lexical-editor='true']".

(** The two debugging walks over [page.$$(selector)]: the text of every
    element is read, and some attributes when the text matches. *)
Definition inspect_elements (selector needle : string) (attributes : list string)
  : M unit :=
  n <- call_number (LocatorCount selector) ;;
  for_each (seq 0 n)
    (fun _ =>
       t <- call_text (TextContent selector) ;;
       if Js.truthy_opt t && Js.includes needle (Js.or_else t "") then
         for_each attributes
           (fun a => _ <- call_text (GetAttribute selector a) ;; ret tt)
       else ret tt).

(** The selectors raced to see the new post. *)
Definition post_selectors (content : string) : list string :=
  ["div[data-pagelet='FeedUnit_0']:has-text('" ^^ content ^^ "')";
   "div[role='article']:has-text('" ^^ content ^^ "')";
   "div[data-ad-preview='message']:has-text('" ^^ content ^^ "')"].

(** The [try] block of [executePost] from the point where the account is
    known. *)
Definition post_as (account : Account) (task : Task) (social_username : string) : M unit :=
  let proxy := proxyConfig account in
  setup <- PlaywrightConfig.createStealthSetup (cookies account) proxy true ;;
  set_context (Some (fst setup)) ;;
  set_page (Some (snd setup)) ;;
  p <- get_page ;;
  match p with
  | None => throw_error "Failed to create new page"
  | Some _ =>
      match proxy with
      | Some _ =>
          t <- gets clock ;;
          Supabase.update_account (social_account_id task) (with_proxy_last_used t)
      | None => ret tt
      end ;;
      page_goto "https://www.facebook.com/" ;;
      page_waitForTimeout 3000 ;;
      page_goto ("https://www.facebook.com/" ^^ social_username) ;;
      page_waitForTimeout 5000 ;;
      inspect_elements "div" "What's on your mind" ["role"; "aria-label"; "class"] ;;
      page_waitForSelector post_button ;;
      locator_click post_button ;;
      page_waitForTimeout 2000 ;;
      inspect_elements "div[role='dialog'] *" "Post" ["role"; "class"] ;;
      page_waitForSelector text_area ;;
      locator_click text_area ;;
      call_ (TypeText text_area (task_content task)) ;;
      typedContent <- call_text (PageEvaluate "typed content") ;;
      if negb (Js.truthy_opt typedContent) ||
         negb (Js.trim (Js.or_else typedContent "") =? Js.trim (task_content task))
      then throw_error "Failed to type content into text area"
      else
        page_waitForTimeout 2000 ;;
        page_waitForTimeout 2000 ;;
        clicked <- call_bool (PageEvaluate "click Post") ;;
        if negb clicked then throw_error "Could not find or click Post button"
        else
          call_ PageWaitForLoadState ;;
          page_waitForTimeout 3000 ;;
          call_ (PageWaitForAny (post_selectors (task_content task))) ;;
          Supabase.insert_log (task_id task) "success" "Post created successfully" ;;
          Supabase.update_task_status (task_id task) completed
  end.

(** The [try] block of [executePost]. *)
Definition run_post (task : Task) (social_username : string) : M unit :=
  found <- Supabase.select_account (fun a => account_id a =? social_account_id task) ;;
  match found with
  | (Some account, false) => post_as account task social_username
  | _ => throw_error "Account not found"
  end.

(** The [finally] block of [executePost]. *)
Definition release : M unit :=
  p <- get_page ;;
  match p with Some page => page_close page | None => ret tt end ;;
  close_context_if_open ;;
  PlaywrightConfig.cleanup.

(** [executePost]: run, log and rethrow on failure, and clean up. *)
Definition executePost (task : Task) (social_username : string) : M unit :=
  set_context None ;;
  set_page None ;;
  try_finally
    (try_catch
       (run_post task social_username)
       (fun error =>
          Supabase.insert_log (task_id task) "failed" (message_or error "Unknown error") ;;
          Supabase.update_task_status (task_id task) failed ;;
          throw error))
    release.

(** The response of a request that went through. *)
Definition created_response (scheduleType : option string) (task : Task) : Http.Response :=
  {| Http.status := 200; Http.success := None; Http.requiresMfa := None;
     Http.message := Some (if is_now scheduleType then "Post created successfully"
                           else "Post scheduled successfully");
     Http.taskId := Some (task_id task); Http.error := None; Http.details := None;
     Http.account := None |}.

Definition POST (request : Request) : M Http.Response :=
  try_catch
    (match session request with
     | None => ret (Http.json_error 401 "Unauthorized" None)
     | Some user_id =>
         match formData request with
         | None => throw_error "Failed to parse body as FormData"
         | Some form =>
             let accountId := form_get form "accountId" in
             let content := form_get form "content" in
             let scheduleType := form_get form "scheduleType" in
             let scheduleTime := form_get form "scheduleTime" in
             let mediaType := form_get form "mediaType" in
             if negb (Js.truthy_opt accountId) || negb (Js.truthy_opt content) then
               ret (Http.json_error 400 "Missing required fields" None)
             else
               found <- Supabase.select_account
                          (fun a => (account_id a =? Js.or_else accountId "") &&
                                    (account_user_id a =? user_id)) ;;
               match found with
               | (Some account, false) =>
                   mediaPath <-
                     match media request with
                     | Some name =>
                         call_ WriteFile ;;
                         ret (Some ("uploads/" ^^ name))
                     | None => ret None
                     end ;;
                   inserted <- Supabase.insert_task
                                 (taskData user_id (Js.or_else accountId "")
                                    (Js.or_else content "") mediaPath mediaType
                                    scheduleType scheduleTime) ;;
                   match inserted with
                   | (Some task, false) =>
                       social <- Supabase.select_account
                                   (fun a => account_id a =? Js.or_else accountId "") ;;
                       match social with
                       | (Some socialAccount, false) =>
                           (if is_now scheduleType then
                              try_catch
                                (executePost task (username socialAccount))
                                (fun error =>
                                   Supabase.insert_log (task_id task) "failed"
                                     (message_or error "Unknown error"))
                            else ret tt) ;;
                           ret (created_response scheduleType task)
                       | _ =>
                           ret (Http.json_error 500 "Failed to fetch social account data"
                                  None)
                       end
                   | _ =>
                       ret (Http.json_error 500 "Failed to create task"
                              (Some (Http.Text "Could not create the automation task")))
                   end
               | _ => ret (Http.json_error 404 "Account not found" None)
               end
         end
     end)
    (fun _ => ret (Http.json_error 500 "Internal server error" None)).

End FacebookCreatePost.

(* ===================================================================== *)
(** * The vocabulary of the properties *)
(* ===================================================================== *)

(** The events a handler body may produce freely: everything but the
    closing of a context or of a browser. *)
Definition benign (e : Event) : bool :=
  match e with
  | ContextClosed _ | BrowserClosed _ => false
  | _ => true
  end.

(** How often context [c] is closed in a run of events. *)
Definition closes (c : nat) (evs : list Event) : nat :=
  length (filter (fun e => match e with ContextClosed c' => (c' =? c)%nat | _ => false end) evs).

(** The browsers closed in a run of events. *)
Definition browser_closes (evs : list Event) : list nat :=
  flat_map (fun e => match e with BrowserClosed b => [b] | _ => [] end) evs.

(** The browsers launched in a run of events. *)
Definition launches (evs : list Event) : list nat :=
  flat_map (fun e => match e with Launched b _ => [b] | _ => [] end) evs.

(** The events that a run from [w] to [w'] added. *)
Definition events_since (w w' : World) : list Event :=
  skipn (length (trace w)) (trace w').

(** [extends w w' evs]: the run from [w] to [w'] added exactly [evs]. *)
Definition extends (w w' : World) (evs : list Event) : Prop :=
  trace w' = trace w ++ evs.

(** The run from [w] to [w'] closed the context held in the handler's
    [context] variable exactly once, and no other context. *)
Definition context_closed_once (w w' : World) : Prop :=
  extends w w' (events_since w w') /\
  forall c,
    closes c (events_since w w') =
    match context (locals w') with
    | Some c' => if (c =? c')%nat then 1 else 0
    | None => 0
    end.

(** A step that closes nothing and leaves the global browser alone. *)
Definition good (w w' : World) : Prop :=
  globalBrowser w' = globalBrowser w /\
  exists evs, extends w w' evs /\ forallb benign evs = true.

(** A good step that also leaves the local variables of the handler alone. *)
Definition quiet (w w' : World) : Prop :=
  good w w' /\ locals w' = locals w.

(** A step that leaves the tables and the local variables alone. *)
Definition same_store (w w' : World) : Prop :=
  accounts w' = accounts w /\ tasks w' = tasks w /\ task_logs w' = task_logs w /\
  locals w' = locals w.

(** [sound R hang_ok Q m]: in every environment and from every world, [m]
    changes the world within [R], a value it returns satisfies [Q], and it
    can only run out of fuel if [hang_ok]. *)
Definition sound (R : World -> World -> Prop) (hang_ok : Prop) {A} (Q : A -> Prop)
    (m : M A) : Prop :=
  forall env w,
    R w (snd (m env w)) /\
    match fst (m env w) with
    | Ok a => Q a
    | Throw _ => True
    | Hang => hang_ok
    end.

(** [steady R env Q m]: in the environment [env], [m] returns a value
    satisfying [Q] and changes the world within [R]. *)
Definition steady (R : World -> World -> Prop) (env : Env) {A} (Q : A -> Prop)
    (m : M A) : Prop :=
  forall w,
    R w (snd (m env w)) /\
    match fst (m env w) with
    | Ok a => Q a
    | _ => False
    end.

(** [rejects R env msg m]: in the environment [env], [m] throws an error
    with the message [msg] and changes the world within [R]. *)
Definition rejects (R : World -> World -> Prop) (env : Env) (msg : string) {A}
    (m : M A) : Prop :=
  forall w,
    R w (snd (m env w)) /\ fst (m env w) = Throw (ErrorObj msg).

(** A step that leaves the tasks and their log alone. *)
Definition same_logs (w w' : World) : Prop :=
  tasks w' = tasks w /\ task_logs w' = task_logs w.

Definition any {A} : A -> Prop := fun _ => True.

(** An environment in which no call rejects. *)
Definition reliable (env : Env) : Prop := forall op t, fails env op t = None.

(** The calls that close a page, a context or a browser. *)
Definition closing (op : Op) : bool :=
  match op with
  | PageClose | ContextClose | BrowserClose => true
  | _ => false
  end.

(** An environment in which closing does not reject. *)
Definition closes_cleanly (env : Env) : Prop :=
  forall op t, closing op = true -> fails env op t = None.

(** A response that does not ask the caller for a one-time-code secret. *)
Definition no_mfa_prompt (r : Http.Response) : Prop := Http.requiresMfa r <> Some true.

(** The run from [w] to [w'] closed the handler's context once and no
    browser. *)
Definition closed_ok (w w' : World) : Prop :=
  context_closed_once w w' /\ browser_closes (events_since w w') = [].

(** [scoped m]: where closing does not reject and started with an empty
    [context] variable, [m] either does not come back or closes the
    context it took once, and no browser. *)
Definition scoped {A} (m : M A) : Prop :=
  forall env w,
    closes_cleanly env ->
    context (locals w) = None ->
    fst (m env w) <> Hang -> closed_ok w (snd (m env w)).

(** The steps of the click-and-verify protocol of a driver: waiting for a
    control, looking whether it is visible, clicking, reloading. *)
Definition protocol_step (e : Event) : bool :=
  match e with
  | Called (Click _) | Called (IsVisible _) | Called (PageWaitForAny _)
  | Called (PageWaitForSelector _) | Called PageReload => true
  | _ => false
  end.

(** A step that makes no protocol step. *)
Definition passive (w w' : World) : Prop :=
  exists evs, extends w w' evs /\ existsb protocol_step evs = false.

(** A tweet page on which none of the signals of a like ever shows: no
    Unlike control is visible and the like counter reads [count] at all
    times. *)
Definition never_verified (env : Env) (count : option string) : Prop :=
  (forall t, truth env (IsVisible TwitterLike.unlike_testid) t = false) /\
  (forall t, truth env (IsVisible TwitterLike.unlike_button) t = false) /\
  (forall t, truth env (IsVisible TwitterLike.unlike_role_button) t = false) /\
  (forall t, text env (TextContent TwitterLike.like_count) t = count).

(** The pairs [(browser, context)] of the contexts opened in a run of
    events. *)
Definition contexts_opened (evs : list Event) : list (nat * nat) :=
  flat_map (fun e => match e with ContextOpened b c _ => [(b, c)] | _ => [] end) evs.

(** A step that launches no browser, opens no context and leaves the
    global browser alone. *)
Definition no_launch (w w' : World) : Prop :=
  globalBrowser w' = globalBrowser w /\
  exists evs, extends w w' evs /\ launches evs = [] /\ contexts_opened evs = [].

(** The record that the [split(';')] fallback hard-codes around a name and
    a value. *)
Definition facebook_cookie (c : Cookie) : Prop :=
  domain c = ".facebook.com" /\ path c = "/" /\ secure c = true /\
  httpOnly c = true /\ sameSite c = "Lax".

(* ===================================================================== *)
(** * Concrete requests, environments and worlds *)
(* ===================================================================== *)

Module Scenario.

Definition account_uuid : string := "6f1c0d0e-0000-4000-8000-000000000001".

(** A page on which nothing is found and no call rejects.  Text that
    starts with a bracket stands for a JSON array. *)
Definition calm : Env :=
  {| fails := fun _ _ => None;
     truth := fun _ _ => false;
     number := fun _ _ => 0;
     text := fun _ _ => None;
     url := fun _ => "https://x.com/i/flow/login";
     jar := fun _ => [];
     random := fun _ => 0;
     JSON_parse := fun s => if String.prefix "[" s then Some (JsonCookies []) else None;
     JSON_stringify := fun _ => "[]";
     is_email := Js.includes "@";
     is_uuid := fun s => (String.length s =? 36)%nat;
     is_url := String.prefix "https://";
     generateTOTP := fun _ _ => "000000";
     zod_message := fun issues => "[" ^^ Js.join ", " issues ^^ "]" |}.

(** The calm page, except that the profile shows the Following button. *)
Definition following : Env :=
  {| fails := fails calm;
     truth := fun op _ =>
       match op with
       | QuerySelector s => s =? TwitterFollow.unfollow_testid
       | _ => false
       end;
     number := number calm; text := text calm; url := url calm; jar := jar calm;
     random := random calm; JSON_parse := JSON_parse calm;
     JSON_stringify := JSON_stringify calm; is_email := is_email calm;
     is_uuid := is_uuid calm; is_url := is_url calm; generateTOTP := generateTOTP calm;
     zod_message := zod_message calm |}.


(** The calm page, except that the context cannot open a page. *)
Definition without_pages : Env :=
  {| fails := fun op _ =>
       match op with
       | ContextNewPage => Some "Target page, context or browser has been closed"
       | _ => None
       end;
     truth := truth calm; number := number calm;
     text := text calm; url := url calm; jar := jar calm;
     random := random calm; JSON_parse := JSON_parse calm;
     JSON_stringify := JSON_stringify calm; is_email := is_email calm;
     is_uuid := is_uuid calm; is_url := is_url calm; generateTOTP := generateTOTP calm;
     zod_message := zod_message calm |}.

(** The calm page, except that closing the page rejects. *)
Definition stuck_page : Env :=
  {| fails := fun op _ =>
       match op with
       | PageClose => Some "Protocol error (Target.closeTarget)"
       | _ => None
       end;
     truth := truth calm; number := number calm;
     text := text calm; url := url calm; jar := jar calm;
     random := random calm; JSON_parse := JSON_parse calm;
     JSON_stringify := JSON_stringify calm; is_email := is_email calm;
     is_uuid := is_uuid calm; is_url := is_url calm; generateTOTP := generateTOTP calm;
     zod_message := zod_message calm |}.

(** A twitter account with a cookie-string session and a proxy. *)
Definition twitter_account : Account :=
  {| account_id := account_uuid;
     account_user_id := "user-1";
     platform := "twitter";
     account_type := "manual";
     email := "me@example.com";
     password := "secret";
     username := "me";
     cookies := Some "auth_token=abc; ct0=xyz";
     account_status := "active";
     proxy_ip := Some "10.0.0.5";
     proxy_port := Some 8080%Z;
     proxy_username := Some "u";
     proxy_password := Some "p";
     mail_password := None;
     mfa_code := None;
     proxy_last_used := None |}.

Definition no_locals : Locals := {| context := None; page := None |}.

(** The store holds the one account; nothing has happened yet. *)
Definition start : World :=
  {| clock := 0; fresh := 0; globalBrowser := None; locals := no_locals;
     accounts := [twitter_account]; tasks := []; task_logs := []; trace := [] |}.

(** The same world after something started the global browser. *)
Definition with_global_browser : World :=
  snd (PlaywrightConfig.initGlobalBrowser calm start).

Definition follow_fields : TwitterFollow.Body.t :=
  {| TwitterFollow.Body.username := "rihanna";
     TwitterFollow.Body.accountId := account_uuid;
     TwitterFollow.Body.action := TwitterFollow.follow |}.

Definition like_fields : TwitterLike.Body.t :=
  {| TwitterLike.Body.tweetUrl := "https://x.com/u/status/123";
     TwitterLike.Body.accountId := account_uuid |}.

Definition follow_request : Http.Request :=
  {| Http.session := Some "user-1";
     Http.body := Some [("username", Js.Str "rihanna");
                        ("accountId", Js.Str account_uuid);
                        ("action", Js.Str "follow")] |}.

Definition like_request : Http.Request :=
  {| Http.session := Some "user-1";
     Http.body := Some [("tweetUrl", Js.Str "https://x.com/u/status/123");
                        ("accountId", Js.Str account_uuid)] |}.

Definition post_request : FacebookCreatePost.Request :=
  {| FacebookCreatePost.session := Some "user-1";
     FacebookCreatePost.formData :=
       Some [("accountId", account_uuid); ("content", "hello");
             ("scheduleType", "now")];
     FacebookCreatePost.media := None |}.

(** A task row as [executePost] receives it. *)
Definition post_task : Task :=
  Supabase.with_task_id 7
    (FacebookCreatePost.taskData "user-1" account_uuid "hello" None None (Some "now") None).

Definition add_account_request (mfa : Js.value) : Http.Request :=
  {| Http.session := Some "user-1";
     Http.body := Some [("username", Js.Str "newcomer");
                        ("email", Js.Str "new@example.com");
                        ("password", Js.Str "secret");
                        ("mfa_code", mfa)] |}.

End Scenario.

(* ===================================================================== *)
(** * The other handlers of the routes *)
(* ===================================================================== *)

(** [.max(n, msg)] of zod, next to [Zod.min]. *)
Definition zod_max (n : nat) (msg : string) (p : Zod.Parsed string) : Zod.Parsed string :=
  Zod.refine (fun s => (String.length s <=? n)%nat) msg p.

(** [for (const char of text) await page.keyboard.type(char, { delay:
    randomDelay(30, 100) })]. *)
Definition keyboard_type_humanlike (text : string) : M unit :=
  for_each (chars text)
    (fun char => _ <- randomDelay 30 100 ;; call_ (KeyboardType char)).

(** [update({ status }).eq('id', id)] on [social_accounts]. *)
Definition with_account_status (s : string) (a : Account) : Account :=
  {| account_id := account_id a; account_user_id := account_user_id a;
     platform := platform a; account_type := account_type a; email := email a;
     password := password a; username := username a; cookies := cookies a;
     account_status := s; proxy_ip := proxy_ip a;
     proxy_port := proxy_port a; proxy_username := proxy_username a;
     proxy_password := proxy_password a; mail_password := mail_password a;
     mfa_code := mfa_code a; proxy_last_used := proxy_last_used a |}.

(* ===================================================================== *)
(** * The twitter comment handler (third [POST] of
      src/app/api/twitter/follow/route.ts) *)
(* ===================================================================== *)

Module TwitterComment.

Inductive ScheduleType : Type := once | repeating | interval.

Definition schedule_name (s : ScheduleType) : string :=
  match s with
  | once => "once"
  | repeating => "repeating"
  | interval => "interval"
  end.

(** [scheduleType === 'once']. *)
Definition is_once (s : ScheduleType) : bool :=
  match s with once => true | _ => false end.

(** A member of a JSON body that may be an object. *)
Inductive Member : Type :=
| Scalar (v : Js.value)
| Object (o : Js.object).

(** A request: the user of the session and the JSON body, whose member
    [scheduleData] is given next to the scalar members. *)
Record Request : Type := {
  session : option string;
  body : option (Js.object * Member)
}.

(** The validated [scheduleData]. *)
Record ScheduleData : Type := {
  every : option Z;               (* [interval] *)
  repeatType : option string;
  repeatTime : option string
}.

(** The validated body. *)
Module Body.
Record t : Type := {
  comment : string;
  targetTweet : string;
  accountId : string;
  scheduleType : ScheduleType;
  scheduleData : ScheduleData
}.
End Body.

(** [z.enum(['once', 'repeating', 'interval'])]. *)
Definition scheduleType_enum (v : Js.value) : Zod.Parsed ScheduleType :=
  match v with
  | Js.Undefined => inl "Required"
  | Js.Str s =>
      if s =? "once" then inr once
      else if s =? "repeating" then inr repeating
      else if s =? "interval" then inr interval
      else inl "Invalid enum value"
  | _ => inl "Invalid enum value"
  end.

(** [z.number().min(1).optional()]. *)
Definition interval_number (v : Js.value) : Zod.Parsed (option Z) :=
  match v with
  | Js.Undefined => inr None
  | Js.Number n =>
      if (1 <=? n)%Z then inr (Some n)
      else inl "Number must be greater than or equal to 1"
  | _ => inl "Expected number"
  end.

(** [z.enum(['daily', 'weekly']).optional()]. *)
Definition repeatType_enum (v : Js.value) : Zod.Parsed (option string) :=
  match v with
  | Js.Undefined => inr None
  | Js.Str s =>
      if (s =? "daily") || (s =? "weekly") then inr (Some s)
      else inl "Invalid enum value"
  | _ => inl "Invalid enum value"
  end.

(** The schema of the member [scheduleData]. *)
Definition scheduleData_object (m : Member) : list string + ScheduleData :=
  match m with
  | Object o =>
      let every := interval_number (Js.get o "interval") in
      let repeatType := repeatType_enum (Js.get o "repeatType") in
      let repeatTime := Zod.optional_str (Js.get o "repeatTime") in
      match every, repeatType, repeatTime with
      | inr i, inr r, inr t =>
          inr {| every := i; repeatType := r; repeatTime := t |}
      | _, _, _ =>
          inl (Zod.issues every ++ Zod.issues repeatType ++ Zod.issues repeatTime)
      end
  | Scalar Js.Undefined => inl ["Required"]
  | Scalar _ => inl ["Expected object"]
  end.

Definition createCommentSchema (scheduleData : Member) (env : Env) (body : Js.object)
  : list string + Body.t :=
  let comment :=
    zod_max 280 "Comment cannot exceed 280 characters"
      (Zod.min 1 "Comment is required" (Zod.str (Js.get body "comment"))) in
  let targetTweet :=
    Zod.refine (is_url env) "Invalid tweet URL" (Zod.str (Js.get body "targetTweet")) in
  let accountId :=
    Zod.refine (is_uuid env) "Invalid account ID" (Zod.str (Js.get body "accountId")) in
  let scheduleType := scheduleType_enum (Js.get body "scheduleType") in
  let data := scheduleData_object scheduleData in
  match comment, targetTweet, accountId, scheduleType, data with
  | inr c, inr t, inr a, inr s, inr d =>
      inr {| Body.comment := c; Body.targetTweet := t; Body.accountId := a;
             Body.scheduleType := s; Body.scheduleData := d |}
  | _, _, _, _, _ =>
      inl (Zod.issues comment ++ Zod.issues targetTweet ++ Zod.issues accountId ++
           Zod.issues scheduleType ++ match data with inl l => l | inr _ => [] end)
  end.

(** [await request.json()]. *)
Definition request_json (request : Request) : M (Js.object * Member) :=
  match body request with
  | Some b => ret b
  | None => throw_error "Unexpected end of JSON input"
  end.

Definition proxyConfig (account : Account) : option Proxy.Config :=
  TwitterFollow.proxyConfig account.

(** The row to insert; its column [schedule_data], which no handler
    reads, is not part of [Task]. *)
Definition taskData (user_id : string) (f : Body.t) : Task :=
  {| task_id := 0;
     task_user_id := user_id;
     social_account_id := Body.accountId f;
     task_type := "comment";
     action_data := [("comment", Body.comment f); ("targetTweet", Body.targetTweet f)];
     schedule_type := schedule_name (Body.scheduleType f);
     status := active;
     next_run_at := now_iso |}.

Definition reply_button : string := "div[class*='r-xoduu5'] svg[viewBox='0 0 24 24']".
Definition reply_textarea : string := "div[data-offset-key]".
Definition tweet_button : string := "button[data-testid='tweetButton']".

(** The inner [try] block. *)
Definition drive (f : Body.t) (task : Task) : M unit :=
  page_goto (Body.targetTweet f) ;;
  page_waitForSelector reply_button ;;
  locator_click reply_button ;;
  human_pause 1000 2000 ;;
  page_waitForSelector reply_textarea ;;
  call_ (PageEvaluate "remove masks") ;;
  page_waitForTimeout 1000 ;;
  call_ (PageEvaluate "focus textarea") ;;
  human_pause 500 1000 ;;
  keyboard_type_humanlike (Body.comment f) ;;
  human_pause 800 1500 ;;
  page_waitForSelector tweet_button ;;
  call_ (PageEvaluate "remove masks") ;;
  locator_click tweet_button ;;
  human_pause 4000 6000 ;;
  Supabase.insert_log (task_id task) "success" "Reply posted successfully" ;;
  Supabase.update_task_status (task_id task) completed.

(** The [catch] of the inner [try]: log, mark failed, rethrow. *)
Definition on_failure (task : Task) (error : Thrown) : M unit :=
  Supabase.insert_log (task_id task) "failed" (message_or error "Failed to post reply") ;;
  Supabase.update_task_status (task_id task) failed ;;
  throw error.

(** The block [if (scheduleType === 'once') { ... }]. *)
Definition reply_now (account : Account) (f : Body.t) (task : Task) : M unit :=
  setup <- PlaywrightConfig.createStealthSetup
             (cookies account) (proxyConfig account) true ;;
  set_context (Some (fst setup)) ;;
  set_page (Some (snd setup)) ;;
  p <- get_page ;;
  match p with
  | None => throw_error "Failed to create new page"
  | Some _ => try_catch (drive f task) (on_failure task)
  end.

(** The outer [try] block. *)
Definition handle (request : Request) : M Http.Response :=
  match session request with
  | None => ret (Http.json_error 401 "Unauthorized" None)
  | Some user_id =>
      body <- request_json request ;;
      f <- Zod.parse (createCommentSchema (snd body)) (fst body) ;;
      found <- Supabase.select_account
                 (fun a => (account_id a =? Body.accountId f) &&
                           (account_user_id a =? user_id)) ;;
      match found with
      | (Some account, false) =>
          inserted <- Supabase.insert_task (taskData user_id f) ;;
          match inserted with
          | (Some task, false) =>
              (if is_once (Body.scheduleType f) then reply_now account f task
               else ret tt) ;;
              ret (Http.json_success true "Comment task created successfully"
                     (Some (task_id task)))
          | _ =>
              ret (Http.json_error 500 "Failed to create task"
                     (Some (Http.Text "Could not create the automation task")))
          end
      | _ => ret (Http.json_error 404 "Account not found" None)
      end
  end.

Definition POST (request : Request) : M Http.Response :=
  set_context None ;;
  set_page None ;;
  try_finally
    (try_catch (handle request)
       (fun error => ret (Http.internal_error error "Failed to create comment task")))
    close_context_if_open.

End TwitterComment.

(* ===================================================================== *)
(** * The twitter create-post handler (second [POST] of
      src/app/api/twitter/add-account/route.ts) *)
(* ===================================================================== *)

Module TwitterCreatePost.

(** An uploaded file: its name and its MIME type. *)
Record File : Type := {
  file_name : string;
  file_type : string
}.

(** A multipart request: the user of the session, the text fields of the
    form ([None] when the body is not form data) and the files of the
    fields [media0], [media1], ... as far as they go. *)
Record Request : Type := {
  session : option string;
  formData : option (list (string * string));
  media : list File
}.

Module Body.
Record t : Type := {
  content : string;
  accountId : string
}.
End Body.

(** A field of the form as a JSON value: [null] when it is absent. *)
Definition field (form : list (string * string)) (key : string) : Js.value :=
  match FacebookCreatePost.form_get form key with
  | Some s => Js.Str s
  | None => Js.Null
  end.

Definition createPostSchema (env : Env) (body : Js.object) : list string + Body.t :=
  let content :=
    zod_max 280 "Tweet cannot exceed 280 characters"
      (Zod.min 1 "Content is required" (Zod.str (Js.get body "content"))) in
  let accountId :=
    Zod.refine (is_uuid env) "Invalid account ID" (Zod.str (Js.get body "accountId")) in
  match content, accountId with
  | inr c, inr a => inr {| Body.content := c; Body.accountId := a |}
  | _, _ => inl (Zod.issues content ++ Zod.issues accountId)
  end.

Definition proxyConfig (account : Account) : option Proxy.Config :=
  TwitterFollow.proxyConfig account.

Definition action_data_of (f : Body.t) (media_count : nat) : list (string * string) :=
  [("content", Body.content f);
   ("media_count", Js.number_to_string (Z.of_nat media_count))].

Definition taskData (user_id : string) (f : Body.t) : Task :=
  {| task_id := 0;
     task_user_id := user_id;
     social_account_id := Body.accountId f;
     task_type := "post";
     action_data := action_data_of f 0;
     schedule_type := "once";
     status := active;
     next_run_at := now_iso |}.

(** An entry of [mediaFiles]. *)
Record MediaFile : Type := {
  media_path : string;
  media_type : string
}.

(** [os.tmpdir()]. *)
Definition tmpdir : string := "/tmp".

Definition tempPath (task : Task) (i : nat) (file : File) : string :=
  tmpdir ^^ "/twitter-media-" ^^ Js.number_to_string (Z.of_nat (task_id task)) ^^ "-" ^^
  Js.number_to_string (Z.of_nat i) ^^ "-" ^^ file_name file.

(** The loop [for (let i = 0; formData.has(`media${i}`); i++)] from
    index [i] on: every file is written to the temp directory. *)
Fixpoint save_media (task : Task) (i : nat) (files : list File) : M (list MediaFile) :=
  match files with
  | [] => ret []
  | file :: rest =>
      call_ WriteFile ;;
      saved <- save_media task (S i) rest ;;
      ret ({| media_path := tempPath task i file;
              media_type := if String.prefix "image/" (file_type file)
                            then "image" else "video" |} :: saved)
  end.

Definition tweet_textarea : string := "[data-testid='tweetTextarea_0']".
Definition file_input : string := "[data-testid='fileInput']".
Definition attachments : string := "[data-testid='attachments']".
Definition tweet_button_inline : string := "[data-testid='tweetButtonInline']".
Definition toast : string := "[data-testid='toast']".

(** The block [if (account.cookies) { try { ... } catch { throw ... } }
    else { throw ... }] that tries to restore the session. *)
Definition restore_session (account : Account) (f : Body.t) : M unit :=
  if Js.truthy_opt (cookies account) then
    try_catch
      (parsed <- PlaywrightConfig.json_parse (Js.or_else (cookies account) "") ;;
       c <- get_context ;;
       match c with
       | None => throw_error "Cannot read properties of null (reading 'addCookies')"
       | Some context => PlaywrightConfig.context_addCookies context parsed
       end ;;
       page_goto "https://x.com/home" ;;
       human_pause 3000 5000 ;;
       stillNotLoggedIn <- catch_default (locator_isVisible tweet_textarea) false ;;
       if negb stillNotLoggedIn then
         Supabase.update_account (Body.accountId f)
           (with_account_status "session_expired") ;;
         throw_error
           "Session expired and could not be restored - please re-login to this account"
       else ret tt)
      (fun _ =>
         throw_error "Failed to restore session - please re-login to this account")
  else throw_error "No cookies available to restore session - please re-login to this account".

(** One round of [for (const media of mediaFiles)]. *)
Definition upload (media : MediaFile) : M unit :=
  try_catch
    (call_ (SetInputFiles file_input) ;;
     page_waitForSelector attachments ;;
     human_pause 1000 2000)
    (fun uploadError =>
       throw_error ("Failed to upload " ^^ media_type media ^^ ": " ^^
                    message_or uploadError "undefined")).

Definition tweet_created (task : Task) : M Http.Response :=
  Supabase.insert_log (task_id task) "success" "Tweet created successfully" ;;
  Supabase.update_task_status (task_id task) completed ;;
  ret (Http.json_success true "Tweet created successfully" (Some (task_id task))).

(** The inner [try] block. *)
Definition drive (account : Account) (f : Body.t) (task : Task)
    (mediaFiles : list MediaFile) : M Http.Response :=
  page_goto "https://x.com/home" ;;
  human_pause 2000 4000 ;;
  isLoggedIn <- catch_default (locator_isVisible tweet_textarea) false ;;
  (if negb isLoggedIn then
     t <- gets clock ;;
     currentUrl <- asks (fun env => url env t) ;;
     if Js.includes "/login" currentUrl || Js.includes "/i/flow/login" currentUrl
     then restore_session account f
     else ret tt
   else ret tt) ;;
  page_waitForSelector tweet_textarea ;;
  _ <- randomDelay 50 150 ;;
  locator_click tweet_textarea ;;
  human_pause 500 1000 ;;
  keyboard_type_humanlike (Body.content f) ;;
  human_pause 800 1500 ;;
  (if (0 <? length mediaFiles)%nat then
     page_waitForSelector file_input ;;
     for_each mediaFiles upload
   else ret tt) ;;
  page_waitForSelector tweet_button_inline ;;
  isDisabled <- catch_default (call_bool (IsDisabled tweet_button_inline)) true ;;
  if isDisabled then throw_error "Post button is disabled, cannot create tweet"
  else
    _ <- randomDelay 50 150 ;;
    locator_click tweet_button_inline ;;
    human_pause 4000 6000 ;;
    viewTweet <- catch_default (locator_isVisible "text=View") false ;;
    postAgain <- catch_default (locator_isVisible "text=Post another Tweet") false ;;
    successToast <- catch_default (locator_textContent toast) None ;;
    if Js.truthy_opt successToast &&
       Js.includes "Your post was sent" (Js.or_else successToast "")
    then tweet_created task
    else if negb viewTweet && negb postAgain && Js.truthy_opt successToast
    then throw_error ("Twitter returned error: " ^^ Js.or_else successToast "")
    else tweet_created task.

(** The [catch] of the inner [try]: log, mark failed, rethrow. *)
Definition on_failure (task : Task) (error : Thrown) : M Http.Response :=
  Supabase.insert_log (task_id task) "failed" (message_or error "Failed to create tweet") ;;
  Supabase.update_task_status (task_id task) failed ;;
  throw error.

(** The [finally] of the inner [try]: the temp files are emptied, each
    in a [try] of its own, and the context is closed. *)
Definition release (tempFiles : list string) : M unit :=
  for_each tempFiles (fun _ => try_catch (call_ WriteFile) (fun _ => ret tt)) ;;
  close_context_if_open.

(** The outer [try] block. *)
Definition handle (request : Request) : M Http.Response :=
  match session request with
  | None => ret (Http.json_error 401 "Unauthorized" None)
  | Some user_id =>
      match formData request with
      | None => throw_error "Failed to parse body as FormData"
      | Some form =>
          f <- Zod.parse createPostSchema
                 [("content", field form "content");
                  ("accountId", field form "accountId")] ;;
          found <- Supabase.select_account
                     (fun a => (account_id a =? Body.accountId f) &&
                               (account_user_id a =? user_id)) ;;
          match found with
          | (Some account, false) =>
              inserted <- Supabase.insert_task (taskData user_id f) ;;
              match inserted with
              | (Some task, false) =>
                  mediaFiles <- save_media task 0 (media request) ;;
                  Supabase.update_task (task_id task)
                    (Supabase.with_action_data (action_data_of f (length mediaFiles))) ;;
                  setup <- PlaywrightConfig.createStealthSetup
                             (cookies account) (proxyConfig account) true ;;
                  set_context (Some (fst setup)) ;;
                  set_page (Some (snd setup)) ;;
                  p <- get_page ;;
                  match p with
                  | None =>
                      Supabase.insert_log (task_id task) "failed"
                        "Failed to create new page" ;;
                      Supabase.update_task_status (task_id task) failed ;;
                      throw_error "Failed to create new page"
                  | Some _ =>
                      try_finally
                        (try_catch (drive account f task mediaFiles) (on_failure task))
                        (release (map media_path mediaFiles))
                  end
              | _ =>
                  ret (Http.json_error 500 "Failed to create task"
                         (Some (Http.Text "Could not create the automation task")))
              end
          | _ => ret (Http.json_error 404 "Account not found" None)
          end
      end
  end.

Definition POST (request : Request) : M Http.Response :=
  set_context None ;;
  set_page None ;;
  try_catch (handle request)
    (fun error => ret (Http.internal_error error "Failed to create tweet")).

End TwitterCreatePost.

(* ===================================================================== *)
(** * The facebook follow handler (first [POST] of
      src/app/api/facebook/follow/route.ts) *)
(* ===================================================================== *)

Module FacebookFollow.

(** The validated body; [action] is any text that is not empty. *)
Module Body.
Record t : Type := {
  targetUrl : string;
  accountId : string;
  action : string
}.
End Body.

Definition followUserSchema (env : Env) (body : Js.object) : list string + Body.t :=
  let targetUrl := Zod.min 1 "Target URL is required" (Zod.str (Js.get body "targetUrl")) in
  let accountId :=
    Zod.refine (is_uuid env) "Invalid account ID" (Zod.str (Js.get body "accountId")) in
  let action := Zod.min 1 "Action is required" (Zod.str (Js.get body "action")) in
  match targetUrl, accountId, action with
  | inr u, inr a, inr act =>
      inr {| Body.targetUrl := u; Body.accountId := a; Body.action := act |}
  | _, _, _ => inl (Zod.issues targetUrl ++ Zod.issues accountId ++ Zod.issues action)
  end.

Definition proxyConfig (account : Account) : option Proxy.Config :=
  FacebookCreatePost.proxyConfig account.

Definition taskData (user_id : string) (f : Body.t) : Task :=
  {| task_id := 0;
     task_user_id := user_id;
     social_account_id := Body.accountId f;
     task_type := Body.action f;
     action_data := [("profile_url", Body.targetUrl f); ("action_type", Body.action f)];
     schedule_type := "once";
     status := active;
     next_run_at := now_iso |}.

Definition more_button : string := "div[role='none'] svg[viewBox='0 0 24 24']".
Definition follow_item : string := "div[role='menuitem'] span[dir='auto']:has-text('Follow')".
Definition following_button : string := "div[role='button'] >> hasText=Following".
Definition unfollow_radio : string := "div[role='radio'] >> hasText=Unfollow".
Definition update_button : string := "div[role='button'] >> hasText=Update".

(** The two branches on [action].  [page.locator(...).first()] is a
    locator object and never [null], so the tests [if (!moreButton)] and
    the like after it never throw. *)
Definition act (action : string) : M unit :=
  if action =? "follow" then
    locator_click more_button ;;
    page_waitForTimeout 1000 ;;
    locator_click follow_item ;;
    page_waitForTimeout 2000 ;;
    page_reload
  else if action =? "unfollow" then
    locator_click following_button ;;
    page_waitForTimeout 1000 ;;
    locator_click unfollow_radio ;;
    locator_click update_button ;;
    page_waitForTimeout 2000 ;;
    page_reload
  else ret tt.

Definition success_message (action : string) : string :=
  "Successfully " ^^ action ^^ "ed page".

(** The inner [try] block. *)
Definition drive (f : Body.t) (task : Task) : M Http.Response :=
  page_goto "https://www.facebook.com/" ;;
  page_waitForTimeout 3000 ;;
  page_goto (Body.targetUrl f) ;;
  page_waitForTimeout 3000 ;;
  act (Body.action f) ;;
  page_waitForTimeout 3000 ;;
  Supabase.insert_log (task_id task) "success" (success_message (Body.action f)) ;;
  Supabase.update_task_status (task_id task) completed ;;
  ret (Http.json_success true (success_message (Body.action f)) (Some (task_id task))).

(** The [catch] of the inner [try]: log, mark failed, rethrow. *)
Definition on_failure (f : Body.t) (task : Task) (error : Thrown) : M Http.Response :=
  Supabase.insert_log (task_id task) "failed"
    (message_or error ("Failed to " ^^ Body.action f ^^ " page")) ;;
  Supabase.update_task_status (task_id task) failed ;;
  throw error.

(** The outer [try] block. *)
Definition handle (request : Http.Request) : M Http.Response :=
  match Http.session request with
  | None => ret (Http.json_error 401 "Unauthorized" None)
  | Some user_id =>
      body <- Http.request_json request ;;
      f <- Zod.parse followUserSchema body ;;
      found <- Supabase.select_account
                 (fun a => (account_id a =? Body.accountId f) &&
                           (account_user_id a =? user_id)) ;;
      match found with
      | (Some account, false) =>
          inserted <- Supabase.insert_task (taskData user_id f) ;;
          match inserted with
          | (Some task, false) =>
              setup <- PlaywrightConfig.createStealthSetup
                         (cookies account) (proxyConfig account) true ;;
              set_context (Some (fst setup)) ;;
              set_page (Some (snd setup)) ;;
              p <- get_page ;;
              match p with
              | None =>
                  Supabase.insert_log (task_id task) "failed" "Failed to create new page" ;;
                  Supabase.update_task_status (task_id task) failed ;;
                  throw_error "Failed to create new page"
              | Some _ => try_catch (drive f task) (on_failure f task)
              end
          | _ =>
              ret (Http.json_error 500 "Failed to create task"
                     (Some (Http.Text "Could not create the automation task")))
          end
      | _ => ret (Http.json_error 404 "Account not found" None)
      end
  end.

Definition POST (request : Http.Request) : M Http.Response :=
  set_context None ;;
  set_page None ;;
  try_finally
    (try_catch (handle request)
       (fun error => ret (Http.internal_error error "Failed to follow user")))
    close_context_if_open.

End FacebookFollow.

(* ===================================================================== *)
(** * The facebook add-account handler (second [POST] of
      src/app/api/facebook/follow/route.ts) *)
(* ===================================================================== *)

Module FacebookAddAccount.

(** The validated body: every field is required. *)
Module Body.
Record t : Type := {
  username : string;
  email : string;
  password : string;
  proxy_username : string;
  proxy_password : string;
  proxy_ip : string;
  proxy_port : string
}.
End Body.

Definition addAccountSchema (env : Env) (body : Js.object) : list string + Body.t :=
  let username := Zod.min 1 "Username is required" (Zod.str (Js.get body "username")) in
  let email := Zod.refine (is_email env) "Invalid email" (Zod.str (Js.get body "email")) in
  let password :=
    Zod.min 1 "String must contain at least 1 character(s)"
      (Zod.str (Js.get body "password")) in
  let proxy_username :=
    Zod.min 1 "Proxy username is required" (Zod.str (Js.get body "proxy_username")) in
  let proxy_password :=
    Zod.min 1 "Proxy password is required" (Zod.str (Js.get body "proxy_password")) in
  let proxy_ip := Zod.min 1 "Proxy IP is required" (Zod.str (Js.get body "proxy_ip")) in
  let proxy_port :=
    Zod.min 1 "Proxy port is required" (Zod.str (Js.get body "proxy_port")) in
  match username, email, password, proxy_username, proxy_password, proxy_ip, proxy_port with
  | inr u, inr e, inr p, inr pu, inr pp, inr ip, inr port =>
      inr {| Body.username := u; Body.email := e; Body.password := p;
             Body.proxy_username := pu; Body.proxy_password := pp;
             Body.proxy_ip := ip; Body.proxy_port := port |}
  | _, _, _, _, _, _, _ =>
      inl (Zod.issues username ++ Zod.issues email ++ Zod.issues password ++
           Zod.issues proxy_username ++ Zod.issues proxy_password ++
           Zod.issues proxy_ip ++ Zod.issues proxy_port)
  end.

Definition proxyConfig (f : Body.t) : option Proxy.Config :=
  if Js.truthy (Body.proxy_ip f) && Js.truthy (Body.proxy_port f) then
    Some {| Proxy.type := Some "http";
            Proxy.server := Body.proxy_ip f;
            Proxy.port := Proxy.PortString (Body.proxy_port f);
            Proxy.username := Some (Js.or_else (Some (Body.proxy_username f)) "");
            Proxy.password := Some (Js.or_else (Some (Body.proxy_password f)) "") |}
  else None.

(** [`${cookie.name}=${cookie.value}`]. *)
Definition cookie_pair (cookie : Cookie) : string :=
  cookie_name cookie ^^ "=" ^^
  match cookie_value cookie with Some v => v | None => "undefined" end.

(** [cookies.map(...).join("; ")]. *)
Definition cookieString (cookies : list Cookie) : string :=
  Js.join "; " (map cookie_pair cookies).

(** The text of a port as the INTEGER column [proxy_port] takes it:
    white space around an optional sign and digits, within 32 bits;
    [None] when the store refuses the text. *)
Definition all_digits (s : string) : bool :=
  negb (s =? "") &&
  forallb (fun c => let n := nat_of_ascii c in ((48 <=? n) && (n <=? 57))%nat) (chars s).

Definition integer_column (s : string) : option Z :=
  let digits :=
    match Js.trim s with
    | String "-" rest => rest
    | String "+" rest => rest
    | other => other
    end in
  if all_digits digits then
    match TwitterAddAccount.parseInt (Js.trim s) with
    | Some n => if ((-2147483648 <=? n) && (n <=? 2147483647))%Z then Some n else None
    | None => None
    end
  else None.

(** The row written for the account (the columns of [Account]; the
    columns [proxy_type], [proxy_country] and [proxy_rotation_interval]
    are constants that no handler reads). *)
Definition new_account (user_id : string) (f : Body.t) (cookies : string)
    (port : option Z) : Account :=
  let proxy := proxyConfig f in
  {| account_id := "";
     account_user_id := user_id;
     platform := "facebook";
     account_type := "manual";
     email := Body.email f;
     password := Body.password f;
     username := Body.username f;
     cookies := Some cookies;
     account_status := "active";
     proxy_ip := Some (Js.or_else (option_map Proxy.server proxy) "");
     proxy_port := port;
     proxy_username := Some (Js.or_else (match proxy with
                                         | Some p => Proxy.username p
                                         | None => None
                                         end) "");
     proxy_password := Some (Js.or_else (match proxy with
                                         | Some p => Proxy.password p
                                         | None => None
                                         end) "");
     mail_password := None;
     mfa_code := None;
     proxy_last_used := None |}.

(** [proxyConfig?.port || ""]. *)
Definition port_text (f : Body.t) : string :=
  Js.or_else (option_map (fun p => Proxy.port_to_string (Proxy.port p)) (proxyConfig f)) "".

(** [insert({...}).select().single()]: [(data, error.message)].  The
    store gives the row its identifier, and refuses a port that is no
    integer. *)
Definition insert_account (user_id : string) (f : Body.t) (cookies : string)
  : M (option Account * option string) :=
  t <- gets clock ;;
  _ <- Supabase.round_trip (DbInsert "social_accounts") ;;
  err <- asks (fun env => fails env (DbInsert "social_accounts") t) ;;
  match err with
  | Some msg => ret (None, Some msg)
  | None =>
      match integer_column (port_text f) with
      | None =>
          ret (None, Some ("invalid input syntax for type integer: '" ^^
                           port_text f ^^ "'"))
      | Some port =>
          id <- new_handle ;;
          let stored :=
            TwitterAddAccount.with_account_id (Js.number_to_string (Z.of_nat id))
              (new_account user_id f cookies (Some port)) in
          modify (fun w => with_accounts (accounts w ++ [stored]) w) ;;
          ret (Some stored, None)
      end
  end.

Definition login_signals : list string :=
  ["[aria-label='Account controls and settings']";
   "[aria-label='Your profile']";
   "[aria-label='Create']"].

Definition account_added_response (account : option Account) : Http.Response :=
  {| Http.status := 200; Http.success := Some true; Http.requiresMfa := None;
     Http.message := Some "Facebook account added successfully";
     Http.taskId := None; Http.error := None; Http.details := None;
     Http.account := account |}.

(** The inner [try] block. *)
Definition drive (user_id : string) (f : Body.t) : M Http.Response :=
  page_goto "https://www.facebook.com/" ;;
  locator_fill "input[name='email']" ;;
  locator_fill "input[name='pass']" ;;
  locator_click "button[name='login']" ;;
  try_catch (call_ (PageWaitForAny login_signals))
    (fun _ =>
       throw_error "Login timeout - please complete the login process within 5 minutes") ;;
  c <- get_context ;;
  match c with
  | None => throw_error "Cannot read properties of null (reading 'cookies')"
  | Some _ =>
      t <- call ContextCookies ;;
      cookies <- asks (fun env => cookieString (jar env t)) ;;
      stored <- insert_account user_id f cookies ;;
      match snd stored with
      | Some msg => throw_error ("Failed to store account: " ^^ msg)
      | None => ret (account_added_response (fst stored))
      end
  end.

(** The handler after validation. *)
Definition add_account (user_id : string) (f : Body.t) : M Http.Response :=
  setup <- PlaywrightConfig.createStealthSetup None (proxyConfig f) false ;;
  set_context (Some (fst setup)) ;;
  set_page (Some (snd setup)) ;;
  found <- Supabase.select_account
             (fun a => (email a =? Body.email f) && (platform a =? "facebook")) ;;
  match fst found with
  | Some _ => ret (Http.json_success false "Facebook account already exists" None)
  | None =>
      p <- get_page ;;
      match p with
      | None => throw_error "Failed to create new page"
      | Some _ => try_finally (drive user_id f) close_context_if_open
      end
  end.

(** The [try] block. *)
Definition handle (request : Http.Request) : M Http.Response :=
  set_context None ;;
  set_page None ;;
  match Http.session request with
  | None => ret (Http.json_error 401 "Unauthorized" None)
  | Some user_id =>
      body <- Http.request_json request ;;
      f <- Zod.parse addAccountSchema body ;;
      add_account user_id f
  end.

Definition POST (request : Http.Request) : M Http.Response :=
  try_catch (handle request)
    (fun error =>
       ret (Http.json_error 500 "Failed to add Facebook account"
              (Some (Http.Text (message_or error "Unknown error"))))).

End FacebookAddAccount.

(* ===================================================================== *)
(** * The facebook like handler (third [POST] of
      src/app/api/facebook/follow/route.ts) *)
(* ===================================================================== *)

Module FacebookLike.

Module Body.
Record t : Type := {
  url : string;
  accountId : string;
  type : option string;
  reaction : option string
}.
End Body.

Definition likePostSchema (env : Env) (body : Js.object) : list string + Body.t :=
  let url := Zod.refine (is_url env) "Invalid post URL" (Zod.str (Js.get body "url")) in
  let accountId :=
    Zod.refine (is_uuid env) "Invalid account ID" (Zod.str (Js.get body "accountId")) in
  let type := Zod.optional_str (Js.get body "type") in
  let reaction := Zod.optional_str (Js.get body "reaction") in
  match url, accountId, type, reaction with
  | inr u, inr a, inr t, inr r =>
      inr {| Body.url := u; Body.accountId := a; Body.type := t; Body.reaction := r |}
  | _, _, _, _ =>
      inl (Zod.issues url ++ Zod.issues accountId ++ Zod.issues type ++
           Zod.issues reaction)
  end.

Definition proxyConfig (account : Account) : option Proxy.Config :=
  FacebookCreatePost.proxyConfig account.

Definition taskData (user_id : string) (f : Body.t) : Task :=
  {| task_id := 0;
     task_user_id := user_id;
     social_account_id := Body.accountId f;
     task_type := "like";
     action_data := [("post_url", Body.url f);
                     ("action_type", "like");
                     ("reaction_type", Js.or_else (Body.reaction f) "like")];
     schedule_type := "once";
     status := active;
     next_run_at := now_iso |}.

(** [task.action_data.post_url]. *)
Definition post_url (task : Task) : string :=
  Js.or_else (FacebookCreatePost.form_get (action_data task) "post_url") "".

(** [findAndClickLikeButton]: one script that runs in the page.  What it
    finds in the document is asked of the environment; the result is
    [(success, alreadyLiked)]. *)
Definition findAndClickLikeButton : M (bool * bool) :=
  t <- call (PageEvaluate "findAndClickLikeButton") ;;
  asks (fun env =>
    let found what := truth env (PageEvaluate ("findAndClickLikeButton: " ^^ what)) t in
    if negb (found "postActionsContainer") then (false, false)
    else if negb (found "likeButton") then (false, false)
    else if found "isAlreadyLiked" then (true, true)
    else if found "click" then (true, false)
    else (false, false)).

Definition reaction_selector : string := "[aria-label='Like'], [aria-label='React']".

(** The script that verifies the reaction: its four signals. *)
Definition verify_reaction : M (bool * bool * bool * bool) :=
  t <- call (PageEvaluate "verify reaction") ;;
  asks (fun env =>
    let found what := truth env (PageEvaluate ("verify reaction: " ^^ what)) t in
    (found "hasReactionIndicator", found "isButtonActive",
     found "hasReactionCount", found "hasReactionEmoji")).

(** The statements repeated at each failure that the handler detects:
    log, mark failed, throw. *)
Definition fail_task {A} (task : Task) (msg : string) : M A :=
  Supabase.insert_log (task_id task) "failed" msg ;;
  Supabase.update_task_status (task_id task) failed ;;
  throw_error msg.

(** The handler from the navigation on. *)
Definition drive (task : Task) : M Http.Response :=
  page_goto (post_url task) ;;
  page_waitForTimeout 3000 ;;
  likeButtonResult <- findAndClickLikeButton ;;
  if negb (fst likeButtonResult) then fail_task task "Could not find or click Like button"
  else if snd likeButtonResult then
    Supabase.insert_log (task_id task) "success" "Post is already liked" ;;
    Supabase.update_task_status (task_id task) completed ;;
    ret (Http.json_success true "Post is already liked" None)
  else
    try_catch (page_waitForSelector reaction_selector)
      (fun _ => fail_task task "Failed to find reaction selector") ;;
    clickResult <- call_bool (PageEvaluate "click reaction button") ;;
    if negb clickResult then fail_task task "Failed to click reaction button"
    else
      page_waitForTimeout 2000 ;;
      verificationResult <- verify_reaction ;;
      let '(hasReactionIndicator, isButtonActive, hasReactionCount, hasReactionEmoji) :=
        verificationResult in
      let isReactionApplied :=
        hasReactionIndicator || isButtonActive || hasReactionCount || hasReactionEmoji in
      if negb isReactionApplied then fail_task task "Could not verify reaction was applied"
      else
        Supabase.insert_log (task_id task) "success" "Like action completed successfully" ;;
        Supabase.update_task_status (task_id task) completed ;;
        ret (Http.json_success true "Post liked successfully" (Some (task_id task))).

(** The [try] block. *)
Definition handle (request : Http.Request) : M Http.Response :=
  match Http.session request with
  | None => ret (Http.json_error 401 "Unauthorized" None)
  | Some user_id =>
      body <- Http.request_json request ;;
      f <- Zod.parse likePostSchema body ;;
      found <- Supabase.select_account
                 (fun a => (account_id a =? Body.accountId f) &&
                           (account_user_id a =? user_id)) ;;
      match found with
      | (Some account, false) =>
          inserted <- Supabase.insert_task (taskData user_id f) ;;
          match inserted with
          | (Some task, false) =>
              setup <- PlaywrightConfig.createStealthSetup
                         (cookies account) (proxyConfig account) true ;;
              set_context (Some (fst setup)) ;;
              set_page (Some (snd setup)) ;;
              p <- get_page ;;
              match p with
              | None => throw_error "Failed to create new page"
              | Some _ => drive task
              end
          | _ =>
              ret (Http.json_error 500 "Failed to create task"
                     (Some (Http.Text "Could not create the automation task")))
          end
      | _ => ret (Http.json_error 404 "Account not found" None)
      end
  end.

Definition POST (request : Http.Request) : M Http.Response :=
  set_context None ;;
  set_page None ;;
  try_finally
    (try_catch (handle request)
       (fun error => ret (Http.internal_error error "Failed to like post")))
    close_context_if_open.

End FacebookLike.

(* ===================================================================== *)
(** * The vocabulary of the log and the status of a task *)
(* ===================================================================== *)

Definition status_eqb (a b : task_status) : bool :=
  match a, b with
  | active, active | paused, paused | completed, completed
  | failed, failed | pending, pending => true
  | _, _ => false
  end.

(** The log entries that a run from [w] to [w'] added. *)
Definition new_logs (w w' : World) : list TaskLog :=
  skipn (length (task_logs w)) (task_logs w').

(** The task that a run from [w] to [w'] added, if it added one. *)
Definition created_task (w w' : World) : option Task :=
  nth_error (tasks w') (length (tasks w)).

(** The log and the status of the task of a request agree: no entry and
    the task, if there is one, still [active]; or one entry for the task,
    ["success"] with the task [completed] or ["failed"] with the task
    [failed]. *)
Definition agreed (w w' : World) : bool :=
  match new_logs w w', created_task w w' with
  | [], None => true
  | [], Some task => status_eqb (status task) active
  | [entry], Some task =>
      (log_task_id entry =? task_id task)%nat &&
      (((result entry =? "success") && status_eqb (status task) completed) ||
       ((result entry =? "failed") && status_eqb (status task) failed))
  | _, _ => false
  end.

(** What the log and the status columns hold: the identifier and the
    status of every task, and the log. *)
Definition standing (t : Task) : nat * task_status := (task_id t, status t).

Definition Ledger : Type := (list (nat * task_status) * list TaskLog)%type.

Definition ledger (w : World) : Ledger := (map standing (tasks w), task_logs w).

(** A step that leaves the ledger alone. *)
Definition idle (w w' : World) : Prop := ledger w' = ledger w.

(** The status [st] given to the tasks with the identifier [id]. *)
Definition settle (id : nat) (st : task_status) (p : nat * task_status)
  : nat * task_status :=
  (fst p, if (fst p =? id)%nat then st else snd p).

(** The change of a ledger by one log entry with the result [res] for the
    task [id], together with the status [st] for that task. *)
Definition concluded (id : nat) (res : string) (st : task_status) (l l' : Ledger) : Prop :=
  (exists t msg,
     snd l' = snd l ++ [{| log_task_id := id; execution_time := t;
                           result := res; message := msg |}]) /\
  fst l' = map (settle id st) (fst l).

Definition unchanged (l l' : Ledger) : Prop := l' = l.

(** [outcome Pok Pthrow m]: in every environment and from every world,
    [m] ends; when it returns it has changed the ledger within [Pok], when
    it throws within [Pthrow]. *)
Definition outcome (Pok Pthrow : Ledger -> Ledger -> Prop) {A} (m : M A) : Prop :=
  forall env w,
    match fst (m env w) with
    | Ok _ => Pok (ledger w) (ledger (snd (m env w)))
    | Throw _ => Pthrow (ledger w) (ledger (snd (m env w)))
    | Hang => False
    end.

(** The ways in which the work on a task can leave the ledger. *)
Definition succeeded (id : nat) : Ledger -> Ledger -> Prop :=
  concluded id "success" completed.

Definition abandoned (id : nat) : Ledger -> Ledger -> Prop :=
  concluded id "failed" failed.

Definition verdict (id : nat) (l l' : Ledger) : Prop :=
  unchanged l l' \/ succeeded id l l' \/ abandoned id l l'.

(** The run from [w] to [w'] kept the log entries there were, and its log
    and status agree. *)
Definition accounted (w w' : World) : Prop :=
  task_logs w' = task_logs w ++ new_logs w w' /\ agreed w w' = true.

(* ===================================================================== *)
(** * More requests, environments and worlds *)
(* ===================================================================== *)

Module Fixtures.

Import Scenario.


Definition facebook_like_request : Http.Request :=
  {| Http.session := Some "user-1";
     Http.body := Some [("url", Js.Str "https://www.facebook.com/nasa/posts/1");
                        ("accountId", Js.Str account_uuid)] |}.

Definition comment_body (scheduleType : string) : Js.object :=
  [("comment", Js.Str "nice");
   ("targetTweet", Js.Str "https://x.com/u/status/123");
   ("accountId", Js.Str account_uuid);
   ("scheduleType", Js.Str scheduleType)].

Definition comment_request (scheduleType : string) : TwitterComment.Request :=
  {| TwitterComment.session := Some "user-1";
     TwitterComment.body :=
       Some (comment_body scheduleType,
             TwitterComment.Object [("repeatType", Js.Str "daily")]) |}.

Definition comment_fields (scheduleType : TwitterComment.ScheduleType)
  : TwitterComment.Body.t :=
  {| TwitterComment.Body.comment := "nice";
     TwitterComment.Body.targetTweet := "https://x.com/u/status/123";
     TwitterComment.Body.accountId := account_uuid;
     TwitterComment.Body.scheduleType := scheduleType;
     TwitterComment.Body.scheduleData :=
       {| TwitterComment.every := None;
          TwitterComment.repeatType := Some "daily";
          TwitterComment.repeatTime := None |} |}.

Definition tweet_request : TwitterCreatePost.Request :=
  {| TwitterCreatePost.session := Some "user-1";
     TwitterCreatePost.formData := Some [("content", "hello"); ("accountId", account_uuid)];
     TwitterCreatePost.media :=
       [{| TwitterCreatePost.file_name := "cat.png";
           TwitterCreatePost.file_type := "image/png" |}] |}.

(** Another user's request for the account of [user-1]. *)
Definition foreign_like_request : Http.Request :=
  {| Http.session := Some "user-2";
     Http.body := Some [("tweetUrl", Js.Str "https://x.com/u/status/123");
                        ("accountId", Js.Str account_uuid)] |}.

Definition facebook_account : Account :=
  {| account_id := "6f1c0d0e-0000-4000-8000-000000000002";
     account_user_id := "user-1";
     platform := "facebook";
     account_type := "manual";
     email := "fb@example.com";
     password := "secret";
     username := "fb";
     cookies := Some "c_user=1; xs=2";
     account_status := "active";
     proxy_ip := Some "10.0.0.5";
     proxy_port := Some 8080%Z;
     proxy_username := Some "u";
     proxy_password := Some "p";
     mail_password := None;
     mfa_code := None;
     proxy_last_used := None |}.

(** The store holds the facebook account, too. *)
Definition with_facebook_account : World :=
  with_accounts [twitter_account; facebook_account] start.

Definition facebook_add_body (email : string) : Js.object :=
  [("username", Js.Str "fb");
   ("email", Js.Str email);
   ("password", Js.Str "secret");
   ("proxy_username", Js.Str "u");
   ("proxy_password", Js.Str "p");
   ("proxy_ip", Js.Str "10.0.0.5");
   ("proxy_port", Js.Str "8080")].

Definition facebook_add_request (email : string) : Http.Request :=
  {| Http.session := Some "user-1";
     Http.body := Some (facebook_add_body email) |}.

Definition cookie (name value : string) : Cookie :=
  {| cookie_name := name; cookie_value := Some value; domain := ".facebook.com";
     path := "/"; secure := true; httpOnly := true; sameSite := "Lax" |}.

End Fixtures.

(* ===================================================================== *)
(** * The vocabulary of cookie strings *)
(* ===================================================================== *)

(** The character [c] does not occur in [s]. *)
Definition without (c : ascii) (s : string) : bool :=
  forallb (fun x => negb (x =? c)%char) (chars s).

Definition starts_with_space (s : string) : bool :=
  match s with
  | String c _ => Js.is_space c
  | EmptyString => false
  end.

Fixpoint ends_with_space (s : string) : bool :=
  match s with
  | EmptyString => false
  | String c EmptyString => Js.is_space c
  | String _ rest => ends_with_space rest
  end.

(** A cookie whose name and value survive the cookie-string format: a
    value is there, neither holds [;] or [=], the name does not start and
    the value does not end with white space. *)
Definition printable (c : Cookie) : bool :=
  match cookie_value c with
  | Some value =>
      without ";" (cookie_name c) && without "=" (cookie_name c) &&
      without ";" value && without "=" value &&
      negb (starts_with_space (cookie_name c)) && negb (ends_with_space value)
  | None => false
  end.

(** The cookie that the [split(';')] fallback makes of a name and a
    value. *)
Definition as_facebook_cookie (name : string) (value : option string) : Cookie :=
  {| cookie_name := name; cookie_value := value; domain := ".facebook.com";
     path := "/"; secure := true; httpOnly := true; sameSite := "Lax" |}.

(* ===================================================================== *)
(** * The vocabulary of requests that only touch the store *)
(* ===================================================================== *)

(** A call to the store or to the file system: nothing of the browser. *)
Definition offline (e : Event) : bool :=
  match e with
  | Called (DbSelect _) | Called (DbInsert _) | Called (DbUpdate _) | Called WriteFile => true
  | _ => false
  end.

(** The world after one call that left it alone otherwise. *)
Definition after_call (op : Op) (w : World) : World :=
  with_clock (S (clock w)) (with_trace (trace w ++ [Called op]) w).

(* ===================================================================== *)
(** * The vocabulary of the ownership check *)
(* ===================================================================== *)

(** No account of the store with the identifier [id] belongs to
    [user_id]. *)
Definition foreign (w : World) (user_id id : string) : Prop :=
  forall a, In a (accounts w) -> account_id a = id -> account_user_id a <> user_id.

(** The answer to a request for such an account. *)
Definition not_found : Http.Response := Http.json_error 404 "Account not found" None.

(** The world after a handler reset its variables and asked the store for
    the account, and did nothing else. *)
Definition asked (w : World) : World :=
  after_call (DbSelect "social_accounts")
    (with_locals {| context := None; page := None |} w).

(* ===================================================================== *)
(** * More pages *)
(* ===================================================================== *)

Module Pages.

Import Scenario.

(** The calm page, except that the navigation to [address] rejects. *)
Definition unreachable (address msg : string) : Env :=
  {| fails := fun op _ =>
       match op with
       | PageGoto u => if u =? address then Some msg else None
       | _ => None
       end;
     truth := truth calm; number := number calm;
     text := text calm; url := url calm; jar := jar calm;
     random := random calm; JSON_parse := JSON_parse calm;
     JSON_stringify := JSON_stringify calm; is_email := is_email calm;
     is_uuid := is_uuid calm; is_url := is_url calm; generateTOTP := generateTOTP calm;
     zod_message := zod_message calm |}.

(** What Playwright's [TimeoutError] says when [page.waitForSelector]
    gives up on [selector] after 30 seconds. *)
Definition waitForSelector_timeout (selector : string) : string :=
  "page.waitForSelector: Timeout 30000ms exceeded. Call log: - waiting for locator(" ^^
  selector ^^ ") to be visible".

(** The calm page, except that the Like button never appears: the wait
    for it times out. *)
Definition without_like_button : Env :=
  {| fails := fun op _ =>
       match op with
       | PageWaitForSelector s =>
           if s =? TwitterLike.like_testid
           then Some (waitForSelector_timeout TwitterLike.like_testid) else None
       | _ => None
       end;
     truth := truth calm; number := number calm;
     text := text calm; url := url calm; jar := jar calm;
     random := random calm; JSON_parse := JSON_parse calm;
     JSON_stringify := JSON_stringify calm; is_email := is_email calm;
     is_uuid := is_uuid calm; is_url := is_url calm; generateTOTP := generateTOTP calm;
     zod_message := zod_message calm |}.

(** The account of [user-1] with a saved session that holds no cookie. *)
Definition stale_account : Account :=
  {| account_id := account_uuid;
     account_user_id := "user-1";
     platform := "twitter";
     account_type := "manual";
     email := "me@example.com";
     password := "secret";
     username := "me";
     cookies := Some "[]";
     account_status := "active";
     proxy_ip := None;
     proxy_port := None;
     proxy_username := None;
     proxy_password := None;
     mail_password := None;
     mfa_code := None;
     proxy_last_used := None |}.

Definition stale : World := with_accounts [stale_account] start.

End Pages.

(* ===================================================================== *)
(** * The vocabulary of the keyboard *)
(* ===================================================================== *)

(** The characters typed in a run of events, in order. *)
Definition keystrokes (evs : list Event) : list ascii :=
  flat_map (fun e => match e with Called (KeyboardType c) => [c] | _ => [] end) evs.

(** A step that types nothing and leaves the tables and the local
    variables alone. *)
Definition silent (w w' : World) : Prop :=
  same_store w w' /\ exists evs, extends w w' evs /\ keystrokes evs = [].

(* ===================================================================== *)
(** * The vocabulary of the clicks *)
(* ===================================================================== *)

(** The selectors clicked in a run of events, in order. *)
Definition clicked (evs : list Event) : list string :=
  flat_map (fun e => match e with Called (Click s) => [s] | _ => [] end) evs.

(* ===================================================================== *)
(** * The vocabulary of the browsers *)
(* ===================================================================== *)

(** A run that opens contexts only on browsers that it launched itself,
    and does not start the global browser. *)
Definition own_browser (w w' : World) : Prop :=
  (globalBrowser w = None -> globalBrowser w' = None) /\
  exists evs,
    extends w w' evs /\
    forall b c, In (b, c) (contexts_opened evs) -> In b (launches evs).

(* ===================================================================== *)
(** * Reasoning about handlers *)
(* ===================================================================== *)

Section Logic.

Variable R : World -> World -> Prop.
Hypothesis R_refl : forall w, R w w.
Hypothesis R_trans : forall a b c, R a b -> R b c -> R a c.
Variable hang_ok : Prop.

Lemma sound_ret {A} (Q : A -> Prop) (a : A) : Q a -> sound R hang_ok Q (ret a).
Proof. intros H env w; simpl; auto. Qed.

Lemma sound_throw {A} (Q : A -> Prop) (e : Thrown) : sound R hang_ok Q (throw e).
Proof. intros env w; simpl; auto. Qed.

Lemma sound_throw_error {A} (Q : A -> Prop) (msg : string) :
  sound R hang_ok Q (throw_error msg).
Proof. apply sound_throw. Qed.

Lemma sound_asks {A} (Q : A -> Prop) (f : Env -> A) :
  (forall env, Q (f env)) -> sound R hang_ok Q (asks f).
Proof. intros H env w; simpl; auto. Qed.

Lemma sound_gets {A} (Q : A -> Prop) (f : World -> A) :
  (forall w, Q (f w)) -> sound R hang_ok Q (gets f).
Proof. intros H env w; simpl; auto. Qed.

Lemma sound_modify (Q : unit -> Prop) (f : World -> World) :
  (forall w, R w (f w)) -> Q tt -> sound R hang_ok Q (modify f).
Proof. intros H HQ env w; simpl; auto. Qed.

Lemma sound_weaken {A} (P Q : A -> Prop) (m : M A) :
  sound R hang_ok P m -> (forall a, P a -> Q a) -> sound R hang_ok Q m.
Proof.
  intros H HPQ env w. destruct (H env w) as [HR Hres]. split; [exact HR|].
  destruct (fst (m env w)); auto.
Qed.

Lemma sound_bind {A B} (P : A -> Prop) (Q : B -> Prop) (m : M A) (f : A -> M B) :
  sound R hang_ok P m ->
  (forall a, P a -> sound R hang_ok Q (f a)) ->
  sound R hang_ok Q (bind m f).
Proof.
  intros Hm Hf env w. unfold bind.
  destruct (Hm env w) as [HR Hres].
  destruct (m env w) as [[a | e |] w1]; simpl in *; auto.
  destruct (Hf a Hres env w1) as [HR' Hres']. split; [eauto | exact Hres'].
Qed.

Lemma sound_seq {A B} (Q : B -> Prop) (m : M A) (f : A -> M B) :
  sound R hang_ok any m ->
  (forall a, sound R hang_ok Q (f a)) ->
  sound R hang_ok Q (bind m f).
Proof. intros Hm Hf. apply sound_bind with (P := any); auto. Qed.

Lemma sound_try_catch {A} (Q : A -> Prop) (m : M A) (h : Thrown -> M A) :
  sound R hang_ok Q m ->
  (forall e, sound R hang_ok Q (h e)) ->
  sound R hang_ok Q (try_catch m h).
Proof.
  intros Hm Hh env w. unfold try_catch.
  destruct (Hm env w) as [HR Hres].
  destruct (m env w) as [[a | e |] w1]; simpl in *; auto.
  destruct (Hh e env w1) as [HR' Hres']. split; [eauto | exact Hres'].
Qed.

Lemma sound_catch_default {A} (m : M A) (d : A) :
  sound R hang_ok any m -> sound R hang_ok any (catch_default m d).
Proof.
  intros Hm. apply sound_try_catch; [exact Hm|]. intros e. apply sound_ret. exact I.
Qed.

Lemma sound_try_finally {A} (Q : A -> Prop) (m : M A) (fin : M unit) :
  sound R hang_ok Q m ->
  sound R hang_ok any fin ->
  sound R hang_ok Q (try_finally m fin).
Proof.
  intros Hm Hfin env w. unfold try_finally.
  destruct (Hm env w) as [HR Hres].
  destruct (m env w) as [[a | e |] w1]; simpl in *; auto;
    destruct (Hfin env w1) as [HR' Hres'];
    destruct (fin env w1) as [[[] | e' |] w2]; simpl in *; eauto.
Qed.

Lemma sound_for_each {A} (l : list A) (body : A -> M unit) :
  (forall a, sound R hang_ok any (body a)) ->
  sound R hang_ok any (for_each l body).
Proof.
  intros Hb. induction l as [| x rest IH]; simpl.
  - apply sound_ret. exact I.
  - apply sound_seq; auto.
Qed.

(** A loop whose rounds keep an invariant of the state; it may run out
    of fuel. *)
Lemma sound_while {S} (Inv : S -> Prop) (fuel : nat) (cond : S -> bool)
    (body : S -> M (S * bool)) :
  hang_ok ->
  (forall s, Inv s -> sound R hang_ok (fun r => Inv (fst r)) (body s)) ->
  forall s, Inv s -> sound R hang_ok Inv (while_loop fuel cond body s).
Proof.
  intros Hok Hb. induction fuel as [| fuel IH]; intros s Hs; simpl.
  - destruct (cond s).
    + intros env w; simpl; auto.
    + apply sound_ret; exact Hs.
  - destruct (cond s).
    + apply sound_bind with (P := fun r => Inv (fst r)); [auto|].
      intros [s' brk] Hs'; simpl in *. destruct brk.
      * apply sound_ret; exact Hs'.
      * apply IH; exact Hs'.
    + apply sound_ret; exact Hs.
Qed.

(** A loop in which every round ends in [break] or lowers a measure that
    the fuel covers: it ends. *)
Lemma sound_while_bounded {S} (mu : S -> nat) (cond : S -> bool)
    (body : S -> M (S * bool)) :
  (forall s, cond s = true -> 0 < mu s) ->
  (forall s, cond s = true ->
     sound R hang_ok (fun r => snd r = true \/ mu (fst r) < mu s) (body s)) ->
  forall fuel s, mu s <= fuel -> sound R hang_ok any (while_loop fuel cond body s).
Proof.
  intros Hpos Hb. induction fuel as [| fuel IH]; intros s Hmu; simpl.
  - destruct (cond s) eqn:Hc.
    + specialize (Hpos s Hc). lia.
    + apply sound_ret; exact I.
  - destruct (cond s) eqn:Hc.
    + apply sound_bind with (P := fun r => snd r = true \/ mu (fst r) < mu s); [auto|].
      intros [s' brk] Hs'; simpl in *. destruct brk.
      * apply sound_ret; exact I.
      * apply IH. destruct Hs' as [Hs' | Hs']; [discriminate | lia].
    + apply sound_ret; exact I.
Qed.

End Logic.

Lemma sound_mono (R R' : World -> World -> Prop) (h : Prop) {A} (Q : A -> Prop) (m : M A) :
  (forall w w', R w w' -> R' w w') -> sound R h Q m -> sound R' h Q m.
Proof. intros HR H env w. destruct (H env w) as [H1 H2]. split; auto. Qed.

(** Decompose a goal [sound R h Q m] along the structure of [m], given
    that [R] is reflexive and transitive; what the rules do not cover is
    left to the hints. *)
Ltac sound_step refl trans :=
  lazymatch goal with
  | |- sound _ _ _ (bind _ _) => apply (sound_seq _ trans)
  | |- sound _ _ _ (ret _) => apply (sound_ret _ refl)
  | |- sound _ _ _ (throw _) => apply (sound_throw _ refl)
  | |- sound _ _ _ (throw_error _) => apply (sound_throw_error _ refl)
  | |- sound _ _ _ (asks _) => apply (sound_asks _ refl); intros
  | |- sound _ _ _ (gets _) => apply (sound_gets _ refl); intros
  | |- sound _ _ _ (try_catch _ _) => apply (sound_try_catch _ trans)
  | |- sound _ _ _ (catch_default _ _) => apply (sound_catch_default _ refl trans)
  | |- sound _ _ _ (try_finally _ _) => apply (sound_try_finally _ trans)
  | |- sound _ _ _ (for_each _ _) => apply (sound_for_each _ refl trans)
  | |- sound _ _ _ (if ?b then _ else _) => destruct b eqn:?
  | |- sound _ _ _ (match ?x with _ => _ end) => destruct x eqn:?
  | |- any _ => exact I
  | |- forall _, _ => intro
  end.

Create HintDb handlers.

Ltac sound_auto refl trans :=
  repeat first [ solve [auto with handlers] | sound_step refl trans ].

(** ** Steps that close nothing *)

Lemma good_refl w : good w w.
Proof.
  split; [reflexivity|]. exists []. split; [|reflexivity].
  unfold extends. rewrite app_nil_r. reflexivity.
Qed.

Lemma good_trans a b c : good a b -> good b c -> good a c.
Proof.
  intros [Hg1 (e1 & He1 & Hb1)] [Hg2 (e2 & He2 & Hb2)]. split; [congruence|].
  exists (e1 ++ e2). unfold extends in *. split.
  - rewrite He2, He1, app_assoc. reflexivity.
  - rewrite forallb_app, Hb1, Hb2. reflexivity.
Qed.

Lemma quiet_refl w : quiet w w.
Proof. split; [apply good_refl | reflexivity]. Qed.

Lemma quiet_trans a b c : quiet a b -> quiet b c -> quiet a c.
Proof.
  intros [H1 L1] [H2 L2]. split; [eapply good_trans; eassumption | congruence].
Qed.

Lemma quiet_good w w' : quiet w w' -> good w w'.
Proof. intros [H _]; exact H. Qed.

(** A world update that adds benign events and keeps the rest. *)
Lemma quiet_add w w' evs :
  globalBrowser w' = globalBrowser w -> locals w' = locals w ->
  trace w' = trace w ++ evs -> forallb benign evs = true -> quiet w w'.
Proof.
  intros Hg Hl Ht Hb. split; [|exact Hl]. split; [exact Hg|].
  exists evs. split; assumption.
Qed.

Lemma quiet_same w w' :
  globalBrowser w' = globalBrowser w -> locals w' = locals w ->
  trace w' = trace w -> quiet w w'.
Proof.
  intros Hg Hl Ht. apply quiet_add with (evs := []); auto.
  rewrite app_nil_r. exact Ht.
Qed.

Ltac quiet_auto := sound_auto quiet_refl quiet_trans.
Ltac good_auto := sound_auto good_refl good_trans.

Section QuietSteps.

Variable h : Prop.

Lemma quiet_call op : sound quiet h any (call op).
Proof.
  intros env w. unfold call. split.
  - destruct (fails env op (clock w)); simpl;
      apply quiet_add with (evs := [Called op]); reflexivity.
  - destruct (fails env op (clock w)); simpl; exact I.
Qed.

Lemma quiet_modify (f : World -> World) :
  (forall w, quiet w (f w)) -> sound quiet h any (modify f).
Proof. intros H. apply sound_modify; [exact H | exact I]. Qed.

Lemma quiet_emit e : benign e = true -> sound quiet h any (emit e).
Proof.
  intros He. apply quiet_modify. intros w.
  apply quiet_add with (evs := [e]); simpl;
    [reflexivity | reflexivity | reflexivity | now rewrite He].
Qed.

Lemma quiet_new_handle : sound quiet h any new_handle.
Proof. intros env w; simpl. split; [apply quiet_same; reflexivity | exact I]. Qed.

Lemma quiet_randomDelay min max : sound quiet h any (randomDelay min max).
Proof. intros env w; simpl. split; [apply quiet_same; reflexivity | exact I]. Qed.

Lemma quiet_round_trip op : sound quiet h any (Supabase.round_trip op).
Proof.
  intros env w; simpl. split; [|exact I].
  apply quiet_add with (evs := [Called op]); reflexivity.
Qed.

Lemma quiet_insert_log id res msg : sound quiet h any (Supabase.insert_log id res msg).
Proof.
  apply quiet_modify. intros w.
  apply quiet_add with (evs := [Called (DbInsert "task_logs")]); reflexivity.
Qed.

Lemma quiet_update_task id f : sound quiet h any (Supabase.update_task id f).
Proof.
  apply quiet_modify. intros w.
  apply quiet_add with (evs := [Called (DbUpdate "tasks")]); reflexivity.
Qed.

Lemma quiet_update_account id f : sound quiet h any (Supabase.update_account id f).
Proof.
  apply quiet_modify. intros w.
  apply quiet_add with (evs := [Called (DbUpdate "social_accounts")]); reflexivity.
Qed.

Lemma quiet_with_tasks f : sound quiet h any (modify (fun w => with_tasks (f w) w)).
Proof. apply quiet_modify. intros w. apply quiet_same; reflexivity. Qed.

Lemma quiet_with_accounts f : sound quiet h any (modify (fun w => with_accounts (f w) w)).
Proof. apply quiet_modify. intros w. apply quiet_same; reflexivity. Qed.

End QuietSteps.

#[local] Hint Resolve quiet_call quiet_emit quiet_new_handle quiet_randomDelay
  quiet_round_trip quiet_insert_log quiet_update_task quiet_update_account
  quiet_with_tasks quiet_with_accounts : handlers.

#[local] Hint Unfold call_ call_bool call_number call_text
  page_goto page_waitForTimeout page_waitForSelector page_reload
  locator_isVisible locator_count locator_textContent locator_click locator_fill
  human_pause get_context get_page
  Supabase.update_task_status Supabase.select_account Supabase.insert_task
  Http.request_json Zod.parse : handlers.

Section QuietBlocks.

Variable h : Prop.

Lemma quiet_createStealthSetup cookies proxy headless :
  sound quiet h any (PlaywrightConfig.createStealthSetup cookies proxy headless).
Proof.
  unfold PlaywrightConfig.createStealthSetup, PlaywrightConfig.chromium_launch,
    PlaywrightConfig.browser_newContext, PlaywrightConfig.restore_cookies,
    PlaywrightConfig.parseCookies, PlaywrightConfig.json_parse,
    PlaywrightConfig.context_addCookies, PlaywrightConfig.context_newPage.
  autounfold with handlers. quiet_auto.
Qed.

End QuietBlocks.

#[local] Hint Resolve quiet_createStealthSetup : handlers.

(** ** The twitter like handler *)

Lemma quiet_verify_like initial : sound quiet False any (TwitterLike.verify_like initial).
Proof.
  unfold TwitterLike.verify_like.
  apply (sound_seq _ quiet_trans); [|intros; apply (sound_ret _ quiet_refl); exact I].
  apply (sound_while_bounded quiet quiet_refl quiet_trans False
           (fun s => TwitterLike.maxRetries - snd s)).
  - intros [v n]; cbn [fst snd]. intros H. apply andb_prop in H. destruct H as [H _].
    apply Nat.ltb_lt in H. unfold TwitterLike.maxRetries in *. lia.
  - intros [v n] Hc. unfold TwitterLike.verify_round; cbn [fst snd].
    apply sound_bind with (P := any); [exact quiet_trans | |].
    + unfold TwitterLike.verifications. autounfold with handlers. quiet_auto.
    + intros likeVerified _.
      destruct (negb likeVerified && (n <? TwitterLike.maxRetries - 1)%nat) eqn:E.
      * autounfold with handlers. apply (sound_seq _ quiet_trans); [quiet_auto|].
        intros _. apply (sound_ret _ quiet_refl). right; cbn [fst snd].
        apply andb_prop in E. destruct E as [_ E]. apply Nat.ltb_lt in E.
        unfold TwitterLike.maxRetries in *. lia.
      * apply (sound_ret _ quiet_refl). left; reflexivity.
  - cbn [fst snd]. unfold TwitterLike.maxRetries. lia.
Qed.

#[local] Hint Resolve quiet_verify_like : handlers.

Lemma quiet_like_drive f task : sound quiet False any (TwitterLike.drive f task).
Proof. unfold TwitterLike.drive. autounfold with handlers. quiet_auto. Qed.

Lemma quiet_like_on_failure task e : sound quiet False any (TwitterLike.on_failure task e).
Proof. unfold TwitterLike.on_failure. autounfold with handlers. quiet_auto. Qed.

(* ===================================================================== *)
(** * Handlers on a page that answers *)
(* ===================================================================== *)

Lemma same_store_refl w : same_store w w.
Proof. repeat split. Qed.

Lemma same_store_trans a b c : same_store a b -> same_store b c -> same_store a c.
Proof.
  intros (A1 & A2 & A3 & A4) (B1 & B2 & B3 & B4). repeat split; congruence.
Qed.

Lemma passive_refl w : passive w w.
Proof. exists []. split; [unfold extends; now rewrite app_nil_r | reflexivity]. Qed.

Lemma passive_trans a b c : passive a b -> passive b c -> passive a c.
Proof.
  intros (e1 & He1 & Hp1) (e2 & He2 & Hp2). exists (e1 ++ e2). unfold extends in *. split.
  - rewrite He2, He1, app_assoc. reflexivity.
  - rewrite existsb_app, Hp1, Hp2. reflexivity.
Qed.

Section Steady.

Variable R : World -> World -> Prop.
Hypothesis R_refl : forall w, R w w.
Hypothesis R_trans : forall a b c, R a b -> R b c -> R a c.
Variable env : Env.

Lemma steady_ret {A} (Q : A -> Prop) (a : A) : Q a -> steady R env Q (ret a).
Proof. intros H w; simpl; auto. Qed.

Lemma steady_asks {A} (Q : A -> Prop) (f : Env -> A) :
  Q (f env) -> steady R env Q (asks f).
Proof. intros H w; simpl; auto. Qed.

Lemma steady_gets {A} (Q : A -> Prop) (f : World -> A) :
  (forall w, Q (f w)) -> steady R env Q (gets f).
Proof. intros H w; simpl; auto. Qed.

Lemma steady_modify (Q : unit -> Prop) (f : World -> World) :
  (forall w, R w (f w)) -> Q tt -> steady R env Q (modify f).
Proof. intros H HQ w; simpl; auto. Qed.

Lemma steady_weaken {A} (P Q : A -> Prop) (m : M A) :
  steady R env P m -> (forall a, P a -> Q a) -> steady R env Q m.
Proof.
  intros H HPQ w. destruct (H w) as [HR Hres]. split; [exact HR|].
  destruct (fst (m env w)); auto.
Qed.

Lemma steady_bind {A B} (P : A -> Prop) (Q : B -> Prop) (m : M A) (f : A -> M B) :
  steady R env P m ->
  (forall a, P a -> steady R env Q (f a)) ->
  steady R env Q (bind m f).
Proof.
  intros Hm Hf w. unfold bind.
  destruct (Hm w) as [HR Hres].
  destruct (m env w) as [[a | e |] w1]; simpl in *; try contradiction.
  destruct (Hf a Hres w1) as [HR' Hres']. split; [eauto | exact Hres'].
Qed.

Lemma steady_seq {A B} (Q : B -> Prop) (m : M A) (f : A -> M B) :
  steady R env any m ->
  (forall a, steady R env Q (f a)) ->
  steady R env Q (bind m f).
Proof. intros Hm Hf. apply steady_bind with (P := any); auto. Qed.

(** A [try] whose body goes through is the body. *)
Lemma steady_try_catch {A} (Q : A -> Prop) (m : M A) (h : Thrown -> M A) :
  steady R env Q m -> steady R env Q (try_catch m h).
Proof.
  intros Hm w. unfold try_catch. destruct (Hm w) as [HR Hres].
  destruct (m env w) as [[a | e |] w1]; simpl in *; try contradiction. auto.
Qed.

(** A [try] whose body may throw, with a handler that goes through. *)
Lemma steady_recover {A} (Q : A -> Prop) (m : M A) (h : Thrown -> M A) :
  sound R False Q m ->
  (forall e, steady R env Q (h e)) ->
  steady R env Q (try_catch m h).
Proof.
  intros Hm Hh w. unfold try_catch. destruct (Hm env w) as [HR Hres].
  destruct (m env w) as [[a | e |] w1]; simpl in *; try contradiction; auto.
  destruct (Hh e w1) as [HR' Hres']. split; [eauto | exact Hres'].
Qed.

Lemma steady_catch_default {A} (m : M A) (d : A) :
  steady R env any m -> steady R env any (catch_default m d).
Proof. apply steady_try_catch. Qed.

Lemma steady_for_each {A} (l : list A) (body : A -> M unit) :
  (forall a, steady R env any (body a)) ->
  steady R env any (for_each l body).
Proof.
  intros Hb. induction l as [| x rest IH]; simpl.
  - apply steady_ret. exact I.
  - apply steady_seq; auto.
Qed.

(** What a steady block evaluates to. *)
Lemma steady_run {A} (Q : A -> Prop) (m : M A) (d : A) w :
  steady R env Q m ->
  m env w = (Ok (match fst (m env w) with Ok a => a | _ => d end), snd (m env w)).
Proof.
  intros H. destruct (H w) as [_ Hres].
  destruct (m env w) as [[a | e |] w1]; simpl in *; try contradiction. reflexivity.
Qed.

Lemma steady_run_unit (Q : unit -> Prop) (m : M unit) w :
  steady R env Q m -> m env w = (Ok tt, snd (m env w)).
Proof.
  intros H. rewrite (steady_run Q m tt w H) at 1.
  destruct (fst (m env w)) as [[] | |]; reflexivity.
Qed.

Lemma rejects_throw_error {A} msg : rejects R env msg (throw_error (A := A) msg).
Proof. intros w; simpl. split; [apply R_refl | reflexivity]. Qed.

Lemma rejects_bind {A B} (Q : A -> Prop) msg (m : M A) (f : A -> M B) :
  steady R env Q m -> (forall a, Q a -> rejects R env msg (f a)) ->
  rejects R env msg (bind m f).
Proof.
  intros Hm Hf w. unfold bind. destruct (Hm w) as [HR Hres].
  destruct (m env w) as [[a | e |] w1]; simpl in *; try contradiction.
  destruct (Hf a Hres w1) as [HR' Hres']. split; [eapply R_trans; eauto | exact Hres'].
Qed.

(** What a rejecting block evaluates to. *)
Lemma rejects_run {A} msg (m : M A) w :
  rejects R env msg m -> m env w = (Throw (ErrorObj msg), snd (m env w)).
Proof.
  intros H. destruct (H w) as [_ Hres].
  destruct (m env w) as [r w1]; simpl in *. rewrite Hres. reflexivity.
Qed.

End Steady.

Lemma steady_mono (R R' : World -> World -> Prop) env {A} (Q : A -> Prop) (m : M A) :
  (forall w w', R w w' -> R' w w') -> steady R env Q m -> steady R' env Q m.
Proof. intros HR H w. destruct (H w) as [H1 H2]. split; [apply HR; exact H1 | exact H2]. Qed.

Lemma same_logs_refl w : same_logs w w.
Proof. split; reflexivity. Qed.

Lemma same_logs_trans a b c : same_logs a b -> same_logs b c -> same_logs a c.
Proof. intros [H1 H2] [H3 H4]. split; congruence. Qed.

Lemma same_store_logs w w' : same_store w w' -> same_logs w w'.
Proof. intros (_ & Ht & Hl & _). split; assumption. Qed.

Ltac steady_step refl trans :=
  lazymatch goal with
  | |- steady _ _ _ (bind _ _) => apply (steady_seq _ trans)
  | |- steady _ _ _ (ret _) => apply (steady_ret _ refl)
  | |- steady _ _ _ (asks _) => apply (steady_asks _ refl)
  | |- steady _ _ _ (gets _) => apply (steady_gets _ refl); intros
  | |- steady _ _ _ (try_catch _ _) => apply steady_try_catch
  | |- steady _ _ _ (catch_default _ _) => apply steady_catch_default
  | |- steady _ _ _ (for_each _ _) => apply (steady_for_each _ refl trans)
  | |- steady _ _ _ (if ?b then _ else _) => destruct b eqn:?
  | |- steady _ _ _ (match ?x with _ => _ end) => destruct x eqn:?
  | |- any _ => exact I
  | |- forall _, _ => intro
  end.

Create HintDb steady.

Ltac steady_auto :=
  repeat first [ solve [auto with steady] | steady_step same_store_refl same_store_trans ].

Section SteadySteps.

Variable env : Env.
Hypothesis Hrel : reliable env.

Lemma steady_call op : steady same_store env any (call op).
Proof.
  intros w. unfold call. rewrite Hrel. simpl. split; [repeat split | exact I].
Qed.

Lemma steady_randomDelay min max : steady same_store env any (randomDelay min max).
Proof. intros w; simpl. split; [repeat split | exact I]. Qed.

Lemma steady_emit e : steady same_store env any (emit e).
Proof. intros w; simpl. split; [repeat split | exact I]. Qed.

Lemma steady_new_handle : steady same_store env any new_handle.
Proof. intros w; simpl. split; [repeat split | exact I]. Qed.

End SteadySteps.

#[local] Hint Resolve steady_call steady_randomDelay steady_emit steady_new_handle : steady.

Section SteadyBlocks.

Variable env : Env.
Hypothesis Hrel : reliable env.

Lemma steady_parseCookies s : steady same_store env any (PlaywrightConfig.parseCookies s).
Proof.
  unfold PlaywrightConfig.parseCookies. apply (steady_recover _ same_store_trans).
  - unfold PlaywrightConfig.json_parse. sound_auto same_store_refl same_store_trans.
  - intros e. apply (steady_ret _ same_store_refl). exact I.
Qed.

Hint Resolve steady_parseCookies : steady.

Lemma steady_createStealthSetup cookies proxy headless :
  steady same_store env any (PlaywrightConfig.createStealthSetup cookies proxy headless).
Proof.
  unfold PlaywrightConfig.createStealthSetup, PlaywrightConfig.chromium_launch,
    PlaywrightConfig.browser_newContext, PlaywrightConfig.restore_cookies,
    PlaywrightConfig.context_addCookies, PlaywrightConfig.context_newPage.
  autounfold with handlers. steady_auto.
Qed.

End SteadyBlocks.

#[local] Hint Resolve steady_createStealthSetup : steady.

(** ** Steps that are no protocol steps *)

Lemma passive_call h op :
  protocol_step (Called op) = false -> sound passive h any (call op).
Proof.
  intros Hp env w. unfold call. split.
  - destruct (fails env op (clock w)); simpl; exists [Called op];
      (split; [reflexivity | cbn [existsb]; rewrite Hp; reflexivity]).
  - destruct (fails env op (clock w)); simpl; exact I.
Qed.

Lemma passive_emit h e : protocol_step e = false -> sound passive h any (emit e).
Proof.
  intros Hp. apply sound_modify; [|exact I]. intros w.
  exists [e]. split; [reflexivity | cbn [existsb]; rewrite Hp; reflexivity].
Qed.

Lemma passive_new_handle h : sound passive h any new_handle.
Proof.
  intros env w; simpl. split; [|exact I].
  exists []. split; [unfold extends; simpl; now rewrite app_nil_r | reflexivity].
Qed.

Lemma passive_createStealthSetup h cookies proxy headless :
  sound passive h any (PlaywrightConfig.createStealthSetup cookies proxy headless).
Proof.
  pose proof (passive_new_handle h).
  unfold PlaywrightConfig.createStealthSetup, PlaywrightConfig.chromium_launch,
    PlaywrightConfig.browser_newContext, PlaywrightConfig.restore_cookies,
    PlaywrightConfig.parseCookies, PlaywrightConfig.json_parse,
    PlaywrightConfig.context_addCookies, PlaywrightConfig.context_newPage, call_.
  repeat first
    [ assumption
    | apply passive_call; reflexivity
    | apply passive_emit; reflexivity
    | sound_step passive_refl passive_trans ].
Qed.

(* ===================================================================== *)
(** * Running a handler step by step *)
(* ===================================================================== *)

Lemma run_bind {A B} (m : M A) (f : A -> M B) env w r w1 X :
  m env w = (r, w1) ->
  match r with
  | Ok a => f a env w1
  | Throw e => (Throw e, w1)
  | Hang => (Hang, w1)
  end = X ->
  bind m f env w = X.
Proof. intros Hm HX. unfold bind. rewrite Hm. destruct r; exact HX. Qed.

Lemma run_try_catch {A} (m : M A) (h : Thrown -> M A) env w r w1 X :
  m env w = (r, w1) ->
  match r with
  | Throw e => h e env w1
  | other => (other, w1)
  end = X ->
  try_catch m h env w = X.
Proof. intros Hm HX. unfold try_catch. rewrite Hm. destruct r; exact HX. Qed.

Lemma run_try_finally {A} (m : M A) (fin : M unit) env w r w1 r' w2 X :
  m env w = (r, w1) ->
  fin env w1 = (r', w2) ->
  match r with
  | Hang => (Hang, w1)
  | _ => match r' with
         | Ok _ => (r, w2)
         | Throw e => (Throw e, w2)
         | Hang => (Hang, w2)
         end
  end = X ->
  try_finally m fin env w = X.
Proof.
  intros Hm Hf HX. unfold try_finally. rewrite Hm.
  destruct r; [rewrite Hf | rewrite Hf |]; exact HX.
Qed.

(** One call in an environment in which it does not reject. *)
Lemma run_call env op w :
  fails env op (clock w) = None ->
  call op env w = (Ok (clock w), with_clock (S (clock w)) (with_trace (trace w ++ [Called op]) w)).
Proof. intros H. unfold call. rewrite H. reflexivity. Qed.

Lemma run_round_trip env op w :
  fails env op (clock w) = None ->
  Supabase.round_trip op env w =
  (Ok false, with_clock (S (clock w)) (with_trace (trace w ++ [Called op]) w)).
Proof. intros H. unfold Supabase.round_trip. rewrite H. reflexivity. Qed.

Lemma run_if_true {A} (b : bool) (m1 m2 : M A) env w X :
  b = true -> m1 env w = X -> (if b then m1 else m2) env w = X.
Proof. intros -> H; exact H. Qed.

Lemma run_if_false {A} (b : bool) (m1 m2 : M A) env w X :
  b = false -> m2 env w = X -> (if b then m1 else m2) env w = X.
Proof. intros -> H; exact H. Qed.

Lemma run_while_done {S} (fuel : nat) (cond : S -> bool) (body : S -> M (S * bool))
    (s : S) (env : Env) (w : World) (X : Result S * World) :
  cond s = false -> (Ok s, w) = X -> while_loop fuel cond body s env w = X.
Proof. intros Hc HX. destruct fuel; simpl; rewrite Hc; exact HX. Qed.

Lemma run_while_step {S} (fuel : nat) (cond : S -> bool) (body : S -> M (S * bool))
    (s : S) (env : Env) (w : World) (X : Result S * World) :
  cond s = true ->
  bind (body s)
    (fun r => if snd r then ret (fst r) else while_loop fuel cond body (fst r)) env w = X ->
  while_loop (Datatypes.S fuel) cond body s env w = X.
Proof. intros Hc HX. simpl. rewrite Hc. exact HX. Qed.

Ltac head_of t :=
  lazymatch t with
  | ?f _ => head_of f
  | _ => t
  end.

(** The fields of a world that was built by the model's updates. *)
Tactic Notation "world_simpl" :=
  cbn [clock fresh globalBrowser locals accounts tasks task_logs trace context page
       with_clock with_fresh with_globalBrowser with_locals with_accounts with_tasks
       with_task_logs with_trace fst snd].
Tactic Notation "world_simpl" "in" hyp(H) :=
  cbn [clock fresh globalBrowser locals accounts tasks task_logs trace context page
       with_clock with_fresh with_globalBrowser with_locals with_accounts with_tasks
       with_task_logs with_trace fst snd] in H.

(** A step that is an update of the world: the new world is kept in the
    form of a record. *)
Ltac run_update :=
  cbv beta delta [emit modify new_handle randomDelay gets ret throw throw_error hang
                  Supabase.insert_log Supabase.update_task Supabase.update_account];
  world_simpl; reflexivity.

(** Evaluate a goal [m env w = X] along the structure of [m].  [simp]
    rewrites with the facts of the scenario, [rel] proves that a call
    does not reject.  The tactic stops where it meets a block or a test
    that it cannot decide, and leaves that goal. *)
Ltac run simp rel :=
  lazymatch goal with
  | |- bind _ _ _ _ = _ =>
      eapply run_bind; [run simp rel | cbv beta iota; run simp rel]
  | |- try_catch _ _ _ _ = _ =>
      eapply run_try_catch; [run simp rel | cbv beta iota; run simp rel]
  | |- catch_default _ _ _ _ = _ => unfold catch_default; run simp rel
  | |- try_finally _ _ _ _ = _ =>
      eapply run_try_finally; [run simp rel | run simp rel | cbv beta iota; run simp rel]
  | |- (_, _) = _ => reflexivity
  | |- ret _ _ _ = _ => reflexivity
  | |- throw _ _ _ = _ => reflexivity
  | |- throw_error _ _ _ = _ => reflexivity
  | |- hang _ _ = _ => reflexivity
  | |- asks _ _ _ = _ => unfold asks; cbv beta; simp; reflexivity
  | |- gets _ _ _ = _ => run_update
  | |- modify _ _ _ = _ => run_update
  | |- emit _ _ _ = _ => run_update
  | |- new_handle _ _ = _ => run_update
  | |- randomDelay _ _ _ _ = _ => run_update
  | |- Supabase.insert_log _ _ _ _ _ = _ => run_update
  | |- Supabase.update_task _ _ _ _ = _ => run_update
  | |- Supabase.update_account _ _ _ _ = _ => run_update
  | |- call _ _ _ = _ =>
      etransitivity; [apply run_call; rel | world_simpl; reflexivity]
  | |- Supabase.round_trip _ _ _ = _ =>
      etransitivity; [apply run_round_trip; rel | world_simpl; reflexivity]
  | |- (if ?b then _ else _) _ _ = _ =>
      first [ eapply run_if_true; [solve [repeat (progress (world_simpl; simp)); reflexivity] | run simp rel]
            | eapply run_if_false; [solve [repeat (progress (world_simpl; simp)); reflexivity] | run simp rel]
            | lazymatch type of b with bool => fail | _ => idtac end;
              let E := fresh "E" in
              eassert (E : b = _) by (repeat (progress (world_simpl; simp)); reflexivity);
              progress (rewrite E); clear E; cbv beta iota; run simp rel
            | idtac ]
  | |- (match ?x with _ => _ end) _ _ = _ =>
      let E := fresh "E" in
      first [ eassert (E : x = _) by (repeat (progress (world_simpl; simp)); reflexivity);
              progress (rewrite E); clear E; cbv beta iota; run simp rel
            | idtac ]
  | |- (match ?x with _ => _ end) = _ =>
      let E := fresh "E" in
      first [ eassert (E : x = _) by (repeat (progress (world_simpl; simp)); reflexivity);
              progress (rewrite E); clear E; cbv beta iota; run simp rel
            | idtac ]
  | |- while_loop _ _ _ _ _ _ = _ =>
      first [ eapply run_while_done; [solve [repeat (progress (world_simpl; simp)); reflexivity] | reflexivity]
            | eapply run_while_step; [solve [repeat (progress (world_simpl; simp)); reflexivity] | run simp rel]
            | idtac ]
  | |- PlaywrightConfig.createStealthSetup _ _ _ _ _ = _ =>
      apply (steady_run same_store _ any _ (0, 0)); solve [eauto with steady]
  | |- ?lhs = _ =>
      first [ apply (steady_run_unit same_store _ any); solve [eauto with steady]
            | apply (rejects_run same_logs); solve [eauto with steady]
            | let h := head_of lhs in progress (unfold h); run simp rel
            | idtac ]
  end.

Lemma good_of_quiet (h : Prop) {A} (Q : A -> Prop) (m : M A) :
  sound quiet h Q m -> sound good h Q m.
Proof. apply sound_mono. exact quiet_good. Qed.

Lemma good_set_context h c : sound good h any (set_context c).
Proof.
  apply sound_modify; [|exact I]. intros w. split; [reflexivity|].
  exists []. split; [|reflexivity]. unfold extends; simpl. now rewrite app_nil_r.
Qed.

Lemma good_set_page h p : sound good h any (set_page p).
Proof.
  apply sound_modify; [|exact I]. intros w. split; [reflexivity|].
  exists []. split; [|reflexivity]. unfold extends; simpl. now rewrite app_nil_r.
Qed.

#[local] Hint Resolve good_of_quiet good_set_context good_set_page : handlers.

(** ** Counting what a run closed *)

Lemma events_since_extends w w' evs : extends w w' evs -> events_since w w' = evs.
Proof.
  unfold extends, events_since. intros ->.
  rewrite skipn_app, skipn_all, Nat.sub_diag. reflexivity.
Qed.

Lemma closes_app c e1 e2 : closes c (e1 ++ e2) = closes c e1 + closes c e2.
Proof. unfold closes. rewrite filter_app, length_app. reflexivity. Qed.

Lemma browser_closes_app e1 e2 :
  browser_closes (e1 ++ e2) = browser_closes e1 ++ browser_closes e2.
Proof. unfold browser_closes. apply flat_map_app. Qed.

Lemma benign_closes c evs : forallb benign evs = true -> closes c evs = 0.
Proof.
  unfold closes. induction evs as [| e rest IH]; simpl; [reflexivity|].
  intros H. apply andb_prop in H. destruct H as [He Hrest].
  destruct e; simpl in *; try discriminate; auto.
Qed.

Lemma benign_browser_closes evs : forallb benign evs = true -> browser_closes evs = [].
Proof.
  unfold browser_closes. induction evs as [| e rest IH]; simpl; [reflexivity|].
  intros H. apply andb_prop in H. destruct H as [He Hrest].
  destruct e; simpl in *; try discriminate; auto.
Qed.

(** The world after [let context = null, page = null]. *)
Lemma reset_locals_run {A} (m : M A) env w :
  (set_context None ;; set_page None ;; m) env w =
  m env (with_locals {| context := None; page := None |} w).
Proof. reflexivity. Qed.

Lemma reliable_closes_cleanly env : reliable env -> closes_cleanly env.
Proof. intros H op t _. apply H. Qed.

(** [if (context) await context.close()] when there is no context. *)
Lemma close_context_if_open_none env w :
  context (locals w) = None -> close_context_if_open env w = (Ok tt, w).
Proof.
  intros H. unfold close_context_if_open, get_context, gets, bind. rewrite H. reflexivity.
Qed.

(** The world after [if (context) await context.close()]. *)
Lemma close_context_if_open_run env w :
  closes_cleanly env ->
  exists w2,
    close_context_if_open env w = (Ok tt, w2) /\
    locals w2 = locals w /\
    globalBrowser w2 = globalBrowser w /\
    extends w w2
      match context (locals w) with
      | Some c => [Called ContextClose; ContextClosed c]
      | None => []
      end.
Proof.
  intros Hcl. destruct (context (locals w)) as [c |] eqn:Hc.
  - eexists. split.
    + unfold close_context_if_open.
      run ltac:(rewrite ?Hc) ltac:(apply Hcl; reflexivity).
    + world_simpl. repeat split. unfold extends. world_simpl.
      rewrite <- app_assoc. reflexivity.
  - exists w. split; [apply close_context_if_open_none; exact Hc|].
    repeat split. unfold extends. rewrite app_nil_r. reflexivity.
Qed.

Lemma closed_after_benign w w1 w2 evs :
  extends w w1 evs -> forallb benign evs = true ->
  extends w1 w2
    match context (locals w1) with
    | Some c => [Called ContextClose; ContextClosed c]
    | None => []
    end ->
  locals w2 = locals w1 ->
  context_closed_once w w2 /\
  browser_closes (events_since w w2) = [].
Proof.
  intros Hext Hben Hext2 Hl. unfold context_closed_once. rewrite Hl.
  destruct (context (locals w1)) as [c |] eqn:Hc.
  - assert (Hx : extends w w2 (evs ++ [Called ContextClose; ContextClosed c])).
    { unfold extends in *. rewrite Hext2, Hext, app_assoc. reflexivity. }
    rewrite (events_since_extends _ _ _ Hx).
    split; [split; [exact Hx|] |].
    + intros c'. rewrite closes_app, (benign_closes _ _ Hben). unfold closes; simpl.
      rewrite (Nat.eqb_sym c c'). destruct (c' =? c)%nat; reflexivity.
    + rewrite browser_closes_app, (benign_browser_closes _ Hben). reflexivity.
  - assert (Hx : extends w w2 evs).
    { unfold extends in *. rewrite Hext2, Hext, app_nil_r. reflexivity. }
    rewrite (events_since_extends _ _ _ Hx).
    split; [split; [exact Hx|] |].
    + intros c'. apply benign_closes; exact Hben.
    + apply benign_browser_closes; exact Hben.
Qed.

(** [try { body } finally { if (context) await context.close() }] around a
    body that closes nothing: the context in the variable is closed once. *)
Lemma scoped_context {A} (body : M A) :
  sound good False any body ->
  forall env w,
    closes_cleanly env ->
    let r := try_finally body close_context_if_open env w in
    fst r <> Hang /\
    context_closed_once w (snd r) /\
    browser_closes (events_since w (snd r)) = [] /\
    globalBrowser (snd r) = globalBrowser w.
Proof.
  intros Hb env w Hcl. unfold try_finally.
  destruct (Hb env w) as [[Hg (evs & Hext & Hben)] Hres].
  destruct (body env w) as [[a | e |] w1]; simpl in Hres, Hg, Hext; try contradiction.
  all: destruct (close_context_if_open_run env w1 Hcl) as (w2 & -> & Hl & Hgb & Hext2).
  all: cbn [fst snd].
  all: destruct (closed_after_benign w w1 w2 evs Hext Hben Hext2 Hl) as (H1 & H2).
  all: repeat split; try discriminate; try apply H1; try exact H2; try congruence.
Qed.

(** A handler of the shape
    [let context = null; try { body } ... finally { if (context) await context.close() }]. *)
Lemma scoped_handler {A} (body : M A) :
  sound good False any body ->
  forall env w,
    closes_cleanly env ->
    let r := (set_context None ;; set_page None ;;
              try_finally body close_context_if_open) env w in
    fst r <> Hang /\
    context_closed_once w (snd r) /\
    browser_closes (events_since w (snd r)) = [] /\
    globalBrowser (snd r) = globalBrowser w.
Proof.
  intros Hb env w Hcl. rewrite reset_locals_run.
  set (w0 := with_locals _ w).
  destruct (scoped_context body Hb env w0 Hcl) as (H1 & [H2 H2'] & H3 & H4).
  assert (Hev : forall w', events_since w w' = events_since w0 w') by reflexivity.
  repeat split; auto.
Qed.

(** What such a handler answers, whatever the closing does. *)
Lemma handler_result {A} (Q : A -> Prop) (body : M A) :
  sound good False Q body ->
  forall env w a,
    fst ((set_context None ;; set_page None ;;
          try_finally body close_context_if_open) env w) = Ok a ->
    Q a.
Proof.
  intros Hb env w a. rewrite reset_locals_run.
  set (w0 := with_locals _ w). unfold try_finally.
  destruct (Hb env w0) as [_ Hres].
  destruct (body env w0) as [[x | e |] w1]; simpl in Hres; [| | contradiction].
  all: destruct (close_context_if_open env w1) as [[[] | e' |] w2]; simpl;
    intros H; inversion H; subst; exact Hres.
Qed.

(** ** The twitter like handler closes its context once *)

Lemma good_like_handle request : sound good False any (TwitterLike.handle request).
Proof.
  pose proof quiet_like_drive. pose proof quiet_like_on_failure.
  unfold TwitterLike.handle. autounfold with handlers. good_auto.
Qed.

Lemma like_scoped request env w :
  closes_cleanly env ->
  let r := TwitterLike.POST request env w in
  fst r <> Hang /\
  context_closed_once w (snd r) /\
  browser_closes (events_since w (snd r)) = [].
Proof.
  intros Hcl. unfold TwitterLike.POST.
  edestruct (scoped_handler (A := Http.Response)) as (H1 & H2 & H3 & _);
    [ | exact Hcl | split; [exact H1 | split; [exact H2 | exact H3]]].
  pose proof (good_like_handle request). good_auto.
Qed.

(** ** The twitter add-account handler *)

Section AddAccountBlocks.

Import TwitterAddAccount.
Variable h : Prop.

Lemma quiet_type_humanlike selector s min max :
  sound quiet h any (type_humanlike selector s min max).
Proof. unfold type_humanlike. autounfold with handlers. quiet_auto. Qed.

Lemma quiet_any_visible selector n : sound quiet h any (any_visible selector n).
Proof.
  induction n as [| n IH]; simpl; autounfold with handlers; quiet_auto.
Qed.

Lemma quiet_find_email_input selectors : sound quiet h any (find_email_input selectors).
Proof.
  pose proof quiet_any_visible.
  induction selectors as [| s rest IH]; simpl; autounfold with handlers; quiet_auto.
Qed.

Hint Resolve quiet_type_humanlike quiet_find_email_input : handlers.
Hint Unfold rethrow_with : handlers.

Lemma quiet_step_username f : sound quiet h any (step_username f).
Proof. unfold step_username. autounfold with handlers. quiet_auto. Qed.

Lemma quiet_step_password f : sound quiet h any (step_password f).
Proof. unfold step_password. autounfold with handlers. quiet_auto. Qed.

Lemma quiet_next_or_verify : sound quiet h any next_or_verify.
Proof. unfold next_or_verify. autounfold with handlers. quiet_auto. Qed.

Hint Resolve quiet_next_or_verify : handlers.

(** With a secret in hand, step 4 never takes the early [return]. *)
Lemma quiet_step_mfa f :
  Body.mfa_code f <> "" ->
  sound quiet h (fun r => match r with inl _ => False | inr _ => True end) (step_mfa f).
Proof.
  intros Hmfa. unfold step_mfa. autounfold with handlers. quiet_auto.
  all: try exact I.
  all: exfalso.
  all: match goal with
       | H : negb (Js.truthy _) || _ = true |- _ =>
           unfold Js.truthy in H; rewrite negb_involutive, orb_diag in H;
           apply String.eqb_eq in H; contradiction
       end.
Qed.

Lemma quiet_extract_username f : sound quiet h any (extract_username f).
Proof. unfold extract_username. autounfold with handlers. quiet_auto. Qed.

Hint Resolve quiet_extract_username : handlers.

Lemma quiet_check_login f : sound quiet h any (check_login f).
Proof.
  unfold check_login.
  apply (sound_while_bounded quiet quiet_refl quiet_trans h
           (fun s => maxRetries - retryCount s)).
  - intros s H. apply andb_prop in H. destruct H as [_ H].
    apply Nat.ltb_lt in H. unfold maxRetries in *. lia.
  - intros s Hc. apply andb_prop in Hc. destruct Hc as [_ Hc].
    apply Nat.ltb_lt in Hc. unfold maxRetries in *.
    unfold login_round. autounfold with handlers. quiet_auto.
    all: cbn [fst snd retryCount]; first [left; reflexivity | right; lia].
  - cbn [retryCount]. unfold maxRetries. lia.
Qed.

Lemma quiet_store_account user_id f existing s cookiesString :
  sound quiet h no_mfa_prompt (store_account user_id f existing s cookiesString).
Proof.
  unfold store_account, update_pending, insert_account. autounfold with handlers.
  quiet_auto. all: unfold no_mfa_prompt; simpl; discriminate.
Qed.

Lemma quiet_drive user_id f existing :
  Body.mfa_code f <> "" ->
  sound quiet h no_mfa_prompt (drive user_id f existing).
Proof.
  intros Hmfa. pose proof quiet_step_username. pose proof quiet_step_password.
  pose proof quiet_check_login. pose proof quiet_store_account.
  unfold drive. autounfold with handlers.
  do 4 (apply (sound_seq _ quiet_trans); [quiet_auto | intros _]).
  eapply sound_bind; [exact quiet_trans | apply (quiet_step_mfa f Hmfa) |].
  intros [response | []] Hr; [contradiction|]. quiet_auto.
Qed.

Lemma good_add_account user_id f :
  Body.mfa_code f <> "" ->
  sound good h no_mfa_prompt (add_account user_id f).
Proof.
  intros Hmfa. pose proof (fun e => quiet_drive user_id f e Hmfa).
  unfold add_account. autounfold with handlers. good_auto.
  all: unfold no_mfa_prompt; simpl; discriminate.
Qed.

End AddAccountBlocks.

(** What the schema lets through carries a secret. *)
Lemma addAccountSchema_mfa_code env body f :
  TwitterAddAccount.addAccountSchema env body = inr f ->
  exists s, Js.get body "mfa_code" = Js.Str s /\ s <> "" /\
            TwitterAddAccount.Body.mfa_code f = s.
Proof.
  unfold TwitterAddAccount.addAccountSchema. intros H.
  destruct (Js.get body "mfa_code") as [| | b | n | s] eqn:Hget; simpl in H.
  1-4: repeat match type of H with
         | match ?x with _ => _ end = _ => destruct x; try discriminate
         end.
  destruct (negb (s =? "")) eqn:Hs; simpl in H.
  - repeat match type of H with
           | match ?x with _ => _ end = _ => destruct x; try discriminate
           end.
    inversion H; subst; simpl. exists s. repeat split.
    intros ->. discriminate.
  - repeat match type of H with
           | match ?x with _ => _ end = _ => destruct x; try discriminate
           end.
Qed.

Lemma good_parse_addAccount h body :
  sound good h (fun f => TwitterAddAccount.Body.mfa_code f <> "")
    (Zod.parse TwitterAddAccount.addAccountSchema body).
Proof.
  intros env w. unfold Zod.parse, asks, bind.
  destruct (TwitterAddAccount.addAccountSchema env body) as [errs | f] eqn:Hs; simpl.
  - split; [apply good_refl | exact I].
  - split; [apply good_refl|].
    destruct (addAccountSchema_mfa_code env body f Hs) as (s & _ & Hne & Heq).
    congruence.
Qed.

Lemma good_add_account_handle request :
  sound good False no_mfa_prompt (TwitterAddAccount.handle request).
Proof.
  unfold TwitterAddAccount.handle.
  destruct (Http.session request) as [user_id |].
  - apply (sound_seq _ good_trans); [autounfold with handlers; good_auto | intros body].
    eapply sound_bind; [exact good_trans | apply good_parse_addAccount |].
    intros f Hf. apply good_add_account; exact Hf.
  - apply (sound_ret _ good_refl). unfold no_mfa_prompt; simpl; discriminate.
Qed.

Lemma good_add_account_POST_body request :
  sound good False no_mfa_prompt
    (try_catch (TwitterAddAccount.handle request)
       (fun error => ret (Http.internal_error error "Failed to add account"))).
Proof.
  apply (sound_try_catch _ good_trans); [apply good_add_account_handle|].
  intros e. apply (sound_ret _ good_refl). unfold no_mfa_prompt; simpl; discriminate.
Qed.

Lemma add_account_scoped request env w :
  closes_cleanly env ->
  let r := TwitterAddAccount.POST request env w in
  fst r <> Hang /\
  context_closed_once w (snd r) /\
  browser_closes (events_since w (snd r)) = [].
Proof.
  intros Hcl. unfold TwitterAddAccount.POST.
  edestruct (scoped_handler (A := Http.Response)) as (H1 & H2 & H3 & _);
    [ | exact Hcl | split; [exact H1 | split; [exact H2 | exact H3]]].
  apply sound_weaken with (P := no_mfa_prompt);
    [apply good_add_account_POST_body | intros; exact I].
Qed.

(** No answer of the add-account handler asks for the secret. *)
Lemma add_account_no_mfa_prompt request env w a :
  fst (TwitterAddAccount.POST request env w) = Ok a -> no_mfa_prompt a.
Proof.
  unfold TwitterAddAccount.POST.
  apply (handler_result no_mfa_prompt). apply good_add_account_POST_body.
Qed.

(** ** The facebook create-post task *)

Lemma quiet_inspect_elements h selector needle attributes :
  sound quiet h any (FacebookCreatePost.inspect_elements selector needle attributes).
Proof. unfold FacebookCreatePost.inspect_elements. autounfold with handlers. quiet_auto. Qed.

Lemma good_run_post task name : sound good False any (FacebookCreatePost.run_post task name).
Proof.
  pose proof quiet_inspect_elements.
  unfold FacebookCreatePost.run_post, FacebookCreatePost.post_as.
  autounfold with handlers. good_auto.
Qed.

(** ** The twitter follow handler *)

Lemma quiet_first_visible h selectors : sound quiet h any (TwitterFollow.first_visible selectors).
Proof.
  induction selectors as [| s rest IH]; simpl; autounfold with handlers; quiet_auto.
Qed.

Lemma quiet_search_button fuel selectors :
  sound quiet True any (TwitterFollow.search_button fuel selectors).
Proof.
  pose proof quiet_first_visible.
  unfold TwitterFollow.search_button.
  apply (sound_seq _ quiet_trans); [|intros; apply (sound_ret _ quiet_refl); exact I].
  apply (sound_while quiet quiet_refl quiet_trans True any); [exact I | | exact I].
  intros s _. apply sound_weaken with (P := any); [|intros; exact I].
  unfold TwitterFollow.search_round. autounfold with handlers. quiet_auto.
Qed.

Lemma quiet_follow_drive fuel f task : sound quiet True any (TwitterFollow.drive fuel f task).
Proof.
  pose proof quiet_search_button.
  unfold TwitterFollow.drive, TwitterFollow.follow_state. autounfold with handlers.
  quiet_auto.
Qed.

Lemma quiet_follow_on_failure f task e :
  sound quiet True any (TwitterFollow.on_failure f task e).
Proof. unfold TwitterFollow.on_failure. autounfold with handlers. quiet_auto. Qed.

(** ** Handlers whose [finally] is inside: the twitter follow handler *)

Lemma closed_ok_benign w w' :
  good w w' -> context (locals w') = None -> closed_ok w w'.
Proof.
  intros [_ (evs & Hext & Hben)] Hc. unfold closed_ok, context_closed_once.
  rewrite (events_since_extends _ _ _ Hext), Hc.
  split; [split; [exact Hext|] |].
  - intros c. apply benign_closes; exact Hben.
  - apply benign_browser_closes; exact Hben.
Qed.

Lemma closed_ok_after w w1 w' :
  good w w1 -> closed_ok w1 w' -> closed_ok w w'.
Proof.
  intros [_ (e1 & Hext1 & Hben1)] [[Hext2 Hc] Hb]. unfold closed_ok, context_closed_once.
  assert (Hx : extends w w' (e1 ++ events_since w1 w')).
  { unfold extends in *. rewrite Hext2, Hext1, app_assoc. reflexivity. }
  rewrite (events_since_extends _ _ _ Hx).
  split; [split; [exact Hx|] |].
  - intros c. rewrite closes_app, (benign_closes _ _ Hben1). apply Hc.
  - rewrite browser_closes_app, (benign_browser_closes _ Hben1). exact Hb.
Qed.

Lemma scoped_ret {A} (a : A) : scoped (ret a).
Proof. intros env w _ Hc _. simpl. apply closed_ok_benign; [apply good_refl | exact Hc]. Qed.

Lemma scoped_bind {A B} (m : M A) (f : A -> M B) :
  sound quiet True any m -> (forall a, scoped (f a)) -> scoped (bind m f).
Proof.
  intros Hm Hf env w Hcl Hc. unfold bind.
  destruct (Hm env w) as [[Hg Hl] _].
  destruct (m env w) as [[a | e |] w1]; simpl in *.
  - intros Hnh. apply closed_ok_after with (w1 := w1); [exact Hg|].
    apply Hf; [exact Hcl | congruence | exact Hnh].
  - intros _. apply closed_ok_benign; [exact Hg | congruence].
  - intros Hnh; contradiction.
Qed.

Lemma scoped_catch_ret {A} (m : M A) (h : Thrown -> A) :
  scoped m -> scoped (try_catch m (fun e => ret (h e))).
Proof.
  intros Hm env w Hcl Hc. unfold try_catch. specialize (Hm env w Hcl Hc).
  destruct (m env w) as [[a | e |] w1]; simpl in *; auto.
  intros _. apply Hm. discriminate.
Qed.

(** The block that takes the context and gives it back in [finally]. *)
Lemma scoped_with_context {A} (c p : nat) (body : M A) (no_page : M A) :
  sound good True any body ->
  scoped (set_context (Some c) ;; set_page (Some p) ;;
          q <- get_page ;;
          match q with
          | None => no_page
          | Some _ => try_finally body close_context_if_open
          end).
Proof.
  intros Hb env w Hcl Hc. unfold bind, set_context, set_page, get_page, gets, modify.
  cbn beta iota. cbn [locals with_locals page].
  set (w0 := with_locals _ (with_locals _ w)).
  unfold try_finally.
  destruct (Hb env w0) as [[Hg (evs & Hext & Hben)] _].
  destruct (body env w0) as [[a | e |] w1]; cbn [fst snd].
  3: intros Hnh; contradiction.
  all: destruct (close_context_if_open_run env w1 Hcl) as (w2 & -> & Hl & _ & Hext2).
  all: cbn [fst snd]; intros _.
  all: destruct (closed_after_benign w0 w1 w2 evs Hext Hben Hext2 Hl) as (H1 & H2).
  all: split; [exact H1 | exact H2].
Qed.

Lemma follow_handle_scoped fuel request : scoped (TwitterFollow.handle fuel request).
Proof.
  unfold TwitterFollow.handle.
  destruct (Http.session request) as [user_id |]; [|apply scoped_ret].
  apply scoped_bind; [autounfold with handlers; quiet_auto | intros body].
  apply scoped_bind; [autounfold with handlers; quiet_auto | intros f].
  apply scoped_bind; [autounfold with handlers; quiet_auto | intros [[account |] []]];
    try apply scoped_ret.
  apply scoped_bind; [autounfold with handlers; quiet_auto | intros [[task |] []]];
    try apply scoped_ret.
  apply scoped_bind; [apply quiet_createStealthSetup | intros [c p]].
  apply scoped_with_context.
  apply (sound_try_catch _ good_trans).
  - apply good_of_quiet, quiet_follow_drive.
  - intros e. apply good_of_quiet, quiet_follow_on_failure.
Qed.

Lemma follow_scoped fuel request env w :
  closes_cleanly env ->
  let r := TwitterFollow.POST fuel request env w in
  fst r <> Hang ->
  context_closed_once w (snd r) /\
  browser_closes (events_since w (snd r)) = [].
Proof.
  intros Hcl. unfold TwitterFollow.POST. rewrite reset_locals_run.
  set (w0 := with_locals _ w).
  intros Hnh.
  apply (scoped_catch_ret _ (fun error => Http.internal_error error "Failed to process request")
           (follow_handle_scoped fuel request) env w0); [exact Hcl | reflexivity | exact Hnh].
Qed.

(** ** [executePost]: the context once, and the global browser too *)

(** The [finally] block of [executePost]. *)
Lemma executePost_finally_run env w1 :
  closes_cleanly env ->
  exists w2,
    FacebookCreatePost.release env w1 = (Ok tt, w2) /\
    locals w2 = locals w1 /\
    trace w2 =
      trace w1 ++
      match page (locals w1) with
      | Some p => [Called PageClose; PageClosed p]
      | None => []
      end ++
      match context (locals w1) with
      | Some c => [Called ContextClose; ContextClosed c]
      | None => []
      end ++
      match globalBrowser w1 with
      | Some b => [Called BrowserClose; BrowserClosed b]
      | None => []
      end.
Proof.
  intros Hcl. destruct w1 as [ck fr gb [c p] ac ts lg tr].
  destruct gb, c, p; eexists.
  all: split;
    [ unfold FacebookCreatePost.release, close_context_if_open, PlaywrightConfig.cleanup;
      run ltac:(idtac) ltac:(apply Hcl; reflexivity) | ].
  all: world_simpl; split; [reflexivity|].
  all: rewrite <- ?app_assoc; cbn [app]; rewrite ?app_nil_r; reflexivity.
Qed.

Lemma executePost_scoped task name env w :
  closes_cleanly env ->
  let r := FacebookCreatePost.executePost task name env w in
  fst r <> Hang /\
  context_closed_once w (snd r) /\
  browser_closes (events_since w (snd r)) =
    match globalBrowser w with Some b => [b] | None => [] end.
Proof.
  intros Hcl. unfold FacebookCreatePost.executePost. rewrite reset_locals_run.
  set (w0 := with_locals _ w).
  set (body := try_catch _ _).
  assert (Hb : sound good False any body).
  { subst body. pose proof (good_run_post task name).
    autounfold with handlers. good_auto. }
  unfold try_finally.
  destruct (Hb env w0) as [[Hg (evs & Hext & Hben)] Hres].
  change (globalBrowser w0) with (globalBrowser w) in Hg.
  change (extends w (snd (body env w0)) evs) in Hext.
  destruct (body env w0) as [[a | e |] w1]; cbn [fst snd] in *; try contradiction.
  all: destruct (executePost_finally_run env w1 Hcl) as (w2 & -> & Hl & Ht); cbn [fst snd].
  all: split; [discriminate|].
  all: rewrite Hg in Ht.
  all: assert (Hx : extends w w2 (evs ++
         match page (locals w1) with
         | Some p => [Called PageClose; PageClosed p]
         | None => []
         end ++
         match context (locals w1) with
         | Some c => [Called ContextClose; ContextClosed c]
         | None => []
         end ++
         match globalBrowser w with
         | Some b => [Called BrowserClose; BrowserClosed b]
         | None => []
         end))
       by (unfold extends in *; rewrite Ht, Hext, <- app_assoc; reflexivity).
  all: unfold context_closed_once; rewrite (events_since_extends _ _ _ Hx), Hl.
  all: split; [split; [exact Hx|] |].
  all: try (intros c'; rewrite closes_app, (benign_closes _ _ Hben);
            destruct (page (locals w1)); destruct (context (locals w1)) as [c |];
            destruct (globalBrowser w); unfold closes; simpl;
            try rewrite (Nat.eqb_sym c c'); try destruct (c' =? c)%nat; reflexivity).
  all: rewrite browser_closes_app, (benign_browser_closes _ Hben);
       destruct (page (locals w1)); destruct (context (locals w1));
       destruct (globalBrowser w); reflexivity.
Qed.

(* ===================================================================== *)
(** * The follow action on a profile that is already followed *)
(* ===================================================================== *)

(** The run of the follow handler when the profile shows the Following
    button: the response, the events and the store. *)
Lemma follow_already_following_run (env : Env) (w : World) (fuel : nat)
    (request : Http.Request) (user_id : string) (body : Js.object)
    (f : TwitterFollow.Body.t) (account : Account) :
  reliable env ->
  Http.session request = Some user_id ->
  Http.body request = Some body ->
  TwitterFollow.followUserSchema env body = inr f ->
  TwitterFollow.Body.action f = TwitterFollow.follow ->
  Supabase.single
    (filter (fun a => (account_id a =? TwitterFollow.Body.accountId f) &&
                      (account_user_id a =? user_id)) (accounts w)) = Some account ->
  (forall t, truth env (QuerySelector TwitterFollow.unfollow_testid) t = true) ->
  let r := TwitterFollow.POST fuel request env w in
  fst r = Ok (Http.json_success true "User is already being followed" (Some (fresh w))) /\
  existsb protocol_step (events_since w (snd r)) = false /\
  tasks (snd r) =
    tasks w ++ [Supabase.with_task_id (fresh w) (TwitterFollow.taskData user_id f)].
Proof.
  intros Hrel Hs Hb Hschema Hact Hacc Hf r. subst r.
  eassert (Hrun : TwitterFollow.POST fuel request env w = _).
  { unfold TwitterFollow.POST. rewrite reset_locals_run.
    run ltac:(rewrite ?Hs, ?Hb, ?Hschema, ?Hacc, ?Hf, ?Hact) ltac:(apply Hrel). }
  rewrite Hrun. cbn [fst snd]. split; [reflexivity|].
  match type of Hrun with
  | context [PlaywrightConfig.createStealthSetup ?c ?p ?h env ?w2] =>
      destruct (passive_createStealthSetup False c p h env w2) as [(evs & Hext & Hp) _];
      destruct (steady_createStealthSetup env Hrel c p h w2) as [(Ha & Ht & Hl & Hloc) _];
      set (w3 := snd (PlaywrightConfig.createStealthSetup c p h env w2)) in *
  end.
  clear Hrun. unfold extends in Hext. world_simpl in Hext. world_simpl in Ht.
  world_simpl. split.
  - match goal with
    | |- existsb _ (events_since w ?wf) = false =>
        erewrite (events_since_extends w wf)
    end.
    2: { unfold extends. world_simpl. rewrite Hext, <- !app_assoc. reflexivity. }
    rewrite !existsb_app, Hp. reflexivity.
  - rewrite Ht. reflexivity.
Qed.

(* ===================================================================== *)
(** * Pages on which one call rejects *)
(* ===================================================================== *)

Section AllButOne.

Variable env : Env.
Variable bad : Op.
Hypothesis Hok : forall op t, op <> bad -> fails env op t = None.

Lemma steady_call_other op : op <> bad -> steady same_store env any (call op).
Proof.
  intros Hne w. unfold call. rewrite (Hok op _ Hne). simpl.
  split; [repeat split | exact I].
Qed.

End AllButOne.

(** The calls of [createStealthSetup]. *)
Lemma steady_createStealthSetup_but env bad cookies proxy headless :
  (forall op t, op <> bad -> fails env op t = None) ->
  (forall op,
     In op [ChromiumLaunch; BrowserNewContext; ContextAddCookies; ContextAddInitScript;
            ContextNewPage; PageAddInitScript] -> op <> bad) ->
  steady same_store env any (PlaywrightConfig.createStealthSetup cookies proxy headless).
Proof.
  intros Hok Hbad.
  pose proof (steady_parseCookies env) as Hparse.
  pose proof (steady_call_other env bad Hok) as Hcall.
  unfold PlaywrightConfig.createStealthSetup, PlaywrightConfig.chromium_launch,
    PlaywrightConfig.browser_newContext, PlaywrightConfig.restore_cookies,
    PlaywrightConfig.context_addCookies, PlaywrightConfig.context_newPage.
  autounfold with handlers.
  repeat first
    [ solve [apply Hcall; apply Hbad; simpl; auto 7]
    | solve [auto with steady]
    | apply steady_try_catch
    | steady_step same_store_refl same_store_trans ].
Qed.

(** The set-up makes no navigation. *)
Lemma steady_createStealthSetup_other env url cookies proxy headless :
  (forall op t, op <> PageGoto url -> fails env op t = None) ->
  steady same_store env any (PlaywrightConfig.createStealthSetup cookies proxy headless).
Proof.
  intros Hok. apply (steady_createStealthSetup_but env (PageGoto url)); [exact Hok|].
  intros op Hin. simpl in Hin.
  repeat (destruct Hin as [<- | Hin]; [discriminate|]). contradiction.
Qed.

(** A block whose first statement throws. *)
Lemma rejects_first {A B} env msg (m : M A) (f : A -> M B) :
  rejects same_logs env msg m -> rejects same_logs env msg (bind m f).
Proof.
  intros H w. unfold bind. destruct (H w) as [HR Hres].
  destruct (m env w) as [[a | e |] w1]; cbn [fst snd] in *; try discriminate.
  split; [assumption | inversion Hres; reflexivity].
Qed.

Lemma rejects_call env op msg :
  (forall t, fails env op t = Some msg) -> rejects same_logs env msg (call op).
Proof.
  intros H w. unfold call. rewrite H. simpl. split; [split|]; reflexivity.
Qed.

(** Closing the context is one call. *)
Lemma steady_close_context_but env bad :
  (forall op t, op <> bad -> fails env op t = None) ->
  bad <> ContextClose ->
  steady same_store env any close_context_if_open.
Proof.
  intros Hok Hbad.
  pose proof (steady_call_other env bad Hok) as Hcall.
  unfold close_context_if_open, context_close. autounfold with handlers.
  repeat first
    [ solve [apply Hcall; congruence]
    | solve [auto with steady]
    | steady_step same_store_refl same_store_trans ].
Qed.

(** Closing the context is no navigation either. *)
Lemma steady_close_context_other env url :
  (forall op t, op <> PageGoto url -> fails env op t = None) ->
  steady same_store env any close_context_if_open.
Proof.
  intros Hok. apply (steady_close_context_but env (PageGoto url)); [exact Hok | discriminate].
Qed.

(* ===================================================================== *)
(** * Validation of the add-account request *)
(* ===================================================================== *)

(** A body without a secret does not pass the schema. *)
Lemma addAccountSchema_rejects env body :
  Js.get body "mfa_code" = Js.Undefined \/ Js.get body "mfa_code" = Js.Str "" ->
  exists errs, TwitterAddAccount.addAccountSchema env body = inl errs.
Proof.
  intros H. unfold TwitterAddAccount.addAccountSchema.
  assert (Hm : exists msg,
             Zod.refine (fun val => negb (val =? "")) "MFA code is required"
               (Zod.str (Js.get body "mfa_code")) = inl msg).
  { destruct H as [-> | ->]; simpl; eexists; reflexivity. }
  destruct Hm as (msg & ->).
  repeat match goal with
         | |- context [match ?x with inl _ => _ | inr _ => _ end] => destruct x
         end; eexists; reflexivity.
Qed.

Lemma events_since_same w w' : trace w' = trace w -> events_since w w' = [].
Proof. intros H. unfold events_since. rewrite H. apply skipn_all. Qed.

(** The run of the add-account handler on such a body: the [ZodError] of
    [schema.parse] goes to the outer [catch]. *)
Lemma add_account_without_secret_run env w request user_id body :
  Http.session request = Some user_id ->
  Http.body request = Some body ->
  Js.get body "mfa_code" = Js.Undefined \/ Js.get body "mfa_code" = Js.Str "" ->
  exists errs,
    TwitterAddAccount.addAccountSchema env body = inl errs /\
    TwitterAddAccount.POST request env w =
      (Ok (Http.internal_error (ErrorObj (zod_message env errs)) "Failed to add account"),
       with_locals {| context := None; page := None |} w).
Proof.
  intros Hs Hb Hm.
  destruct (addAccountSchema_rejects env body Hm) as (errs & Herrs).
  exists errs. split; [exact Herrs|].
  unfold TwitterAddAccount.POST. rewrite reset_locals_run.
  unfold TwitterAddAccount.handle, Http.request_json, Zod.parse,
    try_finally, try_catch, bind, asks, ret, throw_error, throw.
  rewrite Hs, Hb, Herrs. rewrite close_context_if_open_none by reflexivity.
  reflexivity.
Qed.

(* ===================================================================== *)
(** * Launches and contexts in the trace *)
(* ===================================================================== *)

Lemma launches_app e1 e2 : launches (e1 ++ e2) = launches e1 ++ launches e2.
Proof. unfold launches. apply flat_map_app. Qed.

Lemma contexts_opened_app e1 e2 :
  contexts_opened (e1 ++ e2) = contexts_opened e1 ++ contexts_opened e2.
Proof. unfold contexts_opened. apply flat_map_app. Qed.

Lemma no_launch_refl w : no_launch w w.
Proof.
  split; [reflexivity|]. exists []. repeat split. unfold extends. now rewrite app_nil_r.
Qed.

Lemma no_launch_trans a b c : no_launch a b -> no_launch b c -> no_launch a c.
Proof.
  intros [G1 (e1 & X1 & L1 & C1)] [G2 (e2 & X2 & L2 & C2)]. split; [congruence|].
  exists (e1 ++ e2). unfold extends in *. repeat split.
  - rewrite X2, X1, app_assoc. reflexivity.
  - rewrite launches_app, L1, L2. reflexivity.
  - rewrite contexts_opened_app, C1, C2. reflexivity.
Qed.

Lemma no_launch_call h op : sound no_launch h any (call op).
Proof.
  intros env w. unfold call. split.
  - destruct (fails env op (clock w)); simpl; (split; [reflexivity|]);
      exists [Called op]; repeat split.
  - destruct (fails env op (clock w)); simpl; exact I.
Qed.

Lemma no_launch_emit h e :
  launches [e] = [] -> contexts_opened [e] = [] -> sound no_launch h any (emit e).
Proof.
  intros Hl Hc. apply sound_modify; [|exact I]. intros w. split; [reflexivity|].
  exists [e]. repeat split; assumption.
Qed.

Lemma no_launch_new_handle h : sound no_launch h any new_handle.
Proof.
  intros env w; simpl. split; [|exact I]. split; [reflexivity|].
  exists []. repeat split. unfold extends; simpl. now rewrite app_nil_r.
Qed.

(** What [createStealthSetup] does once its context is open. *)
Lemma setup_tail_no_launch h context cookies :
  sound no_launch h (fun r => fst r = context)
    (PlaywrightConfig.restore_cookies context cookies ;;
     call_ ContextAddInitScript ;;
     page <- PlaywrightConfig.context_newPage context ;;
     call_ PageAddInitScript ;;
     ret (context, page)).
Proof.
  pose proof (no_launch_new_handle h). pose proof (no_launch_call h).
  unfold PlaywrightConfig.restore_cookies, PlaywrightConfig.parseCookies,
    PlaywrightConfig.json_parse, PlaywrightConfig.context_addCookies,
    PlaywrightConfig.context_newPage, call_.
  repeat first
    [ solve [auto]
    | apply no_launch_emit; reflexivity
    | sound_step no_launch_refl no_launch_trans ].
Qed.

Lemma chromium_launch_run env w headless :
  PlaywrightConfig.chromium_launch headless env w =
  let w1 := with_clock (S (clock w)) (with_trace (trace w ++ [Called ChromiumLaunch]) w) in
  match fails env ChromiumLaunch (clock w) with
  | Some msg => (Throw (ErrorObj msg), w1)
  | None =>
      (Ok (fresh w),
       with_trace (trace w ++ [Called ChromiumLaunch; Launched (fresh w) headless])
         (with_fresh (S (fresh w)) w1))
  end.
Proof.
  unfold PlaywrightConfig.chromium_launch, call, new_handle, emit, modify, bind, ret.
  destruct (fails env ChromiumLaunch (clock w)); [reflexivity|].
  destruct w; cbn. rewrite <- app_assoc. reflexivity.
Qed.

Lemma browser_newContext_run env w browser proxy :
  PlaywrightConfig.browser_newContext browser proxy env w =
  let w1 := with_clock (S (clock w)) (with_trace (trace w ++ [Called BrowserNewContext]) w) in
  match fails env BrowserNewContext (clock w) with
  | Some msg => (Throw (ErrorObj msg), w1)
  | None =>
      (Ok (fresh w),
       with_trace
         (trace w ++ [Called BrowserNewContext;
                      ContextOpened browser (fresh w)
                        (option_map PlaywrightConfig.proxy_server proxy)])
         (with_fresh (S (fresh w)) w1))
  end.
Proof.
  unfold PlaywrightConfig.browser_newContext, call, new_handle, emit, modify, bind, ret.
  destruct (fails env BrowserNewContext (clock w)); [reflexivity|].
  destruct w; cbn. rewrite <- app_assoc. reflexivity.
Qed.

(** [createStealthSetup] leaves the global browser alone; when it returns,
    it has launched one browser, a new one, and opened its context on it. *)
Lemma createStealthSetup_launches env w cookies proxy headless :
  let r := PlaywrightConfig.createStealthSetup cookies proxy headless env w in
  globalBrowser (snd r) = globalBrowser w /\
  forall c p,
    fst r = Ok (c, p) ->
    launches (events_since w (snd r)) = [fresh w] /\
    contexts_opened (events_since w (snd r)) = [(fresh w, c)].
Proof.
  intros r. subst r. unfold PlaywrightConfig.createStealthSetup.
  pose proof (chromium_launch_run env w headless) as H1. cbv zeta in H1.
  destruct (fails env ChromiumLaunch (clock w)).
  { erewrite run_bind by (first [exact H1 | reflexivity]).
    split; [reflexivity | intros; discriminate]. }
  erewrite run_bind by (first [exact H1 | reflexivity]).
  match type of H1 with _ = (_, ?w1) =>
    pose proof (browser_newContext_run env w1 (fresh w) proxy) as H2; cbv zeta in H2;
    set (w' := w1) in *
  end.
  destruct (fails env BrowserNewContext (clock w')).
  { erewrite run_bind by (first [exact H2 | reflexivity]).
    split; [reflexivity | intros; discriminate]. }
  erewrite run_bind by (first [exact H2 | reflexivity]).
  match goal with
  | |- context [?m env ?w2] =>
      lazymatch m with bind _ _ => idtac end;
      destruct (setup_tail_no_launch False (fresh w') cookies env w2)
        as [[Hg (evs & Hext & Hl & Hc)] Hres];
      set (r := m env w2) in *
  end.
  subst w'. world_simpl in Hg. unfold extends in Hext. world_simpl in Hext.
  split; [exact Hg|]. intros c p Heq. rewrite Heq in Hres. cbn [fst] in Hres. subst c.
  rewrite (events_since_extends w (snd r)
             ([Called ChromiumLaunch; Launched (fresh w) headless; Called BrowserNewContext;
               ContextOpened (fresh w) (S (fresh w))
                 (option_map PlaywrightConfig.proxy_server proxy)] ++ evs)).
  - rewrite launches_app, contexts_opened_app, Hl, Hc. split; reflexivity.
  - unfold extends. rewrite Hext, <- !app_assoc. reflexivity.
Qed.

(* ===================================================================== *)
(** * Every handler brings its own browser *)
(* ===================================================================== *)

Lemma own_refl w : own_browser w w.
Proof.
  split; [tauto|]. exists []. split; [unfold extends; now rewrite app_nil_r|].
  intros b c [].
Qed.

Lemma own_trans a b c : own_browser a b -> own_browser b c -> own_browser a c.
Proof.
  intros [G1 (e1 & X1 & O1)] [G2 (e2 & X2 & O2)]. split; [tauto|].
  exists (e1 ++ e2). unfold extends in *. split.
  - rewrite X2, X1, app_assoc. reflexivity.
  - intros b' c'. rewrite contexts_opened_app, launches_app, !in_app_iff.
    intros [H | H]; [left; apply (O1 _ _ H) | right; apply (O2 _ _ H)].
Qed.

(** A step that opens no context and does not set the global browser. *)
Lemma own_add w w' evs :
  (globalBrowser w = None -> globalBrowser w' = None) ->
  trace w' = trace w ++ evs -> contexts_opened evs = [] -> own_browser w w'.
Proof.
  intros Hg Ht Hc. split; [exact Hg|]. exists evs. split; [exact Ht|].
  rewrite Hc. intros b c [].
Qed.

Lemma own_same w w' :
  (globalBrowser w = None -> globalBrowser w' = None) ->
  trace w' = trace w -> own_browser w w'.
Proof.
  intros Hg Ht. apply own_add with (evs := []); [exact Hg | | reflexivity].
  rewrite app_nil_r. exact Ht.
Qed.

Section OwnSteps.

Variable h : Prop.

Lemma own_call op : sound own_browser h any (call op).
Proof.
  intros env w. unfold call. split.
  - destruct (fails env op (clock w)); simpl;
      apply own_add with (evs := [Called op]); auto.
  - destruct (fails env op (clock w)); simpl; exact I.
Qed.

Lemma own_emit e : contexts_opened [e] = [] -> sound own_browser h any (emit e).
Proof.
  intros He. apply sound_modify; [|exact I]. intros w.
  apply own_add with (evs := [e]); auto.
Qed.

Lemma own_new_handle : sound own_browser h any new_handle.
Proof. intros env w; simpl. split; [apply own_same; auto | exact I]. Qed.

Lemma own_randomDelay min max : sound own_browser h any (randomDelay min max).
Proof. intros env w; simpl. split; [apply own_same; auto | exact I]. Qed.

Lemma own_round_trip op : sound own_browser h any (Supabase.round_trip op).
Proof.
  intros env w; simpl. split; [|exact I].
  apply own_add with (evs := [Called op]); auto.
Qed.

Lemma own_insert_log id res msg : sound own_browser h any (Supabase.insert_log id res msg).
Proof.
  apply sound_modify; [|exact I]. intros w.
  apply own_add with (evs := [Called (DbInsert "task_logs")]); auto.
Qed.

Lemma own_update_task id f : sound own_browser h any (Supabase.update_task id f).
Proof.
  apply sound_modify; [|exact I]. intros w.
  apply own_add with (evs := [Called (DbUpdate "tasks")]); auto.
Qed.

Lemma own_update_account id f : sound own_browser h any (Supabase.update_account id f).
Proof.
  apply sound_modify; [|exact I]. intros w.
  apply own_add with (evs := [Called (DbUpdate "social_accounts")]); auto.
Qed.

(** An update of the world that leaves the trace alone and does not set
    the global browser. *)
Lemma own_modify (f : World -> World) :
  (forall w, trace (f w) = trace w) ->
  (forall w, globalBrowser w = None -> globalBrowser (f w) = None) ->
  sound own_browser h any (modify f).
Proof.
  intros Ht Hg. apply sound_modify; [|exact I]. intros w.
  apply own_same; [apply Hg | apply Ht].
Qed.

(** The launch and the context of [createStealthSetup]. *)
Lemma own_createStealthSetup cookies proxy headless :
  sound own_browser h any (PlaywrightConfig.createStealthSetup cookies proxy headless).
Proof.
  intros env w. unfold PlaywrightConfig.createStealthSetup.
  pose proof (chromium_launch_run env w headless) as H1. cbv zeta in H1.
  destruct (fails env ChromiumLaunch (clock w)).
  { erewrite run_bind by (first [exact H1 | reflexivity]). cbn [fst snd].
    split; [|exact I].
    apply own_add with (evs := [Called ChromiumLaunch]);
      [intros Hn; exact Hn | reflexivity | reflexivity]. }
  erewrite run_bind by (first [exact H1 | reflexivity]).
  match type of H1 with _ = (_, ?w1) =>
    pose proof (browser_newContext_run env w1 (fresh w) proxy) as H2; cbv zeta in H2;
    set (w' := w1) in *
  end.
  destruct (fails env BrowserNewContext (clock w')).
  { erewrite run_bind by (first [exact H2 | reflexivity]). cbn [fst snd].
    split; [|exact I].
    apply own_add with (evs := [Called ChromiumLaunch; Launched (fresh w) headless;
                                Called BrowserNewContext]);
      [intros Hn; exact Hn | | reflexivity].
    subst w'. world_simpl. rewrite <- app_assoc. reflexivity. }
  erewrite run_bind by (first [exact H2 | reflexivity]).
  match goal with
  | |- context [?m env ?w2] =>
      lazymatch m with bind _ _ => idtac end;
      destruct (setup_tail_no_launch h (fresh w') cookies env w2)
        as [[Hg (evs & Hext & Hl & Hc)] Hres];
      set (r := m env w2) in *
  end.
  subst w'. world_simpl in Hg. unfold extends in Hext. world_simpl in Hext. split.
  - split; [intros Hnone; rewrite Hg; exact Hnone|].
    exists ([Called ChromiumLaunch; Launched (fresh w) headless; Called BrowserNewContext;
             ContextOpened (fresh w) (S (fresh w))
               (option_map PlaywrightConfig.proxy_server proxy)] ++ evs).
    split; [unfold extends; rewrite Hext, <- !app_assoc; reflexivity|].
    intros b c. rewrite contexts_opened_app, launches_app, Hc, Hl, !app_nil_r.
    simpl. intros [Heq | []]. inversion Heq. left; reflexivity.
  - destruct (fst r); [exact I | exact I | exact Hres].
Qed.

End OwnSteps.

#[local] Hint Resolve own_call own_emit own_new_handle own_randomDelay
  own_round_trip own_insert_log own_update_task own_update_account
  own_createStealthSetup : handlers.

(** Decompose a handler into its steps; a block that is none of the steps
    above is opened. *)
Ltac own_auto :=
  repeat first
    [ solve [auto with handlers]
    | sound_step own_refl own_trans
    | lazymatch goal with
      | |- sound _ _ _ (modify _) => apply own_modify; intros; solve [auto]
      | |- sound _ _ _ (while_loop _ _ _ _) =>
          apply (sound_while own_browser own_refl own_trans True any);
          [exact I | intros; apply sound_weaken with (P := any); [|intros; exact I] | exact I]
      | |- sound _ _ _ ?m => let c := head_of m in progress (unfold c)
      end ].

(** The blocks that are defined by recursion. *)
Lemma own_first_visible h selectors :
  sound own_browser h any (TwitterFollow.first_visible selectors).
Proof. induction selectors as [| s rest IH]; simpl; own_auto. Qed.

Lemma own_any_visible h selector n :
  sound own_browser h any (TwitterAddAccount.any_visible selector n).
Proof. induction n as [| n IH]; simpl; own_auto. Qed.

Lemma own_find_email_input h selectors :
  sound own_browser h any (TwitterAddAccount.find_email_input selectors).
Proof.
  pose proof (own_any_visible h).
  induction selectors as [| s rest IH]; simpl; own_auto.
Qed.

Lemma own_save_media h task files :
  forall i, sound own_browser h any (TwitterCreatePost.save_media task i files).
Proof. induction files as [| file rest IH]; intros i; simpl; own_auto. Qed.

#[local] Hint Resolve own_first_visible own_any_visible own_find_email_input
  own_save_media : handlers.

Lemma own_like request : sound own_browser True any (TwitterLike.POST request).
Proof. own_auto. Qed.

Lemma own_follow fuel request : sound own_browser True any (TwitterFollow.POST fuel request).
Proof. own_auto. Qed.

Lemma own_add_account request : sound own_browser True any (TwitterAddAccount.POST request).
Proof. own_auto. Qed.

Lemma own_executePost task name :
  sound own_browser True any (FacebookCreatePost.executePost task name).
Proof. own_auto. Qed.

Lemma own_facebook_post request :
  sound own_browser True any (FacebookCreatePost.POST request).
Proof. own_auto. Qed.

Lemma own_comment request : sound own_browser True any (TwitterComment.POST request).
Proof. own_auto. Qed.

Lemma own_create_post request : sound own_browser True any (TwitterCreatePost.POST request).
Proof. own_auto. Qed.

Lemma own_facebook_follow request :
  sound own_browser True any (FacebookFollow.POST request).
Proof. own_auto. Qed.

Lemma own_facebook_add_account request :
  sound own_browser True any (FacebookAddAccount.POST request).
Proof. own_auto. Qed.

Lemma own_facebook_like request : sound own_browser True any (FacebookLike.POST request).
Proof. own_auto. Qed.

(* ===================================================================== *)
(** * What a handler returned, and what the set-up leaves alone *)
(* ===================================================================== *)

(** What a block that returned was made of. *)
Lemma bind_ok_inv {A B} (m : M A) (f : A -> M B) env w b w' :
  bind m f env w = (Ok b, w') ->
  exists a w1, m env w = (Ok a, w1) /\ f a env w1 = (Ok b, w').
Proof.
  unfold bind. destruct (m env w) as [[a | e |] w1]; intros H; try discriminate.
  exists a, w1. split; [reflexivity | exact H].
Qed.

(** Every block is sound for the relation that holds of all worlds; what
    remains is what it returns. *)
Lemma sound_anything {A} (m : M A) : sound (fun _ _ => True) True any m.
Proof. intros env w. split; [exact I|]. destruct (fst (m env w)); exact I. Qed.

Ltac returns_auto :=
  repeat first
    [ solve [apply sound_anything]
    | sound_step (fun _ : World => I) (fun (_ _ _ : World) (_ _ : True) => I) ].

(** The answer of the handler once it has begun to log in. *)
Lemma facebook_add_drive_answer user_id f :
  sound (fun _ _ => True) True (fun r => Http.success r = Some true)
    (try_finally (FacebookAddAccount.drive user_id f) close_context_if_open).
Proof.
  unfold FacebookAddAccount.drive. returns_auto. reflexivity.
Qed.

(** [createStealthSetup] leaves the accounts alone. *)
Lemma createStealthSetup_accounts env w cookies proxy headless :
  accounts (snd (PlaywrightConfig.createStealthSetup cookies proxy headless env w)) =
  accounts w.
Proof.
  set (R := fun w w' : World => accounts w' = accounts w).
  assert (Hrefl : forall w, R w w) by reflexivity.
  assert (Htrans : forall a b c, R a b -> R b c -> R a c) by (unfold R; congruence).
  assert (Hcall : forall op, sound R False any (call op)).
  { intros op e w0. unfold call. destruct (fails e op (clock w0)); split; first [reflexivity | exact I]. }
  assert (Hnew : sound R False any new_handle) by (intros e w0; split; [reflexivity | exact I]).
  assert (Hemit : forall ev, sound R False any (emit ev))
    by (intros ev e w0; split; [reflexivity | exact I]).
  enough (H : sound R False any (PlaywrightConfig.createStealthSetup cookies proxy headless))
    by apply (H env w).
  unfold PlaywrightConfig.createStealthSetup, PlaywrightConfig.chromium_launch,
    PlaywrightConfig.browser_newContext, PlaywrightConfig.restore_cookies,
    PlaywrightConfig.parseCookies, PlaywrightConfig.json_parse,
    PlaywrightConfig.context_addCookies, PlaywrightConfig.context_newPage, call_.
  repeat first [ solve [auto] | sound_step Hrefl Htrans ].
Qed.

(* ===================================================================== *)
(** * Resource safety of the task executions *)
(* ===================================================================== *)

(** C1. The facebook add-account handler does not close the context it
    opened when it finds that the account exists.  Whenever it answers
    ["Facebook account already exists"], it has launched a browser of its
    own and opened one context on it, and it returns with that context
    still open (no close of it is in the run) and held in its [context]
    variable: the early [return] is outside the [try] whose [finally]
    closes the context.  No browser is closed, the global browser is as
    it was, and no account was written. *)
Theorem facebook_duplicate_account_leaves_context_open (env : Env) (w : World)
    (request : Http.Request) :
  let r := FacebookAddAccount.POST request env w in
  fst r = Ok (Http.json_success false "Facebook account already exists" None) ->
  exists b c,
    launches (events_since w (snd r)) = [b] /\
    contexts_opened (events_since w (snd r)) = [(b, c)] /\
    context (locals (snd r)) = Some c /\
    closes c (events_since w (snd r)) = 0 /\
    browser_closes (events_since w (snd r)) = [] /\
    globalBrowser (snd r) = globalBrowser w /\
    accounts (snd r) = accounts w.
Proof.
  cbv zeta. unfold FacebookAddAccount.POST, try_catch.
  destruct (FacebookAddAccount.handle request env w) as [[a | e |] w'] eqn:Hh;
    cbn [fst snd]; intros Hr; try discriminate.
  injection Hr as ->.
  unfold FacebookAddAccount.handle in Hh. rewrite reset_locals_run in Hh.
  set (w0 := with_locals _ w) in Hh.
  destruct (Http.session request) as [user_id |]; [|discriminate].
  apply bind_ok_inv in Hh. destruct Hh as (body & w1 & Hbody & Hh).
  assert (w1 = w0) as ->.
  { unfold Http.request_json in Hbody. destruct (Http.body request); inversion Hbody.
    reflexivity. }
  apply bind_ok_inv in Hh. destruct Hh as (f & w1 & Hparse & Hh).
  assert (w1 = w0) as ->.
  { unfold Zod.parse, bind, asks in Hparse.
    destruct (FacebookAddAccount.addAccountSchema env body); inversion Hparse.
    reflexivity. }
  unfold FacebookAddAccount.add_account in Hh.
  apply bind_ok_inv in Hh. destruct Hh as ([c p] & w1 & Hsetup & Hh).
  destruct (createStealthSetup_launches env w0 None (FacebookAddAccount.proxyConfig f) false)
    as [Hgb Hlaunch].
  rewrite Hsetup in Hgb, Hlaunch. cbn [fst snd] in Hgb, Hlaunch.
  destruct (Hlaunch c p eq_refl) as [Hl Hc].
  destruct (quiet_createStealthSetup False None (FacebookAddAccount.proxyConfig f) false
              env w0) as [[[_ (evs & Hext & Hben)] _] _].
  rewrite Hsetup in Hext. cbn [snd] in Hext.
  rewrite (events_since_extends _ _ _ Hext) in Hl, Hc.
  cbn [fst snd] in Hh.
  unfold bind at 1 2 3, set_context, set_page, modify, Supabase.select_account,
    bind at 1 2, Supabase.round_trip, gets, ret in Hh.
  cbv beta iota zeta in Hh. world_simpl in Hh.
  match type of Hh with
  | match fst ?found with _ => _ end env ?w3 = _ =>
      destruct (fst found) as [existing |]; set (w3' := w3) in Hh
  end.
  - inversion Hh; subst w'. clear Hh. exists (fresh w0), c.
    assert (Hx : extends w w3' (evs ++ [Called (DbSelect "social_accounts")])).
    { unfold extends. subst w3'. world_simpl. unfold extends in Hext. rewrite Hext.
      rewrite <- app_assoc. reflexivity. }
    rewrite (events_since_extends _ _ _ Hx).
    rewrite launches_app, contexts_opened_app, closes_app, browser_closes_app, Hl, Hc,
      (benign_closes _ _ Hben), (benign_browser_closes _ Hben).
    subst w3'. world_simpl.
    pose proof (createStealthSetup_accounts env w0 None
                  (FacebookAddAccount.proxyConfig f) false) as Ha.
    rewrite Hsetup in Ha. cbn [snd] in Ha.
    repeat split; try reflexivity; assumption.
  - exfalso. unfold bind, get_page, gets in Hh. subst w3'. world_simpl in Hh.
    match type of Hh with
    | ?m env ?w3 = _ =>
        destruct (facebook_add_drive_answer user_id f env w3) as [_ Hans];
        change (m env w3) with
          (try_finally (FacebookAddAccount.drive user_id f) close_context_if_open env w3)
          in Hh
    end.
    rewrite Hh in Hans. cbn [fst] in Hans. discriminate.
Qed.

Lemma facebook_duplicate_account_leaves_context_open_witness :
  let r := FacebookAddAccount.POST (Fixtures.facebook_add_request "fb@example.com")
             Scenario.calm Fixtures.with_facebook_account in
  fst r = Ok (Http.json_success false "Facebook account already exists" None) /\
  exists b c,
    launches (events_since Fixtures.with_facebook_account (snd r)) = [b] /\
    contexts_opened (events_since Fixtures.with_facebook_account (snd r)) = [(b, c)] /\
    context (locals (snd r)) = Some c /\
    closes c (events_since Fixtures.with_facebook_account (snd r)) = 0 /\
    browser_closes (events_since Fixtures.with_facebook_account (snd r)) = [] /\
    globalBrowser (snd r) = globalBrowser Fixtures.with_facebook_account /\
    accounts (snd r) = accounts Fixtures.with_facebook_account.
Proof.
  assert (H : fst (FacebookAddAccount.POST (Fixtures.facebook_add_request "fb@example.com")
                     Scenario.calm Fixtures.with_facebook_account) =
              Ok (Http.json_success false "Facebook account already exists" None))
    by (vm_compute; reflexivity).
  split; [exact H|].
  exact (facebook_duplicate_account_leaves_context_open Scenario.calm
           Fixtures.with_facebook_account (Fixtures.facebook_add_request "fb@example.com") H).
Defined.

(** The context that [createStealthSetup] opened is not closed when a
    later step of the set-up rejects: the handler's [context] variable was
    never assigned. *)
Example context_leaks_when_setup_rejects :
  let r := TwitterLike.POST Scenario.like_request Scenario.without_pages Scenario.start in
  contexts_opened (trace (snd r)) = [(1, 2)] /\
  closes 2 (trace (snd r)) = 0 /\
  context (locals (snd r)) = None.
Proof. vm_compute. repeat split. Qed.

(** When [page.close()] rejects in the [finally] block of [executePost],
    the statement after it is skipped: the context stays open. *)
Example context_stays_open_when_page_close_rejects :
  let w := Scenario.start in
  let r := FacebookCreatePost.executePost Scenario.post_task "me" Scenario.stuck_page w in
  contexts_opened (events_since w (snd r)) = [(0, 1)] /\
  context (locals (snd r)) = Some 1 /\
  closes 1 (events_since w (snd r)) = 0.
Proof. vm_compute. repeat split. Qed.

(* ===================================================================== *)
(** * The log entries of an immediate post that fails *)
(* ===================================================================== *)

Section PostSteady.

Variable env : Env.
Hypothesis Hrel : reliable env.

Lemma steady_inspect_elements selector needle attributes :
  steady same_store env any
    (FacebookCreatePost.inspect_elements selector needle attributes).
Proof.
  unfold FacebookCreatePost.inspect_elements. autounfold with handlers. steady_auto.
Qed.

Lemma steady_cleanup : steady same_store env any PlaywrightConfig.cleanup.
Proof.
  unfold PlaywrightConfig.cleanup, browser_close. autounfold with handlers.
  repeat first
    [ solve [auto with steady]
    | apply steady_modify; [intros w; repeat split | exact I]
    | steady_step same_store_refl same_store_trans ].
Qed.

Lemma steady_release : steady same_store env any FacebookCreatePost.release.
Proof.
  pose proof steady_cleanup.
  unfold FacebookCreatePost.release, close_context_if_open, page_close, context_close.
  autounfold with handlers. steady_auto.
Qed.

Lemma rejects_set_page {A} msg x (k : option nat -> M A) :
  rejects same_logs env msg (k (Some x)) ->
  rejects same_logs env msg (set_page (Some x) ;; p <- get_page ;; k p).
Proof.
  intros H w.
  change ((set_page (Some x) ;; p <- get_page ;; k p) env w)
    with (k (Some x) env
            (with_locals {| context := context (locals w); page := Some x |} w)).
  destruct (H (with_locals {| context := context (locals w); page := Some x |} w))
    as [[H1 H2] H3].
  split; [split; assumption | exact H3].
Qed.

(** On a page where the typed text cannot be read back, the work of
    [executePost] on the page ends in the error of the content check; the
    tasks and the log are as they were. *)
Lemma post_as_rejects account task name :
  (forall t, text env (PageEvaluate "typed content") t = None) ->
  rejects same_logs env "Failed to type content into text area"
    (FacebookCreatePost.post_as account task name).
Proof.
  intros Htyped.
  pose proof steady_inspect_elements as Hinspect.
  assert (Hstep : forall A (m : M A),
             steady same_store env any m -> steady same_logs env any m).
  { intros A m. apply steady_mono. exact same_store_logs. }
  assert (Hmodify : forall f, (forall w, same_logs w (f w)) ->
                              steady same_logs env any (modify f)).
  { intros f Hf. apply steady_modify; [exact Hf | exact I]. }
  unfold FacebookCreatePost.post_as.
  apply (rejects_bind same_logs same_logs_trans env any);
    [apply Hstep; auto with steady | intros setup _].
  apply (rejects_bind same_logs same_logs_trans env any);
    [apply Hmodify; intros w; split; reflexivity | intros _ _].
  apply rejects_set_page.
  apply (rejects_bind same_logs same_logs_trans env any).
  { destruct (FacebookCreatePost.proxyConfig account).
    - apply (steady_seq same_logs same_logs_trans env any).
      + apply (steady_gets _ same_logs_refl). intros; exact I.
      + intros t. apply Hmodify. intros w; split; reflexivity.
    - apply (steady_ret _ same_logs_refl). exact I. }
  intros _ _.
  repeat (apply (rejects_bind same_logs same_logs_trans env any);
          [apply Hstep; autounfold with handlers; steady_auto | intros _ _]).
  apply (rejects_bind same_logs same_logs_trans env (fun t => t = None)).
  { unfold call_text. intros w. unfold bind, call, asks. rewrite Hrel. cbn [fst snd].
    split; [split; reflexivity | apply Htyped]. }
  intros t ->. cbn [Js.truthy_opt negb orb].
  apply (rejects_throw_error same_logs same_logs_refl).
Qed.

End PostSteady.

#[local] Hint Resolve steady_inspect_elements steady_cleanup steady_release : steady.

Lemma steady_task_logs env {A} (m : M A) w :
  steady same_store env any m -> task_logs (snd (m env w)) = task_logs w.
Proof. intros H. destruct (H w) as [(_ & _ & Hl & _) _]. exact Hl. Qed.

(** C2. An immediate post of an authenticated user on an account of
    theirs, on a page where no call rejects and the typed text cannot be
    read back: the request is answered with status 200 and the task's
    identifier, and the one attempt is logged twice as failed, once by the
    [catch] of [executePost] and once more by the [catch] around its call
    in [POST]. *)
Theorem immediate_post_failure_logged_twice (env : Env) (w : World)
    (request : FacebookCreatePost.Request) (user_id accountId content : string)
    (form : list (string * string)) (account socialAccount : Account) :
  reliable env ->
  FacebookCreatePost.session request = Some user_id ->
  FacebookCreatePost.formData request = Some form ->
  FacebookCreatePost.form_get form "accountId" = Some accountId ->
  FacebookCreatePost.form_get form "content" = Some content ->
  FacebookCreatePost.form_get form "scheduleType" = Some "now" ->
  Js.truthy accountId = true ->
  Js.truthy content = true ->
  Supabase.single
    (filter (fun a => (account_id a =? accountId) && (account_user_id a =? user_id))
       (accounts w)) = Some account ->
  Supabase.single (filter (fun a => account_id a =? accountId) (accounts w)) =
    Some socialAccount ->
  (forall t, text env (PageEvaluate "typed content") t = None) ->
  let r := FacebookCreatePost.POST request env w in
  (exists response,
     fst r = Ok response /\
     Http.status response = 200 /\
     Http.taskId response = Some (fresh w)) /\
  (exists t1 t2,
     task_logs (snd r) =
       task_logs w ++
       [{| log_task_id := fresh w; execution_time := t1; result := "failed";
           message := "Failed to type content into text area" |};
        {| log_task_id := fresh w; execution_time := t2; result := "failed";
           message := "Failed to type content into text area" |}]).
Proof.
  intros Hrel Hs Hf Ha Hc Hn Hta Htc Hacc Hsoc Htyped r. subst r.
  pose proof (post_as_rejects env Hrel) as Hpost.
  destruct (FacebookCreatePost.media request) as [file |] eqn:Hm.
  all: eassert (Hrun : FacebookCreatePost.POST request env w = _);
    [ unfold FacebookCreatePost.POST;
      run ltac:(cbn [social_account_id task_id action_data Supabase.with_task_id
                     FacebookCreatePost.taskData FacebookCreatePost.task_content
                     FacebookCreatePost.form_get];
                rewrite ?Hs, ?Hf, ?Hm, ?Ha, ?Hc, ?Hn, ?String.eqb_refl;
                cbn [Js.truthy_opt Js.or_else]; rewrite ?Hta, ?Htc;
                rewrite ?Hacc, ?Hsoc;
                cbn [negb orb Js.truthy_opt FacebookCreatePost.is_now];
                rewrite ?String.eqb_refl)
          ltac:(apply Hrel) | ].
  all: rewrite Hrun; cbn [fst snd]; clear Hrun.
  all: split; [eexists; split; [reflexivity | split; reflexivity] |].
  all: world_simpl; rewrite (steady_task_logs env _ _ (steady_release env Hrel)).
  all: world_simpl.
  all: match goal with
       | |- context [FacebookCreatePost.post_as ?a ?t ?n ?e ?w0] =>
           destruct (Hpost a t n Htyped w0) as [[_ Hlogs] _];
           set (w1 := snd (FacebookCreatePost.post_as a t n e w0)) in *
       end.
  all: rewrite Hlogs; world_simpl; rewrite <- app_assoc.
  all: eexists; eexists; reflexivity.
Qed.

Lemma immediate_post_failure_logged_twice_witness :
  let r := FacebookCreatePost.POST Scenario.post_request Scenario.calm Scenario.start in
  (exists response,
     fst r = Ok response /\
     Http.status response = 200 /\
     Http.taskId response = Some (fresh Scenario.start)) /\
  (exists t1 t2,
     task_logs (snd r) =
       task_logs Scenario.start ++
       [{| log_task_id := fresh Scenario.start; execution_time := t1; result := "failed";
           message := "Failed to type content into text area" |};
        {| log_task_id := fresh Scenario.start; execution_time := t2; result := "failed";
           message := "Failed to type content into text area" |}]).
Proof.
  apply (immediate_post_failure_logged_twice Scenario.calm Scenario.start
           Scenario.post_request "user-1" Scenario.account_uuid "hello"
           [("accountId", Scenario.account_uuid); ("content", "hello");
            ("scheduleType", "now")]
           Scenario.twitter_account Scenario.twitter_account).
  - intros op t. reflexivity.
  - reflexivity.
  - reflexivity.
  - reflexivity.
  - reflexivity.
  - reflexivity.
  - reflexivity.
  - reflexivity.
  - vm_compute. reflexivity.
  - vm_compute. reflexivity.
  - intros t. reflexivity.
Defined.

(** The same run, evaluated: one task row, inserted before the browser is
    launched, and two log entries for it. *)
Example immediate_post_failure_evaluated :
  let r := FacebookCreatePost.POST Scenario.post_request Scenario.calm Scenario.start in
  map status (tasks (snd r)) = [failed] /\
  firstn 3 (trace (snd r)) =
    [Called (DbSelect "social_accounts"); Called (DbInsert "tasks");
     Called (DbSelect "social_accounts")] /\
  map (fun l => (log_task_id l, result l, message l)) (task_logs (snd r)) =
    [(0, "failed", "Failed to type content into text area");
     (0, "failed", "Failed to type content into text area")].
Proof. vm_compute. repeat split. Qed.

(* ===================================================================== *)
(** * The status of the task of a follow that was not needed *)
(* ===================================================================== *)

(** C3. A follow request of an authenticated user on an account of theirs,
    on a page where no call rejects and the profile already shows the
    Following button: the handler answers with success, and the task it
    inserted is the last row of the table, still [active]. *)
Theorem follow_already_following_stays_active (env : Env) (w : World) (fuel : nat)
    (request : Http.Request) (user_id : string) (body : Js.object)
    (f : TwitterFollow.Body.t) (account : Account) :
  reliable env ->
  Http.session request = Some user_id ->
  Http.body request = Some body ->
  TwitterFollow.followUserSchema env body = inr f ->
  TwitterFollow.Body.action f = TwitterFollow.follow ->
  Supabase.single
    (filter (fun a => (account_id a =? TwitterFollow.Body.accountId f) &&
                      (account_user_id a =? user_id)) (accounts w)) = Some account ->
  (forall t, truth env (QuerySelector TwitterFollow.unfollow_testid) t = true) ->
  let r := TwitterFollow.POST fuel request env w in
  option_map Http.success (match fst r with Ok a => Some a | _ => None end) =
    Some (Some true) /\
  exists task,
    tasks (snd r) = tasks w ++ [task] /\
    task_id task = fresh w /\
    status task = active.
Proof.
  intros Hrel Hs Hb Hschema Hact Hacc Hf.
  destruct (follow_already_following_run env w fuel request user_id body f account
              Hrel Hs Hb Hschema Hact Hacc Hf) as (Hres & _ & Htasks).
  cbv zeta. rewrite Hres. split; [reflexivity|].
  eexists. split; [exact Htasks|]. split; reflexivity.
Qed.

Lemma follow_already_following_stays_active_witness :
  let r := TwitterFollow.POST 10 Scenario.follow_request Scenario.following Scenario.start in
  option_map Http.success (match fst r with Ok a => Some a | _ => None end) =
    Some (Some true) /\
  exists task,
    tasks (snd r) = tasks Scenario.start ++ [task] /\
    task_id task = fresh Scenario.start /\
    status task = active.
Proof.
  apply (follow_already_following_stays_active Scenario.following Scenario.start 10
           Scenario.follow_request "user-1"
           [("username", Js.Str "rihanna"); ("accountId", Js.Str Scenario.account_uuid);
            ("action", Js.Str "follow")]
           Scenario.follow_fields Scenario.twitter_account).
  - intros op t. reflexivity.
  - reflexivity.
  - reflexivity.
  - vm_compute. reflexivity.
  - reflexivity.
  - vm_compute. reflexivity.
  - intros t. vm_compute. reflexivity.
Defined.

(** The same run, evaluated: the one task of the table is [active] next to
    a log entry that reports success. *)
Example follow_already_following_evaluated :
  let r := TwitterFollow.POST 10 Scenario.follow_request Scenario.following Scenario.start in
  map status (tasks (snd r)) = [active] /\
  map (fun l => (log_task_id l, result l)) (task_logs (snd r)) = [(0, "success")].
Proof. vm_compute. split; reflexivity. Qed.

(* ===================================================================== *)
(** * Browsers: the global one and the one of each setup *)
(* ===================================================================== *)

(** Two like requests in a row launch two browsers; each context is opened
    on the browser launched for it, and the global browser is never
    started. *)
Lemma one_browser_per_task_counterexample :
  let w1 := snd (TwitterLike.POST Scenario.like_request Scenario.calm Scenario.start) in
  let w2 := snd (TwitterLike.POST Scenario.like_request Scenario.calm w1) in
  launches (trace w2) = [1; 5] /\
  contexts_opened (trace w2) = [(1, 2); (5, 6)] /\
  globalBrowser w2 = None.
Proof. vm_compute. repeat split. Qed.

(** What [createStealthContext] does once its context is open. *)
Lemma context_tail_no_launch h context cookies :
  sound no_launch h (fun c => c = context)
    (PlaywrightConfig.restore_cookies context cookies ;;
     call_ ContextAddInitScript ;;
     ret context).
Proof.
  pose proof (no_launch_call h).
  unfold PlaywrightConfig.restore_cookies, PlaywrightConfig.parseCookies,
    PlaywrightConfig.json_parse, PlaywrightConfig.context_addCookies, call_.
  repeat first
    [ solve [auto]
    | apply no_launch_emit; reflexivity
    | sound_step no_launch_refl no_launch_trans ].
Qed.

(** While the global browser is running, [createStealthContext] launches
    nothing and opens its context on that browser. *)
Lemma createStealthContext_shares env w b cookies proxy :
  globalBrowser w = Some b ->
  let r := PlaywrightConfig.createStealthContext cookies proxy env w in
  globalBrowser (snd r) = Some b /\
  launches (events_since w (snd r)) = [] /\
  forall c, fst r = Ok c -> contexts_opened (events_since w (snd r)) = [(b, c)].
Proof.
  intros Hb r. subst r. unfold PlaywrightConfig.createStealthContext.
  assert (H1 : PlaywrightConfig.initGlobalBrowser env w = (Ok b, w)).
  { unfold PlaywrightConfig.initGlobalBrowser, bind, gets. rewrite Hb. reflexivity. }
  erewrite run_bind by (first [exact H1 | reflexivity]).
  pose proof (browser_newContext_run env w b proxy) as H2. cbv zeta in H2.
  destruct (fails env BrowserNewContext (clock w)).
  { erewrite run_bind by (first [exact H2 | reflexivity]). cbn [fst snd].
    rewrite (events_since_extends w _ [Called BrowserNewContext]).
    - world_simpl. repeat split; [exact Hb | intros; discriminate].
    - unfold extends. reflexivity. }
  erewrite run_bind by (first [exact H2 | reflexivity]).
  match goal with
  | |- context [?m env ?w2] =>
      lazymatch m with bind _ _ => idtac end;
      destruct (context_tail_no_launch False (fresh w) cookies env w2)
        as [[Hg (evs & Hext & Hl & Hc)] Hres];
      set (r := m env w2) in *
  end.
  world_simpl in Hg. unfold extends in Hext. world_simpl in Hext.
  rewrite (events_since_extends w (snd r)
             ([Called BrowserNewContext;
               ContextOpened b (fresh w)
                 (option_map PlaywrightConfig.proxy_server proxy)] ++ evs)).
  - rewrite launches_app, contexts_opened_app, Hl, Hc.
    split; [congruence | split; [reflexivity|]].
    intros c Heq. rewrite Heq in Hres. subst c. reflexivity.
  - unfold extends. rewrite Hext, <- !app_assoc. reflexivity.
Qed.

(** Without a global browser, [createStealthContext] launches it, keeps
    it and opens its context on it. *)
Lemma createStealthContext_first env w cookies proxy :
  globalBrowser w = None ->
  fails env ChromiumLaunch (clock w) = None ->
  let r := PlaywrightConfig.createStealthContext cookies proxy env w in
  globalBrowser (snd r) = Some (fresh w) /\
  launches (events_since w (snd r)) = [fresh w] /\
  forall c, fst r = Ok c -> contexts_opened (events_since w (snd r)) = [(fresh w, c)].
Proof.
  intros Hnone Hok r. subst r. unfold PlaywrightConfig.createStealthContext.
  eassert (H1 : PlaywrightConfig.initGlobalBrowser env w = _).
  { unfold PlaywrightConfig.initGlobalBrowser, PlaywrightConfig.chromium_launch,
      call, new_handle, emit, modify, bind, gets, ret.
    rewrite Hnone, Hok. world_simpl. reflexivity. }
  erewrite run_bind by (first [exact H1 | reflexivity]). clear H1.
  match goal with
  | |- context [PlaywrightConfig.browser_newContext ?b proxy] =>
      match goal with
      | |- context [bind _ _ env ?w1] =>
          pose proof (browser_newContext_run env w1 b proxy) as H2; cbv zeta in H2;
          set (w' := w1) in *
      end
  end.
  assert (Hw' : trace w' = trace w ++ [Called ChromiumLaunch;
                                       Launched (fresh w)
                                         PlaywrightConfig.BROWSER_CONFIG_headless])
    by (subst w'; world_simpl; rewrite <- app_assoc; reflexivity).
  assert (Hg' : globalBrowser w' = Some (fresh w)) by reflexivity.
  clearbody w'.
  destruct (fails env BrowserNewContext (clock w')).
  { erewrite run_bind by (first [exact H2 | reflexivity]). cbn [fst snd].
    rewrite (events_since_extends w _
               [Called ChromiumLaunch;
                Launched (fresh w) PlaywrightConfig.BROWSER_CONFIG_headless;
                Called BrowserNewContext]).
    - world_simpl. repeat split; [exact Hg' | intros; discriminate].
    - unfold extends. world_simpl. rewrite Hw', <- app_assoc. reflexivity. }
  erewrite run_bind by (first [exact H2 | reflexivity]).
  match goal with
  | |- context [?m env ?w2] =>
      lazymatch m with bind _ _ => idtac end;
      destruct (context_tail_no_launch False (fresh w') cookies env w2)
        as [[Hg (evs & Hext & Hl & Hc)] Hres];
      set (r := m env w2) in *
  end.
  world_simpl in Hg. unfold extends in Hext. world_simpl in Hext.
  rewrite (events_since_extends w (snd r)
             ([Called ChromiumLaunch;
               Launched (fresh w) PlaywrightConfig.BROWSER_CONFIG_headless;
               Called BrowserNewContext;
               ContextOpened (fresh w) (fresh w')
                 (option_map PlaywrightConfig.proxy_server proxy)] ++ evs)).
  - rewrite launches_app, contexts_opened_app, Hl, Hc.
    split; [congruence | split; [reflexivity|]].
    intros c Heq. rewrite Heq in Hres. subst c. reflexivity.
  - unfold extends. rewrite Hext, Hw', <- !app_assoc. reflexivity.
Qed.

(** A call of [initGlobalBrowser] that is not interrupted is the part up
    to the [await] followed by the part after it. *)
Lemma initGlobalBrowser_uninterrupted env w :
  (p <- PlaywrightConfig.initGlobalBrowser_enter ;;
   PlaywrightConfig.initGlobalBrowser_resume p) env w =
  PlaywrightConfig.initGlobalBrowser env w.
Proof.
  unfold PlaywrightConfig.initGlobalBrowser_enter, PlaywrightConfig.initGlobalBrowser_resume,
    PlaywrightConfig.initGlobalBrowser, bind, gets, ret.
  destruct (globalBrowser w); [reflexivity|].
  destruct (PlaywrightConfig.chromium_launch PlaywrightConfig.BROWSER_CONFIG_headless env w)
    as [[b | e |] w1]; reflexivity.
Qed.

(** Two first calls that overlap both find no global browser: each
    launches one, each caller gets its own, and the variable keeps the
    one of the caller that was resumed last. *)
Lemma initGlobalBrowser_overlapped_run env w :
  globalBrowser w = None ->
  (forall t, fails env ChromiumLaunch t = None) ->
  let r := PlaywrightConfig.initGlobalBrowser_overlapped env w in
  fst r = Ok (fresh w, S (fresh w)) /\
  launches (events_since w (snd r)) = [fresh w; S (fresh w)] /\
  globalBrowser (snd r) = Some (S (fresh w)).
Proof.
  intros Hnone Hok r. subst r.
  unfold PlaywrightConfig.initGlobalBrowser_overlapped,
    PlaywrightConfig.initGlobalBrowser_enter, PlaywrightConfig.initGlobalBrowser_resume,
    PlaywrightConfig.chromium_launch, call, new_handle, emit, modify, bind, gets, ret.
  rewrite Hnone, Hok. world_simpl. rewrite Hnone, Hok. world_simpl.
  split; [reflexivity|]. split; [|reflexivity].
  rewrite (events_since_extends w _
             [Called ChromiumLaunch;
              Launched (fresh w) PlaywrightConfig.BROWSER_CONFIG_headless;
              Called ChromiumLaunch;
              Launched (S (fresh w)) PlaywrightConfig.BROWSER_CONFIG_headless]).
  - reflexivity.
  - unfold extends. world_simpl. rewrite <- !app_assoc. reflexivity.
Qed.

(** C4 (amended).  The global browser is a matter of the helper module
    alone.  [initGlobalBrowser] launches it on first use and then keeps
    returning it without launching anything, as long as its calls do not
    overlap: two first calls that overlap launch a browser each and give
    their callers different instances.  [createStealthContext] opens its
    context on the global browser, which it launches if there is none.
    No task handler uses them: all of them call [createStealthSetup],
    which leaves the global browser alone and, whenever it returns, has
    launched one new browser and opened the context on that one; so every
    context that a run of a handler opens is on a browser launched in
    that run, and no run starts the global browser. *)
Theorem browser_acquisition (env : Env) (w : World) :
  (forall b, globalBrowser w = Some b ->
     PlaywrightConfig.initGlobalBrowser env w = (Ok b, w)) /\
  (globalBrowser w = None -> fails env ChromiumLaunch (clock w) = None ->
     let r := PlaywrightConfig.initGlobalBrowser env w in
     fst r = Ok (fresh w) /\
     globalBrowser (snd r) = Some (fresh w) /\
     launches (events_since w (snd r)) = [fresh w] /\
     forall env', PlaywrightConfig.initGlobalBrowser env' (snd r) = (Ok (fresh w), snd r)) /\
  (globalBrowser w = None -> (forall t, fails env ChromiumLaunch t = None) ->
     let r := PlaywrightConfig.initGlobalBrowser_overlapped env w in
     fst r = Ok (fresh w, S (fresh w)) /\
     launches (events_since w (snd r)) = [fresh w; S (fresh w)] /\
     globalBrowser (snd r) = Some (S (fresh w))) /\
  (forall cookies proxy,
     let r := PlaywrightConfig.createStealthContext cookies proxy env w in
     (forall b, globalBrowser w = Some b ->
        globalBrowser (snd r) = Some b /\
        launches (events_since w (snd r)) = [] /\
        forall c, fst r = Ok c -> contexts_opened (events_since w (snd r)) = [(b, c)]) /\
     (globalBrowser w = None -> fails env ChromiumLaunch (clock w) = None ->
        globalBrowser (snd r) = Some (fresh w) /\
        launches (events_since w (snd r)) = [fresh w] /\
        forall c, fst r = Ok c ->
                  contexts_opened (events_since w (snd r)) = [(fresh w, c)])) /\
  (forall cookies proxy headless,
     let r := PlaywrightConfig.createStealthSetup cookies proxy headless env w in
     globalBrowser (snd r) = globalBrowser w /\
     forall c p,
       fst r = Ok (c, p) ->
       launches (events_since w (snd r)) = [fresh w] /\
       contexts_opened (events_since w (snd r)) = [(fresh w, c)]) /\
  (forall request fuel task name media,
     own_browser w (snd (TwitterLike.POST request env w)) /\
     own_browser w (snd (TwitterFollow.POST fuel request env w)) /\
     own_browser w (snd (TwitterComment.POST media env w)) /\
     own_browser w (snd (TwitterAddAccount.POST request env w)) /\
     own_browser w (snd (FacebookFollow.POST request env w)) /\
     own_browser w (snd (FacebookLike.POST request env w)) /\
     own_browser w (snd (FacebookAddAccount.POST request env w)) /\
     own_browser w (snd (FacebookCreatePost.executePost task name env w))) /\
  (forall tweet post,
     own_browser w (snd (TwitterCreatePost.POST tweet env w)) /\
     own_browser w (snd (FacebookCreatePost.POST post env w))).
Proof.
  split; [|split; [|split; [|split; [|split; [|split]]]]].
  - intros b Hb. unfold PlaywrightConfig.initGlobalBrowser, bind, gets. rewrite Hb. reflexivity.
  - intros Hnone Hok.
    unfold PlaywrightConfig.initGlobalBrowser, PlaywrightConfig.chromium_launch,
      call, new_handle, emit, modify, bind, gets, ret.
    rewrite Hnone, Hok. world_simpl. repeat split.
    rewrite (events_since_extends w _ [Called ChromiumLaunch;
                                       Launched (fresh w) PlaywrightConfig.BROWSER_CONFIG_headless]).
    + reflexivity.
    + unfold extends. world_simpl. rewrite <- app_assoc. reflexivity.
  - apply initGlobalBrowser_overlapped_run.
  - intros cookies proxy r. split.
    + intros b Hb. apply createStealthContext_shares. exact Hb.
    + apply createStealthContext_first.
  - intros cookies proxy headless. apply createStealthSetup_launches.
  - intros request fuel task name media.
    exact (conj (proj1 (own_like request env w))
          (conj (proj1 (own_follow fuel request env w))
          (conj (proj1 (own_comment media env w))
          (conj (proj1 (own_add_account request env w))
          (conj (proj1 (own_facebook_follow request env w))
          (conj (proj1 (own_facebook_like request env w))
          (conj (proj1 (own_facebook_add_account request env w))
                (proj1 (own_executePost task name env w))))))))).
  - intros tweet post.
    exact (conj (proj1 (own_create_post tweet env w))
                (proj1 (own_facebook_post post env w))).
Qed.

Lemma browser_acquisition_witness :
  PlaywrightConfig.initGlobalBrowser Scenario.calm Scenario.with_global_browser =
    (Ok 0, Scenario.with_global_browser).
Proof.
  apply (browser_acquisition Scenario.calm Scenario.with_global_browser). reflexivity.
Defined.

(** Two first calls of [initGlobalBrowser] that overlap: two browsers are
    launched, the callers hold different ones, and browser 0 is no longer
    in the variable. *)
Example overlapping_callers_do_not_share :
  let r := PlaywrightConfig.initGlobalBrowser_overlapped Scenario.calm Scenario.start in
  fst r = Ok (0, 1) /\
  launches (trace (snd r)) = [0; 1] /\
  globalBrowser (snd r) = Some 1.
Proof. vm_compute. repeat split. Qed.

(* ===================================================================== *)
(** * The one-time-code gate of the add-account handler *)
(* ===================================================================== *)



(* ===================================================================== *)
(** * The proxy resolver *)
(* ===================================================================== *)




(* ===================================================================== *)
(** * The answer of a follow that was not needed *)
(* ===================================================================== *)







(* ===================================================================== *)
(** * The like action that fails *)
(* ===================================================================== *)

Lemma opt_string_eqb_refl a : TwitterLike.opt_string_eqb a a = true.
Proof. destruct a; simpl; [apply String.eqb_refl | reflexivity]. Qed.

(** The driver of the like handler when the wait for the Like button
    rejects: it throws what the wait threw, without a log entry of its
    own. *)
Lemma like_drive_rejects env msg f task :
  (forall t, fails env (PageWaitForSelector TwitterLike.like_testid) t = Some msg) ->
  (forall op t, op <> PageWaitForSelector TwitterLike.like_testid -> fails env op t = None) ->
  (forall t, truth env (IsVisible TwitterLike.unlike_testid) t = false) ->
  rejects same_logs env msg (TwitterLike.drive f task).
Proof.
  intros Hbad Hok Hhidden w.
  unfold TwitterLike.drive, page_goto, human_pause, page_waitForTimeout, catch_default,
    try_catch, locator_isVisible, call_bool, page_waitForSelector, call_, bind, call,
    randomDelay, asks, ret.
  repeat (rewrite Hok by discriminate; cbv beta iota; world_simpl).
  rewrite Hhidden. cbv beta iota. rewrite Hbad. cbn [fst snd]. world_simpl.
  split; [split|]; reflexivity.
Qed.

(** C8 (amended). A like request of an authenticated user on an account
    of theirs that fails, in either of two ways.  When the Like button is
    not found (the one wait for it rejects, there is no retry; nothing
    else rejects and the tweet is not already liked), the response has
    status 500, the new task ends [failed] and exactly one log entry is
    appended, with result ["failed"] and the message of the rejection,
    whatever it is.  When no call rejects and none of the signals of a
    like shows in any of the three verification rounds, the same holds
    with the message ["Failed to verify like action after multiple
    attempts"]. *)
Theorem like_failure_is_logged_with_its_message (env : Env) (w : World)
    (request : Http.Request) (user_id : string) (body : Js.object)
    (f : TwitterLike.Body.t) (account : Account) :
  Http.session request = Some user_id ->
  Http.body request = Some body ->
  TwitterLike.likeTweetSchema env body = inr f ->
  Supabase.single
    (filter (fun a => (account_id a =? TwitterLike.Body.accountId f) &&
                      (account_user_id a =? user_id)) (accounts w)) = Some account ->
  let r := TwitterLike.POST request env w in
  let failed_with (msg : string) :=
    fst r = Ok (Http.json_error 500 msg (Some (Http.Stack (ErrorObj msg)))) /\
    (exists older,
       tasks (snd r) =
         older ++ [Supabase.with_status failed
                     (Supabase.with_task_id (fresh w) (TwitterLike.taskData user_id f))]) /\
    (exists t,
       task_logs (snd r) =
         task_logs w ++
         [{| log_task_id := fresh w; execution_time := t; result := "failed";
             message := msg |}]) in
  (forall msg,
     (forall t, fails env (PageWaitForSelector TwitterLike.like_testid) t = Some msg) ->
     (forall op t,
        op <> PageWaitForSelector TwitterLike.like_testid -> fails env op t = None) ->
     (forall t, truth env (IsVisible TwitterLike.unlike_testid) t = false) ->
     failed_with msg) /\
  (forall count,
     reliable env ->
     never_verified env count ->
     failed_with "Failed to verify like action after multiple attempts").
Proof.
  intros Hs Hb Hschema Hacc r failed_with. subst failed_with r. cbv beta. split.
  - intros msg Hbad Hok Hhidden.
    assert (Hsetup : forall c p h,
               steady same_store env any (PlaywrightConfig.createStealthSetup c p h)).
    { intros c p h.
      apply (steady_createStealthSetup_but env _ c p h Hok).
      intros op Hin. simpl in Hin.
      repeat (destruct Hin as [<- | Hin]; [discriminate|]). contradiction. }
    assert (Hclose : steady same_store env any close_context_if_open)
      by (apply (steady_close_context_but env _ Hok); discriminate).
    pose proof (fun task => like_drive_rejects env msg f task Hbad Hok Hhidden) as Hdrive.
    eassert (Hrun : TwitterLike.POST request env w = _).
    { unfold TwitterLike.POST. rewrite reset_locals_run.
      run ltac:(rewrite ?Hs, ?Hb, ?Hschema, ?Hacc) ltac:(apply Hok; discriminate). }
    rewrite Hrun. cbn [fst snd]. split; [reflexivity|].
    match type of Hrun with
    | context [PlaywrightConfig.createStealthSetup ?c ?p ?h env ?w2] =>
        destruct (Hsetup c p h w2) as [(_ & Ht2 & Hl2 & _) _];
        set (w3 := snd (PlaywrightConfig.createStealthSetup c p h env w2)) in *
    end.
    match type of Hrun with
    | context [TwitterLike.drive f ?task env ?w5] =>
        destruct (Hdrive task w5) as [[Ht Hl] _];
        set (w6 := snd (TwitterLike.drive f task env w5)) in *
    end.
    match type of Hrun with
    | context [close_context_if_open env ?w7] =>
        destruct (Hclose w7) as [(_ & Ht3 & Hl3 & _) _];
        set (w8 := snd (close_context_if_open env w7)) in *
    end.
    clear Hrun. world_simpl in Ht. world_simpl in Hl. world_simpl in Ht2.
    world_simpl in Hl2. world_simpl in Ht3. world_simpl in Hl3.
    rewrite Ht3, Hl3, Ht, Hl, Ht2, Hl2, map_app.
    cbn [map Supabase.with_task_id task_id]. rewrite Nat.eqb_refl.
    split; eexists; reflexivity.
  - intros count Hrel (Hv1 & Hv2 & Hv3 & Hcount).
    destruct (Js.truthy_opt count) eqn:Htruthy.
    all: eassert (Hrun : TwitterLike.POST request env w = _);
      [ unfold TwitterLike.POST; rewrite reset_locals_run;
        run ltac:(rewrite ?Hs, ?Hb, ?Hschema, ?Hacc, ?Hv1, ?Hv2, ?Hv3, ?Hcount, ?Htruthy,
                    ?opt_string_eqb_refl)
            ltac:(apply Hrel) | ].
    all: rewrite Hrun; cbn [fst snd]; (split; [reflexivity|]).
    all: match type of Hrun with
         | context [PlaywrightConfig.createStealthSetup ?c ?p ?h ?e ?w2] =>
             destruct (steady_createStealthSetup e Hrel c p h w2)
               as [(Ha & Ht & Hl & Hloc) _];
             set (w3 := snd (PlaywrightConfig.createStealthSetup c p h e w2)) in *
         end.
    all: clear Hrun; world_simpl in Ht; world_simpl in Hl; world_simpl.
    all: rewrite Ht, Hl, map_app; cbn [map Supabase.with_task_id task_id];
         rewrite Nat.eqb_refl.
    all: split; [eexists; reflexivity | eexists; reflexivity].
Qed.

Lemma like_failure_is_logged_with_its_message_witness :
  let msg := Pages.waitForSelector_timeout TwitterLike.like_testid in
  let r := TwitterLike.POST Scenario.like_request Pages.without_like_button Scenario.start in
  fst r = Ok (Http.json_error 500 msg (Some (Http.Stack (ErrorObj msg)))) /\
  (exists older,
     tasks (snd r) =
       older ++ [Supabase.with_status failed
                   (Supabase.with_task_id (fresh Scenario.start)
                      (TwitterLike.taskData "user-1" Scenario.like_fields))]) /\
  (exists t,
     task_logs (snd r) =
       task_logs Scenario.start ++
       [{| log_task_id := fresh Scenario.start; execution_time := t; result := "failed";
           message := msg |}]).
Proof.
  refine (proj1 (like_failure_is_logged_with_its_message Pages.without_like_button
                   Scenario.start Scenario.like_request "user-1"
                   [("tweetUrl", Js.Str "https://x.com/u/status/123");
                    ("accountId", Js.Str Scenario.account_uuid)]
                   Scenario.like_fields Scenario.twitter_account _ _ _ _)
            (Pages.waitForSelector_timeout TwitterLike.like_testid) _ _ _).
  - reflexivity.
  - reflexivity.
  - vm_compute. reflexivity.
  - vm_compute. reflexivity.
  - intros t. reflexivity.
  - intros op t Hne. destruct op; try reflexivity. simpl.
    destruct (String.eqb_spec selector TwitterLike.like_testid) as [-> | _];
      [contradiction | reflexivity].
  - intros t. reflexivity.
Defined.

(** The Like button is not found: the wait for it times out with
    Playwright's message.  The one log entry of the run has result
    ["failed"], and its message, which is that of the time-out, does not
    contain ["like button"]. *)
Lemma like_button_not_found_message_differs :
  let r := TwitterLike.POST Scenario.like_request Pages.without_like_button Scenario.start in
  existsb (fun e => match e with
                    | Called (PageWaitForSelector s) => s =? TwitterLike.like_testid
                    | _ => false
                    end) (trace (snd r)) = true /\
  clicked (trace (snd r)) = [] /\
  map (fun l => (result l, Js.includes "like button" (message l))) (task_logs (snd r)) =
    [("failed", false)].
Proof. vm_compute. repeat split. Qed.

(** The same for the run in which the button is clicked and the like
    cannot be verified. *)
Example like_unverified_message_differs :
  let r := TwitterLike.POST Scenario.like_request Scenario.calm Scenario.start in
  map (fun l => (result l, Js.includes "like button" (message l))) (task_logs (snd r)) =
    [("failed", false)].
Proof. vm_compute. reflexivity. Qed.

(* ===================================================================== *)
(** * Session cookies *)
(* ===================================================================== *)

Lemma cookie_of_pair_facebook s : facebook_cookie (PlaywrightConfig.cookie_of_pair s).
Proof. repeat split. Qed.

Lemma parseCookies_not_json env w s :
  JSON_parse env s = None ->
  PlaywrightConfig.parseCookies s env w =
    (Ok (JsonCookies (map PlaywrightConfig.cookie_of_pair (Js.split ";" s))), w).
Proof.
  intros H. unfold PlaywrightConfig.parseCookies, PlaywrightConfig.json_parse,
    try_catch, bind, asks. rewrite H. reflexivity.
Qed.

(** C9. A session blob that [JSON.parse] rejects is split on [';'] into
    cookie records that all carry the domain [".facebook.com"], path ["/"],
    [secure], [httpOnly] and [sameSite = "Lax"]; the parser is not given the
    platform of the account, and [createStealthSetup], which every handler
    calls with the account's blob, adds exactly these records to the new
    context whenever launching, opening the context and adding succeed. *)
Theorem parseCookies_fallback_is_facebook (env : Env) (w : World) (s : string) :
  JSON_parse env s = None ->
  let fallback := map PlaywrightConfig.cookie_of_pair (Js.split ";" s) in
  PlaywrightConfig.parseCookies s env w = (Ok (JsonCookies fallback), w) /\
  Forall facebook_cookie fallback /\
  (forall proxy headless,
     s <> "" ->
     (forall t, fails env ChromiumLaunch t = None) ->
     (forall t, fails env BrowserNewContext t = None) ->
     (forall t, fails env ContextAddCookies t = None) ->
     exists b c,
       contexts_opened
         (events_since w
            (snd (PlaywrightConfig.createStealthSetup (Some s) proxy headless env w))) =
         [(b, c)] /\
       In (CookiesAdded c (JsonCookies fallback))
          (events_since w
             (snd (PlaywrightConfig.createStealthSetup (Some s) proxy headless env w)))).
Proof.
  intros Hjson fallback. split; [apply parseCookies_not_json; exact Hjson|].
  split.
  - unfold fallback. apply Forall_forall. intros c Hc.
    apply in_map_iff in Hc. destruct Hc as (x & <- & _). apply cookie_of_pair_facebook.
  - intros proxy headless Hs Hl Hn Ha.
    assert (Ht : Js.truthy s = true).
    { unfold Js.truthy. destruct (String.eqb_spec s ""); [contradiction | reflexivity]. }
    exists (fresh w), (S (fresh w)).
    unfold PlaywrightConfig.createStealthSetup, PlaywrightConfig.chromium_launch,
      PlaywrightConfig.browser_newContext, PlaywrightConfig.restore_cookies,
      PlaywrightConfig.context_addCookies, PlaywrightConfig.context_newPage,
      PlaywrightConfig.parseCookies, PlaywrightConfig.json_parse,
      call_, call, new_handle, emit, modify, try_catch, bind, asks, ret, throw_error, throw.
    cbn [clock with_clock with_trace with_fresh fresh trace fst snd].
    rewrite Hl, Hn, Ht, Hjson. cbn [clock with_clock with_trace with_fresh fresh trace fst snd].
    rewrite Ha. cbn [clock with_clock with_trace with_fresh fresh trace fst snd].
    fold fallback.
    set (evs := [Called ChromiumLaunch; Launched (fresh w) headless; Called BrowserNewContext;
                 ContextOpened (fresh w) (S (fresh w)) (option_map PlaywrightConfig.proxy_server proxy);
                 Called ContextAddCookies; CookiesAdded (S (fresh w)) (JsonCookies fallback)]).
    match goal with
    | |- context [events_since w ?w'] =>
        assert (Hex : exists more, extends w w' (evs ++ more) /\ contexts_opened more = [])
    end.
    { unfold extends.
      destruct (fails env ContextAddInitScript (S (S (S (clock w))))) eqn:H1;
        cbn [clock with_clock with_trace with_fresh fresh trace fst snd].
      - eexists; split; [rewrite <- !app_assoc; simpl; reflexivity | reflexivity].
      - destruct (fails env ContextNewPage (S (S (S (S (clock w)))))) eqn:H2;
          cbn [clock with_clock with_trace with_fresh fresh trace fst snd].
        + eexists; split; [rewrite <- !app_assoc; simpl; reflexivity | reflexivity].
        + destruct (fails env PageAddInitScript (S (S (S (S (S (clock w))))))) eqn:H3;
            cbn [clock with_clock with_trace with_fresh fresh trace fst snd].
          * eexists; split; [rewrite <- !app_assoc; simpl; reflexivity | reflexivity].
          * eexists; split; [rewrite <- !app_assoc; simpl; reflexivity | reflexivity]. }
    destruct Hex as (more & Hext & Hmore).
    rewrite (events_since_extends _ _ _ Hext). split.
    + unfold contexts_opened in *. rewrite flat_map_app, Hmore. reflexivity.
    + apply in_or_app. left. unfold evs. simpl. tauto.
Qed.

Lemma parseCookies_fallback_is_facebook_witness :
  PlaywrightConfig.parseCookies "auth_token=abc; ct0=xyz" Scenario.calm Scenario.start =
    (Ok (JsonCookies
           [{| cookie_name := "auth_token"; cookie_value := Some "abc";
               domain := ".facebook.com"; path := "/"; secure := true;
               httpOnly := true; sameSite := "Lax" |};
            {| cookie_name := "ct0"; cookie_value := Some "xyz";
               domain := ".facebook.com"; path := "/"; secure := true;
               httpOnly := true; sameSite := "Lax" |}]), Scenario.start).
Proof.
  apply (parseCookies_fallback_is_facebook Scenario.calm Scenario.start
           "auth_token=abc; ct0=xyz").
  reflexivity.
Defined.

(** The session of the twitter account of the scenario reaches the context
    of a follow task as two facebook-domain cookies. *)
Example twitter_session_restored_as_facebook_cookies :
  flat_map (fun e => match e with CookiesAdded _ (JsonCookies l) => map domain l | _ => [] end)
    (trace (snd (TwitterFollow.POST 3 Scenario.follow_request Scenario.following
                   Scenario.start))) =
  [".facebook.com"; ".facebook.com"].
Proof. vm_compute. reflexivity. Qed.

(* ===================================================================== *)
(** * The one-time-code prompt cannot be reached *)
(* ===================================================================== *)

(** C10. Whatever the request and the page, the add-account endpoint never
    answers with [requiresMfa: true]: what its schema accepts carries a
    non-empty [mfa_code] string, and a body in which [mfa_code] is absent
    or empty is rejected by the schema and answered with status 500
    before any call to the browser or the store is made. *)
Theorem mfa_prompt_unreachable (request : Http.Request) (env : Env) (w : World) :
  let r := TwitterAddAccount.POST request env w in
  (forall a, fst r = Ok a -> Http.requiresMfa a <> Some true) /\
  (forall body f,
     TwitterAddAccount.addAccountSchema env body = inr f ->
     exists s, Js.get body "mfa_code" = Js.Str s /\ s <> "" /\
               TwitterAddAccount.Body.mfa_code f = s) /\
  (forall user_id body,
     Http.session request = Some user_id ->
     Http.body request = Some body ->
     Js.get body "mfa_code" = Js.Undefined \/ Js.get body "mfa_code" = Js.Str "" ->
     (exists errs, TwitterAddAccount.addAccountSchema env body = inl errs) /\
     (exists response, fst r = Ok response /\ Http.status response = 500) /\
     events_since w (snd r) = []).
Proof.
  intros r. split; [|split].
  - intros a. apply add_account_no_mfa_prompt.
  - intros body f. apply addAccountSchema_mfa_code.
  - intros user_id body Hs Hb Hm. subst r.
    destruct (add_account_without_secret_run env w request user_id body Hs Hb Hm)
      as (errs & Herrs & ->).
    cbn [fst snd]. split; [exists errs; exact Herrs|]. split.
    + eexists. split; reflexivity.
    + apply events_since_same. reflexivity.
Qed.

Lemma mfa_prompt_unreachable_witness :
  let r := TwitterAddAccount.POST (Scenario.add_account_request (Js.Str ""))
             Scenario.calm Scenario.start in
  (exists errs,
     TwitterAddAccount.addAccountSchema Scenario.calm
       [("username", Js.Str "newcomer"); ("email", Js.Str "new@example.com");
        ("password", Js.Str "secret"); ("mfa_code", Js.Str "")] = inl errs) /\
  (exists response, fst r = Ok response /\ Http.status response = 500) /\
  events_since Scenario.start (snd r) = [].
Proof.
  apply (mfa_prompt_unreachable (Scenario.add_account_request (Js.Str ""))
           Scenario.calm Scenario.start) with (user_id := "user-1").
  - reflexivity.
  - reflexivity.
  - right. reflexivity.
Defined.
